(** * AR.IO node setup wizard: the deployment server

    A shallow embedding of the deployment server of the setup wizard
    (the Express application with the routes [/deploy], [/logs],
    [/status] and [/cancel], together with its helpers [fixPortMappings],
    [appendLog] and [buildEnvFile]) and the properties of it that the
    specification states.

    Conventions of the embedding.
    - A JavaScript string is a [string]; its characters are code units
      below 256, so the only white space outside ASCII is U+00A0.
    - A JavaScript object used as a record of settings is a finite map
      from property names to values ([gmap string jsval]); an absent
      property reads as [None], which is JavaScript's [undefined].
    - The values of the settings are the ones the wizard produces:
      strings, booleans and [null].
    - An exception is a value [Err msg] carrying [err.message]. *)

From Stdlib Require Import String Ascii List ZArith Lia Bool DecimalString.
From stdpp Require Import base gmap strings list.

Open Scope string_scope.
Open Scope list_scope.

(** ** Strings *)

Module Str.

Definition nl : ascii := "010"%char.

(** White space of [String.prototype.trim] and of the regular
    expression class [\s], on code units below 256: tab, line feed,
    vertical tab, form feed, carriage return, space and U+00A0. *)
Definition is_space (c : ascii) : bool :=
  let n := nat_of_ascii c in
  (Nat.leb 9 n && Nat.leb n 13) || Nat.eqb n 32 || Nat.eqb n 160.

(** The class [\d]. *)
Definition is_digit (c : ascii) : bool :=
  let n := nat_of_ascii c in Nat.leb 48 n && Nat.leb n 57.

(** The class [[a-zA-Z]]. *)
Definition is_letter (c : ascii) : bool :=
  let n := nat_of_ascii c in
  (Nat.leb 97 n && Nat.leb n 122) || (Nat.leb 65 n && Nat.leb n 90).

(** The class of the two quote characters (double, code 34, and
    single, code 39). *)
Definition dquote : ascii := "034"%char.
Definition squote : ascii := "039"%char.
Definition is_quote (c : ascii) : bool :=
  Ascii.eqb c dquote || Ascii.eqb c squote.

(** [s.split('\n')]. *)
Fixpoint split_nl (s : string) : list string :=
  match s with
  | EmptyString => [EmptyString]
  | String c s' =>
      if Ascii.eqb c nl then EmptyString :: split_nl s'
      else match split_nl s' with
           | h :: t => String c h :: t
           | [] => [String c EmptyString]
           end
  end.

(** [lines.join('\n')]. *)
Definition join_nl (l : list string) : string :=
  String.concat (String nl EmptyString) l.

(** [list.join(', ')] and friends. *)
Definition join (sep : string) (l : list string) : string :=
  String.concat sep l.

Fixpoint drop_space (s : string) : string :=
  match s with
  | String c s' => if is_space c then drop_space s' else s
  | EmptyString => EmptyString
  end.

Fixpoint all_space (s : string) : bool :=
  match s with
  | String c s' => is_space c && all_space s'
  | EmptyString => true
  end.

Fixpoint drop_space_end (s : string) : string :=
  match s with
  | String c s' => if all_space s then EmptyString else String c (drop_space_end s')
  | EmptyString => EmptyString
  end.

(** [s.trim()]. *)
Definition trim (s : string) : string := drop_space_end (drop_space s).

Definition is_empty (s : string) : bool :=
  match s with EmptyString => true | _ => false end.

Fixpoint single_line (s : string) : bool :=
  match s with
  | EmptyString => true
  | String c s' => negb (Ascii.eqb c nl) && single_line s'
  end.

Fixpoint has_char (c : ascii) (s : string) : bool :=
  match s with
  | EmptyString => false
  | String d s' => Ascii.eqb c d || has_char c s'
  end.

Fixpoint starts_with (p s : string) : bool :=
  match p, s with
  | EmptyString, _ => true
  | String a p', String b s' => Ascii.eqb a b && starts_with p' s'
  | String _ _, EmptyString => false
  end.

Fixpoint drop (n : nat) (s : string) : string :=
  match n, s with
  | S n', String _ s' => drop n' s'
  | _, _ => s
  end.

Fixpoint rev_onto (s acc : string) : string :=
  match s with
  | EmptyString => acc
  | String c s' => rev_onto s' (String c acc)
  end.

Definition rev (s : string) : string := rev_onto s EmptyString.

Definition NL : string := String nl EmptyString.
Definition DQ : string := String dquote EmptyString.

End Str.

(** ** JavaScript values and objects *)

Inductive jsval := JNull | JBool (b : bool) | JStr (s : string).

Global Instance jsval_eq_dec : EqDecision jsval.
Proof. solve_decision. Defined.

(** A property read [o[key]]: [None] is [undefined]. *)
Abbreviation obj := (gmap string jsval).

(** The conversion of a template literal, [`${v}`]. *)
Definition template (v : option jsval) : string :=
  match v with
  | None => "undefined"
  | Some JNull => "null"
  | Some (JBool true) => "true"
  | Some (JBool false) => "false"
  | Some (JStr s) => s
  end.

(** The conversion to boolean of [if (v)], [v || w] and [!v]. *)
Definition truthy (v : option jsval) : bool :=
  match v with
  | Some (JBool b) => b
  | Some (JStr s) => negb (Str.is_empty s)
  | Some JNull | None => false
  end.

(** [v == null]. *)
Definition nullish (v : option jsval) : bool :=
  match v with
  | None | Some JNull => true
  | _ => false
  end.

(** [v === ''] . *)
Definition is_empty_string (v : option jsval) : bool :=
  match v with
  | Some (JStr s) => Str.is_empty s
  | _ => false
  end.

(** [a || b] on values. *)
Definition js_or (a b : option jsval) : option jsval :=
  if truthy a then a else b.

Inductive result (A : Type) : Type :=
| Ok (a : A)
| Err (msg : string).
Arguments Ok {A} a.
Arguments Err {A} msg.

(** The request body of [POST /deploy]: [{ nodeConfig, dashboardConfig,
    dockerConfig }]. *)
Record Config := {
  nodeConfig : obj;
  dashboardConfig : obj;
  dockerConfig : obj
}.

(** ** The environment file: [buildEnvFile] *)

Module EnvFile.

(** The two local variables of [buildEnvFile]: the array [lines] and
    the set [seen]. *)
Record Acc := {
  lines : list string;
  seen : gset string
}.

Definition start : Acc := {| lines := []; seen := ∅ |}.

(** [lines.push(`${key}=${value}`); seen.add(key)]. *)
Definition push (key : string) (value : option jsval) (a : Acc) : Acc :=
  {| lines := lines a ++ [key +:+ "=" +:+ template value];
     seen := {[key]} ∪ seen a |}.

(** [lines.push(line)]. *)
Definition pushRaw (line : string) (a : Acc) : Acc :=
  {| lines := lines a ++ [line]; seen := seen a |}.

(** [seen.has(key)]. *)
Definition has (a : Acc) (key : string) : bool := bool_decide (key ∈ seen a).

(** The object literal [defaultValues] of [shouldIncludeValue]. *)
Definition denyList : list (string * string) :=
  [ ("AWS_ACCESS_KEY_ID", "test");
    ("AWS_SECRET_ACCESS_KEY", "test");
    ("AWS_ENDPOINT", "http://localstack:4566");
    ("ADMIN_USERNAME", "admin");
    ("ADMIN_PASSWORD", "");
    ("SSL_CERT_PATH", "");
    ("SSL_KEY_PATH", "") ].

Definition defaultValues : obj :=
  list_to_map (map (fun kv => (fst kv, JStr (snd kv))) denyList).

(** [shouldIncludeValue(key, value)]:
    [if (value == null || value === '') return false;
     return defaultValues[key] !== value;] *)
Definition shouldIncludeValue (key : string) (value : option jsval) : bool :=
  if nullish value || is_empty_string value then false
  else negb (bool_decide (defaultValues !! key = value)).

Definition coreNodeConfigs : list string :=
  [ "AR_IO_WALLET"; "OBSERVER_WALLET"; "ADMIN_API_KEY"; "ADMIN_API_KEY_FILE";
    "GRAPHQL_HOST"; "GRAPHQL_PORT";
    "ARNS_ROOT_HOST"; "START_HEIGHT"; "STOP_HEIGHT"; "TRUSTED_ARWEAVE_URL";
    "TRUSTED_NODE_URL";
    "TRUSTED_GATEWAY_URL"; "TRUSTED_ARNS_GATEWAY_URL"; "INSTANCE_ID";
    "LOG_FORMAT"; "LOG_FILTER";
    "WEBHOOK_TARGET_SERVERS"; "WEBHOOK_INDEX_FILTER"; "WEBHOOK_BLOCK_FILTER";
    "SKIP_CACHE"; "FILTER_CHANGE_REPROCESS"; "SANDBOX_PROTOCOL";
    "SIMULATED_REQUEST_FAILURE_RATE";
    "START_WRITERS"; "RUN_OBSERVER"; "ENABLE_MEMPOOL_WATCHER";
    "MEMPOOL_POLLING_INTERVAL_MS";
    "BACKFILL_BUNDLE_RECORDS";
    "NODE_MAX_OLD_SPACE_SIZE"; "RUN_AUTOHEAL";
    "CORE_PORT"; "ENVOY_PORT"; "OBSERVER_PORT";
    "CHAIN_CACHE_TYPE"; "REDIS_CACHE_URL"; "REDIS_USE_TLS";
    "REDIS_CACHE_TTL_SECONDS" ].

(** [serviceSpecificNodeConfigs.bundler]. *)
Definition nodeBundlerConfigs : list string := [].

(** The members of [serviceSpecificDashboardConfigs]. *)
Definition envoyConfigs : list string := ["ENVOY_PORT"].
Definition redisServiceConfigs : list string :=
  ["REDIS_MAX_MEMORY"; "EXTRA_REDIS_FLAGS"].
Definition clickhouseServiceConfigs : list string :=
  [ "CLICKHOUSE_PORT"; "CLICKHOUSE_PORT_2"; "CLICKHOUSE_PORT_3";
    "CLICKHOUSE_USER"; "CLICKHOUSE_PASSWORD" ].
Definition litestreamConfigs : list string :=
  [ "AR_IO_SQLITE_BACKUP_S3_BUCKET_NAME"; "AR_IO_SQLITE_BACKUP_S3_BUCKET_REGION";
    "AR_IO_SQLITE_BACKUP_S3_BUCKET_ACCESS_KEY";
    "AR_IO_SQLITE_BACKUP_S3_BUCKET_SECRET_KEY";
    "AR_IO_SQLITE_BACKUP_S3_BUCKET_PREFIX" ].

Definition coreConfigs : list string := ["CORE_PORT"].
Definition adminConfigs : list string :=
  ["ADMIN_API_KEY"; "ADMIN_USERNAME"; "ADMIN_PASSWORD"].
Definition bundlerConfigs : list string :=
  [ "BUNDLER_ARWEAVE_WALLET"; "BUNDLER_ARWEAVE_ADDRESS"; "GATEWAY_URL";
    "UPLOADER_URL"; "APP_NAME"; "ANS104_INDEX_FILTER"; "ANS104_UNBUNDLE_FILTER";
    "AWS_S3_CONTIGUOUS_DATA_BUCKET"; "AWS_S3_CONTIGUOUS_DATA_PREFIX";
    "AWS_ACCESS_KEY_ID";
    "AWS_SECRET_ACCESS_KEY"; "AWS_REGION"; "AWS_ENDPOINT";
    "ALLOW_LISTED_ADDRESSES" ].
Definition aoCuConfigs : list string :=
  ["CU_WALLET"; "PROCESS_CHECKPOINT_TRUSTED_OWNERS"; "ADDITIONAL_AO_CU_ENV"].
Definition grafanaConfigs : list string := ["GRAFANA_PORT"].
Definition clickhouseConfigs : list string := ["CLICKHOUSE_PORT"].
Definition dashboardOnlyConfigs : list string := ["DASHBOARD_PORT"].
Definition sslConfigs : list string :=
  ["ENABLE_SSL"; "SSL_CERT_PATH"; "SSL_KEY_PATH"].
Definition redisConfigs : list string :=
  ["REDIS_MAX_MEMORY"; "EXTRA_REDIS_FLAGS"].

(** [keys.forEach(key => ...)]. *)
Definition forEach (keys : list string) (f : string -> Acc -> Acc) (a : Acc) : Acc :=
  fold_left (fun a key => f key a) keys a.

(** The callback of the loops over [coreNodeConfigs] and
    [serviceSpecificNodeConfigs.bundler]:
    [if (o[key] != null && o[key] !== '' && !seen.has(key)) push]. *)
Definition addPresent (o : obj) (key : string) (a : Acc) : Acc :=
  if negb (nullish (o !! key)) && negb (is_empty_string (o !! key))
     && negb (has a key)
  then push key (o !! key) a else a.

(** The callback of the loops over [serviceSpecificDashboardConfigs]:
    [if (o[key] != null && o[key] !== '' && !seen.has(key)
         && shouldIncludeValue(key, o[key])) push]. *)
Definition addPresentChecked (o : obj) (key : string) (a : Acc) : Acc :=
  if negb (nullish (o !! key)) && negb (is_empty_string (o !! key))
     && negb (has a key) && shouldIncludeValue key (o !! key)
  then push key (o !! key) a else a.

(** The callback of the remaining loops:
    [if (!seen.has(key) && shouldIncludeValue(key, o[key])) push]. *)
Definition addChecked (o : obj) (key : string) (a : Acc) : Acc :=
  if negb (has a key) && shouldIncludeValue key (o !! key)
  then push key (o !! key) a else a.

(** [if (flag && !seen.has(key)) { lines.push(key + '=true'); seen.add(key) }]. *)
Definition addToggle (flag : option jsval) (key : string) (a : Acc) : Acc :=
  if truthy flag && negb (has a key)
  then {| lines := lines a ++ [key +:+ "=true"]; seen := {[key]} ∪ seen a |}
  else a.

Definition when (c : bool) (f : Acc -> Acc) (a : Acc) : Acc :=
  if c then f a else a.

(** [dockerConfig.enableBundler || dockerConfig.enableAoCu || ...]. *)
Definition anyServiceEnabled (dockerConfig : obj) : option jsval :=
  js_or (dockerConfig !! "enableBundler")
  (js_or (dockerConfig !! "enableAoCu")
  (js_or (dockerConfig !! "enableGrafana")
  (js_or (dockerConfig !! "enableDashboard")
  (js_or (dockerConfig !! "enableClickhouse")
  (js_or (dockerConfig !! "enableLitestream")
         (dockerConfig !! "enableAutoheal")))))).

(** The non-blank lines of the raw text:
    [text.split('\n').forEach(line => { if (line.trim()) lines.push(line) })]. *)
Definition additionalLines (text : string) : list string :=
  filter (fun line => negb (Str.is_empty (Str.trim line)) = true) (Str.split_nl text).

(** [if (nodeConfig.ADDITIONAL_ENV) { nodeConfig.ADDITIONAL_ENV.split('\n')... }]:
    a truthy value that is not a string has no method [split], and the
    call throws a [TypeError]. *)
Definition addAdditional (v : option jsval) (a : Acc) : result Acc :=
  if truthy v then
    match v with
    | Some (JStr text) => Ok (fold_left (fun a line => pushRaw line a) (additionalLines text) a)
    | _ => Err "nodeConfig.ADDITIONAL_ENV.split is not a function"
    end
  else Ok a.

(** The statements of [buildEnvFile] before the additional lines. *)
Definition beforeAdditional (c : Config) : Acc :=
  let node := nodeConfig c in
  let dash := dashboardConfig c in
  let docker := dockerConfig c in
  let a := start in
  let a := forEach coreNodeConfigs (addPresent node) a in
  let a := when (truthy (docker !! "enableBundler"))
             (forEach nodeBundlerConfigs (addPresent node)) a in
  let a := when (truthy (docker !! "useEnvoy"))
             (forEach envoyConfigs (addPresentChecked dash)) a in
  let a := when (truthy (anyServiceEnabled docker))
             (forEach redisServiceConfigs (addPresentChecked dash)) a in
  let a := when (truthy (dash !! "ENABLE_CLICKHOUSE"))
             (forEach clickhouseServiceConfigs (addPresentChecked dash)) a in
  let a := when (truthy (dash !! "ENABLE_LITESTREAM"))
             (forEach litestreamConfigs (addPresentChecked dash)) a in
  a.

(** The statements of [buildEnvFile] after the additional lines. *)
Definition afterAdditional (c : Config) (a : Acc) : Acc :=
  let node := nodeConfig c in
  let dash := dashboardConfig c in
  let docker := dockerConfig c in
  let a :=
    when (truthy (anyServiceEnabled docker) || truthy (docker !! "useEnvoy"))
      (fun a =>
         let a := forEach coreConfigs (addChecked node) a in
         let a := when (truthy (docker !! "useEnvoy") && negb (has a "ENVOY_PORT")
                        && shouldIncludeValue "ENVOY_PORT" (dash !! "ENVOY_PORT"))
                    (push "ENVOY_PORT" (dash !! "ENVOY_PORT")) a in
         let a := when (truthy (docker !! "enableDashboard"))
                    (forEach adminConfigs (addChecked dash)) a in
         a) a in
  let a := when (truthy (docker !! "enableBundler"))
             (forEach bundlerConfigs (addChecked dash)) a in
  let a := when (truthy (docker !! "enableAoCu"))
             (forEach aoCuConfigs (addChecked dash)) a in
  let a := when (truthy (docker !! "enableGrafana"))
             (forEach grafanaConfigs (addChecked dash)) a in
  let a := when (truthy (docker !! "enableClickhouse"))
             (forEach clickhouseConfigs (addChecked dash)) a in
  let a := when (truthy (docker !! "enableDashboard"))
             (forEach dashboardOnlyConfigs (addChecked dash)) a in
  let a := when (truthy (docker !! "enableSsl"))
             (forEach sslConfigs (addChecked dash)) a in
  let a := addToggle (docker !! "enableAoCu") "ENABLE_AO_CU" a in
  let a := addToggle (docker !! "enableGrafana") "ENABLE_GRAFANA" a in
  let a := addToggle (docker !! "enableDashboard") "ENABLE_DASHBOARD" a in
  let a := addToggle (docker !! "enableClickhouse") "ENABLE_CLICKHOUSE" a in
  let a := addToggle (docker !! "enableLitestream") "ENABLE_LITESTREAM" a in
  let a := addToggle (docker !! "enableAutoheal") "ENABLE_AUTOHEAL" a in
  let a := when (truthy (anyServiceEnabled docker))
             (forEach redisConfigs (addChecked dash)) a in
  a.

(** The array [lines] at the [return] of [buildEnvFile]. *)
Definition envLines (c : Config) : result (list string) :=
  match addAdditional (nodeConfig c !! "ADDITIONAL_ENV") (beforeAdditional c) with
  | Ok a => Ok (lines (afterAdditional c a))
  | Err e => Err e
  end.

(** [buildEnvFile({ nodeConfig, dashboardConfig, dockerConfig })]:
    [return lines.join('\n')]. *)
Definition buildEnvFile (c : Config) : result string :=
  match envLines c with
  | Ok l => Ok (Str.join_nl l)
  | Err e => Err e
  end.

End EnvFile.

(** ** Regular expressions and [String.prototype.replace] *)

Module Regex.

(** The fragment of the regular expressions of JavaScript that the
    server uses: literal text, character classes, sequence, the greedy
    quantifiers [?], [*] and [+], and capturing groups (numbered by
    their opening parenthesis). *)
Inductive re :=
| Lit (s : string)
| Cls (p : ascii -> bool)
| Seq (r1 r2 : re)
| Opt (r : re)
| Star (r : re)
| Plus (r : re)
| Grp (n : nat) (r : re).

Fixpoint seqs (l : list re) : re :=
  match l with
  | [] => Lit EmptyString
  | [r] => r
  | r :: l' => Seq r (seqs l')
  end.

Definition ws : re := Cls Str.is_space.
Definition digit : re := Cls Str.is_digit.
Definition quote : re := Cls Str.is_quote.
Definition letter : re := Cls Str.is_letter.
Definition newline : re := Lit (String Str.nl EmptyString).

(** The captures: the text of each group that took part in the match,
    the most recent first. *)
Definition caps := list (nat * string).

Fixpoint capture (n : nat) (c : caps) : option string :=
  match c with
  | [] => None
  | (i, w) :: c' => if Nat.eqb i n then Some w else capture n c'
  end.

(** The state of a match is the text still to be read and the captures;
    a continuation receives both. *)
Definition cont := string -> caps -> option (string * caps).

Fixpoint strip (p s : string) : option string :=
  match p, s with
  | EmptyString, _ => Some s
  | String a p', String b s' => if Ascii.eqb a b then strip p' s' else None
  | String _ _, EmptyString => None
  end.

Fixpoint take (n : nat) (s : string) : string :=
  match n, s with
  | S n', String c s' => String c (take n' s')
  | _, _ => EmptyString
  end.

(** Greedy iteration of a matcher [step]: one more iteration is tried
    first, then the continuation. An iteration that reads nothing is
    not taken, so [fuel], the length of the text, bounds the number of
    iterations. *)
Fixpoint iterate (step : cont -> cont) (k : cont) (fuel : nat) : cont :=
  fun s c =>
    match fuel with
    | 0 => k s c
    | S fuel' =>
        match step (fun s' c' =>
                      if Nat.ltb (String.length s') (String.length s)
                      then iterate step k fuel' s' c' else None) s c with
        | Some x => Some x
        | None => k s c
        end
    end.

(** The backtracking matcher: [run r k s c] matches [r] at the start of
    [s], trying the alternatives in the order of priority of the
    language, and calls [k] on what remains. *)
Fixpoint run (r : re) (k : cont) {struct r} : cont :=
  fun s c =>
    match r with
    | Lit l =>
        match strip l s with
        | Some s' => k s' c
        | None => None
        end
    | Cls p =>
        match s with
        | String a s' => if p a then k s' c else None
        | EmptyString => None
        end
    | Seq r1 r2 => run r1 (run r2 k) s c
    | Opt r1 =>
        match run r1 k s c with
        | Some x => Some x
        | None => k s c
        end
    | Star r1 => iterate (run r1) k (String.length s) s c
    | Plus r1 =>
        run r1 (fun s' c' => iterate (run r1) k (String.length s') s' c') s c
    | Grp n r1 =>
        run r1 (fun s' c' =>
                  k s' ((n, take (String.length s - String.length s') s) :: c')) s c
    end.

(** The first match of [r] at the start of [s]: the text after the
    match and the captures. *)
Definition exec (r : re) (s : string) : option (string * caps) :=
  run r (fun s' c' => Some (s', c')) s [].

(** The number of capturing groups. *)
Fixpoint groups (r : re) : nat :=
  match r with
  | Lit _ | Cls _ => 0
  | Seq r1 r2 => groups r1 + groups r2
  | Opt r1 | Star r1 | Plus r1 => groups r1
  | Grp _ r1 => S (groups r1)
  end.

Definition digit_value (a : ascii) : option nat :=
  if Str.is_digit a then Some (nat_of_ascii a - 48) else None.

Definition captured (n : nat) (c : caps) : string :=
  match capture n c with Some w => w | None => EmptyString end.

(** The expansion of a replacement string (GetSubstitution): [$$] is a
    dollar sign, [$&] the match, [$`] the text before it, [$'] the text
    after it, [$n] and [$nn] the captures when the expression has that
    many groups; any other dollar sign stands for itself. *)
Fixpoint substitute (repl : string) (m : nat)
    (matched before after : string) (c : caps) : string :=
  match repl with
  | EmptyString => EmptyString
  | String a rest =>
      if Ascii.eqb a "$"%char then
        match rest with
        | String b rest' =>
            if Ascii.eqb b "$"%char then
              String "$"%char (substitute rest' m matched before after c)
            else if Ascii.eqb b "&"%char then
              matched +:+ substitute rest' m matched before after c
            else if Ascii.eqb b "`"%char then
              before +:+ substitute rest' m matched before after c
            else if Ascii.eqb b Str.squote then
              after +:+ substitute rest' m matched before after c
            else
              match digit_value b with
              | Some d1 =>
                  let two :=
                    match rest' with
                    | String b2 rest'' =>
                        match digit_value b2 with
                        | Some d2 =>
                            let n := 10 * d1 + d2 in
                            if Nat.leb 1 n && Nat.leb n m
                            then Some (captured n c +:+
                                       substitute rest'' m matched before after c)
                            else None
                        | None => None
                        end
                    | EmptyString => None
                    end in
                  match two with
                  | Some out => out
                  | None =>
                      if Nat.leb 1 d1 && Nat.leb d1 m
                      then captured d1 c +:+ substitute rest' m matched before after c
                      else String a (substitute rest m matched before after c)
                  end
              | None => String a (substitute rest m matched before after c)
              end
        | EmptyString => String a EmptyString
        end
      else String a (substitute rest m matched before after c)
  end.

(** [s.replace(/r/g, repl)], scanning from the left. [before] is the
    text already scanned, reversed; [skip] counts the characters of the
    current match that are still to be passed over. After a match that
    reads nothing the scan moves one character on. *)
Fixpoint replace_from (r : re) (repl : string) (before : string) (skip : nat)
    (s : string) : string :=
  match skip with
  | S skip' =>
      match s with
      | String a s' => replace_from r repl (String a before) skip' s'
      | EmptyString => EmptyString
      end
  | 0 =>
      match exec r s with
      | Some (rest, c) =>
          let len := String.length s - String.length rest in
          let out := substitute repl (groups r) (take len s)
                       (Str.rev before) rest c in
          match s with
          | String a s' =>
              match len with
              | 0 => out +:+ String a (replace_from r repl (String a before) 0 s')
              | S len' => out +:+ replace_from r repl (String a before) len' s'
              end
          | EmptyString => out
          end
      | None =>
          match s with
          | String a s' => String a (replace_from r repl (String a before) 0 s')
          | EmptyString => EmptyString
          end
      end
  end.

Definition replace_all (r : re) (repl : string) (s : string) : string :=
  replace_from r repl EmptyString 0 s.

(** [s.replace(pattern, repl)] with a string pattern: the first
    occurrence only. *)
Fixpoint replace_first_from (pattern repl : string) (before : string)
    (s : string) : string :=
  match strip pattern s with
  | Some rest => substitute repl 0 pattern (Str.rev before) rest [] +:+ rest
  | None =>
      match s with
      | String a s' => String a (replace_first_from pattern repl (String a before) s')
      | EmptyString => EmptyString
      end
  end.

Definition replace_first (pattern repl s : string) : string :=
  replace_first_from pattern repl EmptyString s.

End Regex.

(** ** The manifest patcher *)

Module Patcher.
Import Regex.

(** [/ports:\s*\n\s*-\s*[quote]?\d+:PORT[quote]?/g], where [quote] is
    the class of the two quote characters. *)
Definition portsBlock (port : string) : re :=
  seqs [ Lit "ports:"; Star ws; newline; Star ws; Lit "-"; Star ws;
         Opt quote; Plus digit; Lit (":" +:+ port); Opt quote ].

(** [/[quote]?\d+:PORT[quote]?/g]. *)
Definition binding (port : string) : re :=
  seqs [ Opt quote; Plus digit; Lit (":" +:+ port); Opt quote ].

(** The replacement text [quote ${NAME:-PORT}:PORT quote] of a binding. *)
Definition substituted (name port : string) : string :=
  Str.DQ +:+ "${" +:+ name +:+ ":-" +:+ port +:+ "}:" +:+ port +:+ Str.DQ.

(** The replacement text of a [ports:] block: the key, a line break,
    six spaces, a dash, a space and the substituted binding. *)
Definition substitutedBlock (name port : string) : string :=
  "ports:" +:+ Str.NL +:+ "      - " +:+ substituted name port.

(** [fixPortMappings(composeContent)]. *)
Definition fixPortMappings (composeContent : string) : string :=
  let fixed := composeContent in
  let fixed := replace_all (portsBlock "3000") (substitutedBlock "ENVOY_PORT" "3000") fixed in
  let fixed := replace_all (portsBlock "4000") (substitutedBlock "CORE_PORT" "4000") fixed in
  let fixed := replace_all (portsBlock "5050") (substitutedBlock "OBSERVER_PORT" "5050") fixed in
  let fixed := replace_all (portsBlock "8123") (substitutedBlock "CLICKHOUSE_PORT_2" "8123") fixed in
  let fixed := replace_all (portsBlock "8443") (substitutedBlock "CLICKHOUSE_PORT_3" "8443") fixed in
  let fixed := replace_all (portsBlock "9000") (substitutedBlock "CLICKHOUSE_PORT" "9000") fixed in
  let fixed := replace_all (binding "3000") (substituted "ENVOY_PORT" "3000") fixed in
  let fixed := replace_all (binding "4000") (substituted "CORE_PORT" "4000") fixed in
  let fixed := replace_all (binding "5050") (substituted "OBSERVER_PORT" "5050") fixed in
  let fixed := replace_all (binding "8123") (substituted "CLICKHOUSE_PORT_2" "8123") fixed in
  let fixed := replace_all (binding "8443") (substituted "CLICKHOUSE_PORT_3" "8443") fixed in
  let fixed := replace_all (binding "9000") (substituted "CLICKHOUSE_PORT" "9000") fixed in
  fixed.

(** [/networks:\s*\n\s*ar-io-network:\s*\n\s*external:\s*true/g]. *)
Definition externalNetwork : re :=
  seqs [ Lit "networks:"; Star ws; newline; Star ws; Lit "ar-io-network:";
         Star ws; newline; Star ws; Lit "external:"; Star ws; Lit "true" ].

(** The mount line that is removed, with its six leading spaces. *)
Definition prometheusMount : string :=
  "      - ./prometheus.yml:/etc/prometheus/prometheus.yml".

(** [/\s*volumes:\s*\n(\s*\n)+/g]. *)
Definition emptyVolumes : re :=
  seqs [ Star ws; Lit "volumes:"; Star ws; newline;
         Plus (Grp 1 (seqs [Star ws; newline])) ].

(** [/\s*volumes:\s*\n G1 G2/g], where the group [G1] is [\s*] in
    parentheses and the group [G2] is [[a-zA-Z]] in parentheses. *)
Definition volumesBeforeSection : re :=
  seqs [ Star ws; Lit "volumes:"; Star ws; newline;
         Grp 1 (Star ws); Grp 2 letter ].

(** The rewriting of [docker-compose.grafana.yaml] in [POST /deploy]:
    the port mappings, the network flag, the mount line and the two
    clean-ups of [volumes:] sections. *)
Definition fixGrafanaCompose (grafanaCompose : string) : string :=
  let grafanaCompose := fixPortMappings grafanaCompose in
  let grafanaCompose :=
    replace_all externalNetwork ("networks:" +:+ Str.NL +:+ "  ar-io-network:")
      grafanaCompose in
  let grafanaCompose := replace_first prometheusMount "" grafanaCompose in
  let grafanaCompose := replace_all emptyVolumes Str.NL grafanaCompose in
  let grafanaCompose :=
    replace_all volumesBeforeSection (Str.NL +:+ "$1$2") grafanaCompose in
  grafanaCompose.

(** [/ports:\s*\n\s*-\s*[quote]?\d+:3001[quote]?/g] and
    [/[quote]?\d+:3001[quote]?/g] with the replacement built from
    [config.dashboardConfig.DASHBOARD_PORT]. *)
Definition fixDashboardCompose (dashboardPort : option jsval)
    (dashboardCompose : string) : string :=
  let bound :=
    Str.DQ +:+ "${DASHBOARD_PORT:-" +:+ template dashboardPort +:+ "}:3001" +:+ Str.DQ in
  let dashboardCompose := fixPortMappings dashboardCompose in
  let dashboardCompose :=
    replace_all (portsBlock "3001") ("ports:" +:+ Str.NL +:+ "      - " +:+ bound)
      dashboardCompose in
  let dashboardCompose := replace_all (binding "3001") bound dashboardCompose in
  dashboardCompose.

End Patcher.

(** ** The server: state, environment and programs *)

Module Server.

Definition pid := nat.

(** What the two kinds of child process that stay alive after their
    request carry in the closures of their event handlers: the child of
    [POST /deploy] carries the configuration and [composeArgs], the
    child of [POST /cancel] nothing. *)
Inductive Child :=
| DeployChild (config : Config) (composeArgs : list string)
| StopChild.

(** The calls the server makes on the outside world, in order. *)
Inductive Action :=
| AFetch (url : string)
| AWriteFile (path content : string)
| AUnlink (path : string)
| AMkdir (path : string)
| ARun (cmd : string) (args : list string)
| AExec (cmd : string) (cwd : option string)
| ASpawn (p : pid) (cmd : string) (args : list string) (cwd : string)
| AKill (p : pid) (signal : string).

(** The module-level variables [deploymentLogs],
    [currentDeploymentProcess] and [deploymentCancelled], the live
    children with their closures, and the calls made so far. *)
Record State := {
  deploymentLogs : list string;
  currentDeploymentProcess : option pid;
  deploymentCancelled : bool;
  children : list (pid * Child);
  history : list Action
}.

Definition initial : State :=
  {| deploymentLogs := []; currentDeploymentProcess := None;
     deploymentCancelled := false; children := []; history := [] |}.

Record FetchResponse := {
  ok : bool;
  status : nat;
  text : string
}.

(** The outside world. Every answer may depend on the calls made so
    far; nothing is assumed about how the answers relate to each other.
    A rejected promise or a thrown exception is an error message. *)
Record Env := {
  (** [new Date().toISOString()] at the n-th line of the log *)
  now : nat -> string;
  (** [fetch(url)] and [response.text()] *)
  fetch : list Action -> string -> result FetchResponse;
  (** [fs.access(path)] *)
  fsAccess : list Action -> string -> option string;
  (** [fs.readFile(path, 'utf8')] *)
  fsReadFile : list Action -> string -> result string;
  (** [fs.writeFile(path, content, 'utf8')] *)
  fsWriteFile : list Action -> string -> string -> option string;
  (** [fs.unlink(path)] *)
  fsUnlink : list Action -> string -> option string;
  (** [fs.mkdir(path, { recursive: true })] *)
  fsMkdir : list Action -> string -> option string;
  (** a child awaited until its [close] event: the exit code ([None]
      is [null]) and the output collected by the data handlers *)
  runToClose : list Action -> string -> list string -> option nat * string;
  (** [execPromise(cmd)] *)
  execCmd : list Action -> string -> option string;
  (** [child.kill(signal)] *)
  killChild : list Action -> pid -> string -> option string;
  (** [arweave.wallets.jwkToAddress(JSON.parse(wallet))] *)
  jwkToAddress : option jsval -> result string;
  (** the name of the first tag in the parsed list of tags:
      [Err] when [JSON.parse] or the property reads throw, [Ok None]
      when there is no usable first name *)
  firstTagName : string -> result (option string)
}.

(** The primitive commands of a handler, indexed by what they return.
    A command that can fail returns a [result]. *)
Inductive Cmd : Type -> Type :=
| AppendLog (msg : string) : Cmd unit
| SetCancelled (b : bool) : Cmd unit
| GetCancelled : Cmd bool
| SetCurrent (p : option pid) : Cmd unit
| GetCurrent : Cmd (option pid)
| Spawn (child : Child) (cmd : string) (args : list string) (cwd : string) : Cmd pid
| Kill (p : pid) (signal : string) : Cmd (result unit)
| Fetch (url : string) : Cmd (result FetchResponse)
| Access (path : string) : Cmd (result unit)
| ReadFile (path : string) : Cmd (result string)
| WriteFile (path content : string) : Cmd (result unit)
| Unlink (path : string) : Cmd (result unit)
| Mkdir (path : string) : Cmd (result unit)
| RunToClose (cmd : string) (args : list string) : Cmd (option nat * string)
| Exec (cmd : string) (cwd : option string) : Cmd (result unit)
| JwkToAddress (wallet : option jsval) : Cmd (result string)
| FirstTagName (tagsText : string) : Cmd (result (option string))
| Sleep (ms : nat) : Cmd unit.

(** A handler is a tree of commands that ends in a value or in a thrown
    exception. *)
Inductive Prog (A : Type) : Type :=
| Ret (a : A)
| Throw (msg : string)
| Vis {X : Type} (c : Cmd X) (k : X -> Prog A).
Arguments Ret {A} a.
Arguments Throw {A} msg.
Arguments Vis {A X} c k.

Fixpoint bind {A B : Type} (p : Prog A) (f : A -> Prog B) : Prog B :=
  match p with
  | Ret a => f a
  | Throw msg => Throw msg
  | Vis c k => Vis c (fun x => bind (k x) f)
  end.

(** [try { p } catch (err) { handler(err.message) }]. *)
Fixpoint try_catch {A : Type} (p : Prog A) (handler : string -> Prog A) : Prog A :=
  match p with
  | Ret a => Ret a
  | Throw msg => handler msg
  | Vis c k => Vis c (fun x => try_catch (k x) handler)
  end.

Declare Scope prog_scope.
Delimit Scope prog_scope with prog.
Notation "x ← y ; z" := (bind y (fun x => z))
  (at level 20, y at level 100, z at level 200, only parsing) : prog_scope.
Notation "y ;; z" := (bind y (fun _ => z))
  (at level 100, z at level 200, right associativity, only parsing) : prog_scope.
Open Scope prog_scope.

(** A command that cannot fail. *)
Definition call {X : Type} (c : Cmd X) : Prog X := Vis c Ret.

(** A command whose failure is thrown. *)
Definition attempt {X : Type} (c : Cmd (result X)) : Prog X :=
  Vis c (fun r => match r with Ok x => Ret x | Err msg => Throw msg end).

Definition when (c : bool) (p : Prog unit) : Prog unit :=
  if c then p else Ret tt.

Definition liftResult {A : Type} (r : result A) : Prog A :=
  match r with Ok a => Ret a | Err msg => Throw msg end.

(** [const line = `[${timestamp}] ${msg}`; deploymentLogs.push(line)]. *)
Definition logLine (env : Env) (st : State) (msg : string) : string :=
  "[" +:+ now env (length (deploymentLogs st)) +:+ "] " +:+ msg.

Definition record (a : Action) (st : State) : State :=
  {| deploymentLogs := deploymentLogs st;
     currentDeploymentProcess := currentDeploymentProcess st;
     deploymentCancelled := deploymentCancelled st;
     children := children st;
     history := history st ++ [a] |}.

Definition outcome (failure : option string) : result unit :=
  match failure with
  | None => Ok tt
  | Some msg => Err msg
  end.

(** One command against the state and the outside world. *)
Definition perform (env : Env) {X : Type} (c : Cmd X) (st : State) : State * X :=
  match c in Cmd X return State * X with
  | AppendLog msg =>
      ({| deploymentLogs := deploymentLogs st ++ [logLine env st msg];
          currentDeploymentProcess := currentDeploymentProcess st;
          deploymentCancelled := deploymentCancelled st;
          children := children st;
          history := history st |}, tt)
  | SetCancelled b =>
      ({| deploymentLogs := deploymentLogs st;
          currentDeploymentProcess := currentDeploymentProcess st;
          deploymentCancelled := b;
          children := children st;
          history := history st |}, tt)
  | GetCancelled => (st, deploymentCancelled st)
  | SetCurrent p =>
      ({| deploymentLogs := deploymentLogs st;
          currentDeploymentProcess := p;
          deploymentCancelled := deploymentCancelled st;
          children := children st;
          history := history st |}, tt)
  | GetCurrent => (st, currentDeploymentProcess st)
  | Spawn child cmd args cwd =>
      let p := length (children st) in
      ({| deploymentLogs := deploymentLogs st;
          currentDeploymentProcess := currentDeploymentProcess st;
          deploymentCancelled := deploymentCancelled st;
          children := children st ++ [(p, child)];
          history := history st ++ [ASpawn p cmd args cwd] |}, p)
  | Kill p signal =>
      (record (AKill p signal) st, outcome (killChild env (history st) p signal))
  | Fetch url => (record (AFetch url) st, fetch env (history st) url)
  | Access path => (st, outcome (fsAccess env (history st) path))
  | ReadFile path => (st, fsReadFile env (history st) path)
  | WriteFile path content =>
      (record (AWriteFile path content) st,
       outcome (fsWriteFile env (history st) path content))
  | Unlink path => (record (AUnlink path) st, outcome (fsUnlink env (history st) path))
  | Mkdir path => (record (AMkdir path) st, outcome (fsMkdir env (history st) path))
  | RunToClose cmd args =>
      (record (ARun cmd args) st, runToClose env (history st) cmd args)
  | Exec cmd cwd => (record (AExec cmd cwd) st, outcome (execCmd env (history st) cmd))
  | JwkToAddress wallet => (st, jwkToAddress env wallet)
  | FirstTagName tagsText => (st, firstTagName env tagsText)
  | Sleep _ => (st, tt)
  end.

(** A handler run to its end while no other handler runs. *)
Fixpoint interp (env : Env) {A : Type} (p : Prog A) (st : State) : State * result A :=
  match p with
  | Ret a => (st, Ok a)
  | Throw msg => (st, Err msg)
  | Vis c k => let (st', x) := perform env c st in interp env (k x) st'
  end.

(** The commands that the handlers [await]: the handler is suspended
    until the command has completed, and the handlers of other events
    run meanwhile. The other commands are synchronous. *)
Definition suspends {X : Type} (c : Cmd X) : bool :=
  match c with
  | Fetch _ | Access _ | ReadFile _ | WriteFile _ _ | Unlink _ | Mkdir _
  | RunToClose _ _ | Exec _ _ | JwkToAddress _ | Sleep _ => true
  | _ => false
  end.

(** A handler run to its end while other handlers run at its
    suspensions: [between] holds, for each suspension in turn, what the
    other handlers do to the state before the handler is resumed; when
    the list is used up, nothing more happens in between. *)
Fixpoint drive (env : Env) {A : Type} (p : Prog A) (between : list (State -> State))
    (st : State) : State * result A :=
  match p with
  | Ret a => (st, Ok a)
  | Throw msg => (st, Err msg)
  | Vis c k =>
      let (st', x) := perform env c st in
      if suspends c then
        match between with
        | f :: later => drive env (k x) later (f st')
        | [] => drive env (k x) [] st'
        end
      else drive env (k x) between st'
  end.

(** ** The handlers *)

Definition appendLog (msg : string) : Prog unit := call (AppendLog msg).

Definition deployDir : string := "/tmp/ar-io-node".

Definition show_nat (n : nat) : string := NilZero.string_of_uint (Nat.to_uint n).

(** [`${code}`] for an exit code. *)
Definition show_code (code : option nat) : string :=
  match code with
  | Some n => show_nat n
  | None => "null"
  end.

Definition exited_zero (code : option nat) : bool :=
  match code with
  | Some 0 => true
  | _ => false
  end.

(** [fs.access(path).then(() => true).catch(() => false)]. *)
Definition pathExists (path : string) : Prog bool :=
  try_catch (attempt (Access path) ;; Ret true) (fun _ => Ret false).

(** [v || ''] as a value. *)
Definition orEmpty (v : option jsval) : jsval :=
  match js_or v (Some (JStr "")) with
  | Some x => x
  | None => JStr ""
  end.

(** [`${v || fallback}`]. *)
Definition orElse (v : option jsval) (fallback : string) : string :=
  template (js_or v (Some (JStr fallback))).

(** [config.dashboardConfig[key] = v]. *)
Definition setDashboard (config : Config) (key : string) (v : jsval) : Config :=
  {| nodeConfig := nodeConfig config;
     dashboardConfig := <[key := v]> (dashboardConfig config);
     dockerConfig := dockerConfig config |}.

(** The derivation of the bundler address before the environment file
    is built. *)
Definition preDeriveBundlerAddress (config : Config) : Prog Config :=
  let dash := dashboardConfig config in
  if truthy (dockerConfig config !! "enableBundler")
     && truthy (dash !! "BUNDLER_ARWEAVE_WALLET")
  then
    let bundlerAddress := orEmpty (dash !! "BUNDLER_ARWEAVE_ADDRESS") in
    bundlerAddress ←
      (if truthy (dash !! "BUNDLER_ARWEAVE_WALLET") then
         try_catch
           (derivedAddress ← attempt (JwkToAddress (dash !! "BUNDLER_ARWEAVE_WALLET"));
            if negb (Str.is_empty derivedAddress) then
              (appendLog ("✅ Pre-derived bundler address: " +:+ derivedAddress) ;;
               Ret (JStr derivedAddress))
            else Ret bundlerAddress)
           (fun msg =>
              appendLog ("⚠️ Pre-derivation failed: " +:+ msg) ;;
              Ret bundlerAddress)
       else Ret bundlerAddress);
    Ret (setDashboard config "BUNDLER_ARWEAVE_ADDRESS" (orEmpty (Some bundlerAddress)))
  else Ret config.

(** The latest tag of the upstream repository, or [develop]. *)
Definition resolveLatestTag : Prog string :=
  appendLog "Fetching latest AR.IO node version..." ;;
  tagsResponse ← attempt (Fetch "https://api.github.com/repos/ar-io/ar-io-node/tags");
  let tagsText := text tagsResponse in
  latestTag ←
    try_catch
      (name ← attempt (FirstTagName tagsText);
       Ret (match name with Some n => n | None => "develop" end))
      (fun msg =>
         appendLog ("Error parsing tags JSON: " +:+ msg +:+ ", falling back to 'develop'") ;;
         Ret "develop");
  appendLog ("Using tag: " +:+ latestTag) ;;
  Ret latestTag.

Definition updateCommand (latestTag : string) : list string :=
  [ "-c";
    "cd " +:+ Str.DQ +:+ deployDir +:+ Str.DQ +:+
    " && git fetch --tags && git reset --hard && git checkout " +:+ latestTag +:+
    " && git pull origin " +:+ latestTag ].

Definition cloneCommand (latestTag : string) : list string :=
  [ "clone"; "--branch"; latestTag; "--depth"; "1";
    "https://github.com/ar-io/ar-io-node.git"; deployDir ].

(** The update of the working copy in place. The promise that waits
    for the child resolves whatever the exit code. *)
Definition updateRepository (latestTag : string) : Prog unit :=
  appendLog ("Repository exists, updating to latest version (" +:+ latestTag +:+ ")...") ;;
  closed ← call (RunToClose "bash" (updateCommand latestTag));
  let (code, output) := closed : option nat * string in
  if exited_zero code then appendLog "Repository updated successfully"
  else
    (appendLog ("Git update failed with code " +:+ show_code code +:+ ": " +:+ output) ;;
     appendLog "Falling back to fresh clone...").

(** The clone. The promise that waits for the child rejects when the
    exit code is not zero. *)
Definition cloneRepository (latestTag : string) : Prog unit :=
  appendLog ("Cloning AR.IO node repository (" +:+ latestTag +:+ ")...") ;;
  closed ← call (RunToClose "git" (cloneCommand latestTag));
  let (code, output) := closed : option nat * string in
  if exited_zero code then appendLog "Repository cloned successfully"
  else
    (appendLog ("Git clone failed with code " +:+ show_code code +:+ ": " +:+ output) ;;
     Throw ("Git clone failed: " +:+ output)).

(** The working copy: updated when it exists, cloned when it does not
    exist before or after the update. *)
Definition provisionRepository (latestTag : string) : Prog unit :=
  repoExists ← pathExists deployDir;
  when repoExists (updateRepository latestTag) ;;
  stillThere ← pathExists deployDir;
  let stillNeedsClone := negb stillThere in
  when (stillNeedsClone || negb repoExists) (cloneRepository latestTag).

Definition dashboardEnvLines (config : Config) : list string :=
  let dash := dashboardConfig config in
  [ "ADMIN_USERNAME=" +:+ template (dash !! "ADMIN_USERNAME");
    "ADMIN_PASSWORD=" +:+ template (dash !! "ADMIN_PASSWORD");
    "NEXTAUTH_SECRET=" +:+ orElse (dash !! "NEXTAUTH_SECRET") "your-admin-api-key";
    "NEXTAUTH_URL=" +:+
      orElse (dash !! "NEXTAUTH_URL")
        ("http://localhost:" +:+ template (dash !! "DASHBOARD_PORT"));
    "AR_IO_NODE_PATH=" +:+ orElse (dash !! "AR_IO_NODE_PATH") deployDir;
    "DOCKER_PROJECT=" +:+ orElse (dash !! "DOCKER_PROJECT") "ar-io-node";
    "NEXT_PUBLIC_GRAFANA_URL=" +:+
      orElse (dash !! "NEXT_PUBLIC_GRAFANA_URL")
        ("http://localhost:" +:+ template (dash !! "GRAFANA_PORT"));
    "ADMIN_API_KEY=" +:+ template (nodeConfig config !! "ADMIN_API_KEY") ].

Definition download (url path name : string) : Prog unit :=
  response ← attempt (Fetch url);
  if ok response then
    (attempt (WriteFile path (text response)) ;;
     appendLog ("✅ Downloaded " +:+ name))
  else
    appendLog ("⚠️ Failed to download " +:+ name +:+ ": " +:+ show_nat (status response)).

(** The files of the admin dashboard, fetched when it is enabled. *)
Definition fetchDashboardFiles (config : Config) : Prog unit :=
  when (truthy (dockerConfig config !! "enableDashboard"))
    (appendLog "Admin dashboard enabled - fetching dashboard files..." ;;
     try_catch
       (download
          "https://raw.githubusercontent.com/Aluisyo/ar.io_admin_dashboard/main/.env.dashboard.example"
          (deployDir +:+ "/.env.dashboard.example") ".env.dashboard.example" ;;
        download
          "https://raw.githubusercontent.com/Aluisyo/ar.io_admin_dashboard/main/docker-compose.dashboard.yml"
          (deployDir +:+ "/docker-compose.dashboard.yml") "docker-compose.dashboard.yml" ;;
        attempt (WriteFile (deployDir +:+ "/.env.dashboard")
                   (Str.join_nl (dashboardEnvLines config))) ;;
        appendLog "✅ Created .env.dashboard with user configuration")
       (fun msg => appendLog ("⚠️ Error fetching admin dashboard files: " +:+ msg))).

(** [content = await fs.readFile(path); content = f(content);
     await fs.writeFile(path, content)]. *)
Definition patchFile (path : string) (f : string -> string) : Prog unit :=
  content ← attempt (ReadFile path);
  attempt (WriteFile path (f content)).

(** The patching of the manifest fragments; the result is
    [composeFiles] before the override fragment is added. *)
Definition patchComposeFiles (config : Config) : Prog (list string) :=
  let docker := dockerConfig config in
  let composeFiles := ["docker-compose.yaml"] in
  appendLog "Fixing port mappings in docker-compose.yaml" ;;
  patchFile (deployDir +:+ "/docker-compose.yaml") Patcher.fixPortMappings ;;
  appendLog "docker-compose.yaml updated with fixed port mappings" ;;
  composeFiles ←
    (if truthy (docker !! "enableAoCu") then
       (appendLog "Fixing port mappings in docker-compose.ao.yaml" ;;
        patchFile (deployDir +:+ "/docker-compose.ao.yaml") Patcher.fixPortMappings ;;
        appendLog "docker-compose.ao.yaml updated with port mappings" ;;
        Ret (composeFiles ++ ["docker-compose.ao.yaml"])%list)
     else Ret composeFiles);
  composeFiles ←
    (if truthy (docker !! "enableBundler") then
       (appendLog "Fixing port mappings in docker-compose.bundler.yaml" ;;
        patchFile (deployDir +:+ "/docker-compose.bundler.yaml") Patcher.fixPortMappings ;;
        appendLog "docker-compose.bundler.yaml updated with port mappings" ;;
        Ret (composeFiles ++ ["docker-compose.bundler.yaml"])%list)
     else Ret composeFiles);
  composeFiles ←
    (if truthy (docker !! "enableGrafana") then
       (let grafanaComposePath := deployDir +:+ "/docker-compose.grafana.yaml" in
        present ← pathExists grafanaComposePath;
        when present
          (patchFile grafanaComposePath Patcher.fixGrafanaCompose ;;
           appendLog "Fixed Grafana compose file: port mappings, network config, and removed problematic prometheus.yml mount") ;;
        Ret (composeFiles ++ ["docker-compose.grafana.yaml"])%list)
     else Ret composeFiles);
  composeFiles ←
    (if truthy (docker !! "enableDashboard") then
       (let dashboardComposePath := deployDir +:+ "/docker-compose.dashboard.yml" in
        present ← pathExists dashboardComposePath;
        if present then
          (patchFile dashboardComposePath
             (Patcher.fixDashboardCompose (dashboardConfig config !! "DASHBOARD_PORT")) ;;
           appendLog "Fixed dashboard compose file: port mappings updated" ;;
           Ret (composeFiles ++ ["docker-compose.dashboard.yml"])%list)
        else
          (appendLog "⚠️ Dashboard compose file not found, dashboard may not be deployed" ;;
           Ret composeFiles))
     else Ret composeFiles);
  when (truthy (docker !! "enableClickhouse"))
    (appendLog "ClickHouse configuration files available in cloned repository") ;;
  appendLog "Using original AR.IO repository docker-compose configuration" ;;
  appendLog ".env example files available in cloned repository" ;;
  Ret composeFiles.

(** The environment file: any old one is removed, the new one written. *)
Definition writeEnvFile (envContent : string) : Prog unit :=
  try_catch
    (attempt (Unlink (deployDir +:+ "/.env")) ;;
     appendLog "Removed existing .env file")
    (fun _ => appendLog "No existing .env file to remove") ;;
  attempt (WriteFile (deployDir +:+ "/.env") envContent) ;;
  appendLog ".env file regenerated with current configuration".

(** [fs.writeFile(path, data, 'utf8')] with a value of the
    configuration as data: a string is written, anything else is
    refused with a [TypeError]. *)
Definition invalidData (received : string) : string :=
  "The " +:+ Str.DQ +:+ "data" +:+ Str.DQ +:+
  " argument must be of type string or an instance of Buffer, TypedArray, or DataView. Received "
  +:+ received.

Definition writeValue (path : string) (data : option jsval) : Prog unit :=
  match data with
  | Some (JStr content) => attempt (WriteFile path content)
  | Some (JBool b) => Throw (invalidData ("type boolean (" +:+ template data +:+ ")"))
  | Some JNull => Throw (invalidData "null")
  | None => Throw (invalidData "undefined")
  end.

Definition coreDataDirectories : list string :=
  [ deployDir +:+ "/data/sqlite";
    deployDir +:+ "/data/lmdb";
    deployDir +:+ "/data/chunks";
    deployDir +:+ "/data/contiguous";
    deployDir +:+ "/data/headers";
    deployDir +:+ "/data/tmp";
    deployDir +:+ "/data/reports";
    deployDir +:+ "/wallets" ].

(** [for (const dir of dirs) await fs.mkdir(dir, { recursive: true })]. *)
Fixpoint mkdirs (dirs : list string) : Prog unit :=
  match dirs with
  | [] => Ret tt
  | dir :: dirs' => attempt (Mkdir dir) ;; mkdirs dirs'
  end.

Definition prometheusConfig : string :=
"global:
  scrape_interval: 15s # 5 minute scrape interval
  evaluation_interval: 1m # Evaluate rules every 1 minute.

scrape_configs:
  - job_name: 'prometheus' # Scrape configuration for Prometheus itself
    static_configs:
      - targets: ['prometheus:9090']

  - job_name: 'node_exporter' # Scrape server stats
    static_configs:
      - targets: ['node-exporter:9100']

  - job_name: 'ar-io-node' # Scrape our node
    metrics_path: '/ar-io/__gateway_metrics'
    static_configs:
      - targets: ['envoy:3000']

  - job_name: 'ao-cu' # Scrape our compute unit
    metrics_path: '/ao/cu/metrics'
    static_configs:
      - targets: ['envoy:3000']
".

Definition overrideYaml (config : Config) : string :=
  "# Docker Compose override to fix network configuration
networks:
  ar-io-network:
    name: ${DOCKER_NETWORK_NAME:-ar-io-network}
    external: false
" +:+
  (if truthy (dockerConfig config !! "enableGrafana") then
     "
services:
  grafana:
    user: " +:+ Str.DQ +:+ "0:0" +:+ Str.DQ +:+ "  # Run as root to fix /var/lib/grafana permissions
"
   else "").

(** The observer wallet, the data directories, the Prometheus
    configuration and the override fragment; the result is the final
    [composeFiles]. *)
Definition writeSupportFiles (config : Config) (composeFiles : list string) :
    Prog (list string) :=
  let node := nodeConfig config in
  let docker := dockerConfig config in
  let dash := dashboardConfig config in
  when (truthy (node !! "OBSERVER_JWK") && truthy (node !! "OBSERVER_WALLET"))
    (let walletsDir := deployDir +:+ "/wallets" in
     attempt (Mkdir walletsDir) ;;
     let walletFileName := template (node !! "OBSERVER_WALLET") +:+ ".json" in
     let walletFilePath := walletsDir +:+ "/" +:+ walletFileName in
     writeValue walletFilePath (node !! "OBSERVER_JWK") ;;
     appendLog ("✅ Observer wallet created: " +:+ walletFileName)) ;;
  when (truthy (docker !! "enableGrafana"))
    (attempt (Mkdir (deployDir +:+ "/data/grafana")) ;;
     appendLog "Ensured Grafana data directory exists") ;;
  mkdirs coreDataDirectories ;;
  appendLog "Ensured AR.IO core data directories exist" ;;
  when (truthy (docker !! "enableGrafana"))
    (attempt (WriteFile (deployDir +:+ "/prometheus.yml") prometheusConfig) ;;
     appendLog "Created Prometheus configuration with AR.IO node metrics scraping") ;;
  attempt (WriteFile (deployDir +:+ "/docker-compose.override.yaml") (overrideYaml config)) ;;
  appendLog "Created docker-compose.override.yaml with network configuration" ;;
  let composeFiles := (composeFiles ++ ["docker-compose.override.yaml"])%list in
  appendLog "Added docker-compose.override.yaml as LAST compose file for precedence" ;;
  when (truthy (dash !! "ENABLE_ENVOY"))
    (appendLog ("Gateway accessible at: http://localhost:" +:+ template (dash !! "ENVOY_PORT"))) ;;
  appendLog ("Core API accessible at: http://localhost:" +:+ template (node !! "CORE_PORT")) ;;
  when (truthy (docker !! "enableDashboard"))
    (appendLog ("Admin Dashboard will be accessible at: http://localhost:" +:+
                template (dash !! "DASHBOARD_PORT"))) ;;
  Ret composeFiles.

(** [.env.ao]: four fixed lines, then the lines of
    [ADDITIONAL_AO_CU_ENV]. *)
Definition aoLines (dd : obj) : result (list string) :=
  let aoLines :=
    [ "CU_WALLET=" +:+ template (dd !! "CU_WALLET");
      "PROCESS_CHECKPOINT_TRUSTED_OWNERS=" +:+
        template (dd !! "PROCESS_CHECKPOINT_TRUSTED_OWNERS");
      "GATEWAY_URL=" +:+ template (dd !! "GATEWAY_URL");
      "UPLOADER_URL=" +:+ template (dd !! "UPLOADER_URL") ] in
  if truthy (dd !! "ADDITIONAL_AO_CU_ENV") then
    match dd !! "ADDITIONAL_AO_CU_ENV" with
    | Some (JStr extra) => Ok (aoLines ++ Str.split_nl extra)
    | _ => Err "dd.ADDITIONAL_AO_CU_ENV.split is not a function"
    end
  else Ok aoLines.

Definition awsKeys : list string :=
  [ "AWS_S3_CONTIGUOUS_DATA_BUCKET"; "AWS_S3_CONTIGUOUS_DATA_PREFIX";
    "AWS_ACCESS_KEY_ID"; "AWS_SECRET_ACCESS_KEY"; "AWS_REGION"; "AWS_ENDPOINT" ].

(** [.env.bundler]: five fixed lines, then
    [awsKeys.forEach(key => { if (dd[key]) bundlerLines.push(`${key}=${dd[key]}`) })]. *)
Definition bundlerLines (dd : obj) (bundlerAddress : jsval) : list string :=
  let bundlerLines :=
    [ "BUNDLER_ARWEAVE_WALLET=" +:+ template (dd !! "BUNDLER_ARWEAVE_WALLET");
      "BUNDLER_ARWEAVE_ADDRESS=" +:+ template (Some bundlerAddress);
      "APP_NAME=" +:+ template (dd !! "APP_NAME");
      "ANS104_INDEX_FILTER=" +:+ template (dd !! "ANS104_INDEX_FILTER");
      "ANS104_UNBUNDLE_FILTER=" +:+ template (dd !! "ANS104_UNBUNDLE_FILTER") ] in
  fold_left
    (fun bundlerLines key =>
       if truthy (dd !! key)
       then bundlerLines ++ [key +:+ "=" +:+ template (dd !! key)]
       else bundlerLines)
    awsKeys bundlerLines.

(** The bundler address written to [.env.bundler]: derived from the
    wallet when that works, else the configured one, else empty. *)
Definition deriveBundlerAddress (dd : obj) : Prog jsval :=
  let bundlerAddress := orEmpty (dd !! "BUNDLER_ARWEAVE_ADDRESS") in
  bundlerAddress ←
    (if truthy (dd !! "BUNDLER_ARWEAVE_WALLET") then
       try_catch
         (derivedAddress ← attempt (JwkToAddress (dd !! "BUNDLER_ARWEAVE_WALLET"));
          if negb (Str.is_empty derivedAddress) then
            (appendLog ("✅ Derived bundler address from wallet: " +:+ derivedAddress) ;;
             Ret (JStr derivedAddress))
          else
            (appendLog "⚠️ Wallet derivation returned empty address" ;;
             Ret bundlerAddress))
         (fun msg =>
            appendLog ("⚠️ Failed to derive bundler address from wallet: " +:+ msg) ;;
            Ret bundlerAddress)
     else Ret bundlerAddress);
  let bundlerAddress := orEmpty (Some bundlerAddress) in
  appendLog ("📝 Final bundler address: '" +:+ template (Some bundlerAddress) +:+ "'") ;;
  Ret bundlerAddress.

(** The env files of the modules. The bundler branch stores the
    address in the configuration, so the configuration is returned. *)
Definition writeModuleEnvFiles (config : Config) : Prog Config :=
  let docker := dockerConfig config in
  when (truthy (docker !! "enableAoCu"))
    (aoLines ← liftResult (aoLines (dashboardConfig config));
     attempt (WriteFile (deployDir +:+ "/.env.ao") (Str.join_nl aoLines)) ;;
     appendLog ".env.ao written") ;;
  if truthy (docker !! "enableBundler") then
    (bundlerAddress ← deriveBundlerAddress (dashboardConfig config);
     let config := setDashboard config "BUNDLER_ARWEAVE_ADDRESS" bundlerAddress in
     when (negb (truthy (Some bundlerAddress)))
       (appendLog "⚠️ Warning: BUNDLER_ARWEAVE_ADDRESS is empty - this may cause bundler issues") ;;
     attempt (WriteFile (deployDir +:+ "/.env.bundler")
                (Str.join_nl (bundlerLines (dashboardConfig config) bundlerAddress))) ;;
     appendLog ".env.bundler written" ;;
     Ret config)
  else Ret config.

(** The names of the profiles of the advanced services. *)
Definition profiles (config : Config) : list string :=
  (if truthy (dockerConfig config !! "enableClickhouse") then ["clickhouse"] else []) ++
  (if truthy (dockerConfig config !! "enableLitestream") then ["litestream"] else []).

Definition downCommand (config : Config) (composeFiles : list string) : string :=
  let downProfiles := map (fun p => "--profile " +:+ p) (profiles config) in
  "docker compose -p ar-io-node " +:+
  Str.join " " (map (fun f => "-f " +:+ f) composeFiles) +:+ " " +:+
  Str.join " " downProfiles +:+ " down --remove-orphans".

(** The removal of the previous deployment; both steps only log their
    failures. *)
Definition tearDown (config : Config) (composeFiles : list string) : Prog unit :=
  appendLog "Tearing down any existing containers" ;;
  try_catch
    (attempt (Exec (downCommand config composeFiles) (Some deployDir)) ;;
     appendLog "Existing containers removed (data volumes preserved)")
    (fun msg => appendLog ("No existing containers to remove: " +:+ msg)) ;;
  appendLog "Performing selective Docker cleanup..." ;;
  try_catch
    (attempt (Exec ("docker stop $(docker ps -q --filter " +:+ Str.DQ +:+ "name=ar-io-node" +:+
                    Str.DQ +:+ ") 2>/dev/null || true") None) ;;
     appendLog "Stopped any running ar-io-node containers" ;;
     attempt (Exec ("docker rm $(docker ps -aq --filter " +:+ Str.DQ +:+ "name=ar-io-node" +:+
                    Str.DQ +:+ ") 2>/dev/null || true") None) ;;
     appendLog "Removed any ar-io-node containers" ;;
     appendLog "Skipping volume cleanup to preserve data")
    (fun msg => appendLog ("Docker cleanup warning: " +:+ msg)).

(** [composeArgs]: the project, one [-f] per fragment, one [--profile]
    per profile. *)
Definition composeArgs (config : Config) (composeFiles : list string) : list string :=
  ["compose"; "-p"; "ar-io-node"] ++
  flat_map (fun f => ["-f"; f]) composeFiles ++
  flat_map (fun p => ["--profile"; p]) (profiles config).

(** One optional component of the stack: the services it contributes
    and the line logged when they are included. *)
Definition include (flag : option jsval) (services : list string) (msg : string)
    (servicesToStart : list string) : Prog (list string) :=
  if truthy flag then (appendLog msg ;; Ret (servicesToStart ++ services)%list)
  else Ret servicesToStart.

(** The array [servicesToStart], without the log lines. *)
Definition servicesToStart (config : Config) : list string :=
  let node := nodeConfig config in
  let dash := dashboardConfig config in
  let docker := dockerConfig config in
  ["core"; "redis"] ++
  (if truthy (dash !! "ENABLE_ENVOY") then ["envoy"] else []) ++
  (if truthy (node !! "RUN_OBSERVER") then ["observer"] else []) ++
  (if truthy (docker !! "enableAutoheal") then ["autoheal"] else []) ++
  (if truthy (docker !! "enableClickhouse")
   then ["clickhouse"; "clickhouse-auto-import"] else []) ++
  (if truthy (docker !! "enableLitestream") then ["litestream"] else []) ++
  (if truthy (docker !! "enableBundler")
   then ["upload-service"; "fulfillment-service"; "upload-service-pg"; "localstack"]
   else []) ++
  (if truthy (docker !! "enableAoCu") then ["ao-cu"] else []) ++
  (if truthy (docker !! "enableGrafana")
   then ["prometheus"; "grafana"; "node-exporter"] else []) ++
  (if truthy (docker !! "enableDashboard") then ["admin-dashboard"] else []).

(** The statements that build [servicesToStart], with their log lines. *)
Definition selectServices (config : Config) : Prog (list string) :=
  let node := nodeConfig config in
  let dash := dashboardConfig config in
  let docker := dockerConfig config in
  let servicesToStart := ["core"; "redis"] in
  servicesToStart ← include (dash !! "ENABLE_ENVOY") ["envoy"]
    "Including Envoy proxy service" servicesToStart;
  servicesToStart ← include (node !! "RUN_OBSERVER") ["observer"]
    "Including Observer service" servicesToStart;
  servicesToStart ← include (docker !! "enableAutoheal") ["autoheal"]
    "Including Autoheal service" servicesToStart;
  servicesToStart ← include (docker !! "enableClickhouse")
    ["clickhouse"; "clickhouse-auto-import"]
    "Including ClickHouse analytics services" servicesToStart;
  servicesToStart ← include (docker !! "enableLitestream") ["litestream"]
    "Including Litestream SQLite backup service" servicesToStart;
  servicesToStart ← include (docker !! "enableBundler")
    ["upload-service"; "fulfillment-service"; "upload-service-pg"; "localstack"]
    "Including Turbo ANS-104 Bundler services" servicesToStart;
  servicesToStart ← include (docker !! "enableAoCu") ["ao-cu"]
    "Including AO Compute Unit service" servicesToStart;
  servicesToStart ← include (docker !! "enableGrafana")
    ["prometheus"; "grafana"; "node-exporter"]
    "Including Grafana monitoring services" servicesToStart;
  servicesToStart ← include (docker !! "enableDashboard") ["admin-dashboard"]
    "Including Admin Dashboard service" servicesToStart;
  Ret servicesToStart.

Definition allPossibleServices : list string :=
  ["envoy"; "observer"; "autoheal"; "clickhouse"; "clickhouse-auto-import"; "litestream"].

Definition includes (l : list string) (s : string) : bool :=
  existsb (String.eqb s) l.

(** The responses. *)
Inductive Body :=
| BError (error : string)
| BStarted
| BLogs (logs : list string)
| BStatus (running : bool) (raw : string)
| BCancel (status : string) (warning : option string).

Record Response := {
  code : nat;
  body : Body
}.

Definition json (b : Body) : Response := {| code := 200; body := b |}.

(** The arguments of [docker] at the start of the stack. *)
Definition allArgs (config : Config) (composeFiles : list string)
    (servicesToStart : list string) : list string :=
  composeArgs config composeFiles ++ ["up"; "-d"] ++ servicesToStart.

(** The start of the stack: one child, which becomes the tracked
    process; the handler answers without waiting for it. *)
Definition startServices (config : Config) (composeFiles : list string) : Prog Response :=
  let composeArgs := composeArgs config composeFiles in
  when (truthy (dockerConfig config !! "enableClickhouse"))
    (appendLog "Enabling ClickHouse profile") ;;
  when (truthy (dockerConfig config !! "enableLitestream"))
    (appendLog "Enabling Litestream profile") ;;
  appendLog ("Using compose files: " +:+ Str.join ", " composeFiles) ;;
  when (Nat.ltb 0 (length (profiles config)))
    (appendLog ("Using profiles: " +:+ Str.join ", " (profiles config))) ;;
  servicesToStart ← selectServices config;
  appendLog ("Starting all services: " +:+ Str.join ", " servicesToStart) ;;
  cp ← call (Spawn (DeployChild config composeArgs) "docker"
               (allArgs config composeFiles servicesToStart) deployDir);
  call (SetCurrent (Some cp)) ;;
  let notStarted := filter (fun s => includes servicesToStart s = false) allPossibleServices in
  appendLog ("Services NOT started: " +:+
             (if Str.is_empty (Str.join ", " notStarted) then "none"
              else Str.join ", " notStarted)) ;;
  Ret (json BStarted).

(** The body of the [try] block of [POST /deploy]. *)
Definition deployTry (config : Config) : Prog Response :=
  appendLog "Received deployment request" ;;
  call (SetCancelled false) ;;
  config ← preDeriveBundlerAddress config;
  envContent ← liftResult (EnvFile.buildEnvFile config);
  appendLog ("Using deployment directory: " +:+ deployDir) ;;
  appendLog "Repository will be updated if it exists, or cloned if it does not exist" ;;
  latestTag ← resolveLatestTag;
  provisionRepository latestTag ;;
  appendLog "Setting up deployment directory..." ;;
  fetchDashboardFiles config ;;
  composeFiles ← patchComposeFiles config;
  writeEnvFile envContent ;;
  composeFiles ← writeSupportFiles config composeFiles;
  config ← writeModuleEnvFiles config;
  tearDown config composeFiles ;;
  startServices config composeFiles.

(** [app.post('/deploy', ...)]; [None] is a body without [config]. *)
Definition deploy (config : option Config) : Prog Response :=
  match config with
  | None => Ret {| code := 400; body := BError "Missing config" |}
  | Some config =>
      try_catch (deployTry config)
        (fun msg =>
           appendLog ("Deployment error: " +:+ msg) ;;
           Ret {| code := 500; body := BError msg |})
  end.

(** The handlers of the [data] events of the child of [POST /deploy]:
    [if (!deploymentCancelled) appendLog(d.toString().trim())]. *)
Definition onDeployData (d : string) : Prog unit :=
  cancelled ← call GetCancelled;
  when (negb cancelled) (appendLog (Str.trim d)).

(** [`docker compose ${composeArgs.slice(1).join(' ')} restart ${service}`]. *)
Definition restartCommand (composeArgs : list string) (service : string) : string :=
  "docker compose " +:+ Str.join " " (tail composeArgs) +:+ " restart " +:+ service.

(** The fixes after a start that exited with code zero. *)
Definition postDeploymentFixes (config : Config) (composeArgs : list string) : Prog unit :=
  let node := nodeConfig config in
  try_catch
    (call (Sleep 3000) ;;
     when (truthy (node !! "OBSERVER_JWK") && truthy (node !! "OBSERVER_WALLET")
           && truthy (node !! "RUN_OBSERVER"))
       (let walletFileName := template (node !! "OBSERVER_WALLET") +:+ ".json" in
        let hostWalletPath := deployDir +:+ "/wallets/" +:+ walletFileName in
        try_catch
          (attempt (Access hostWalletPath) ;;
           attempt (Exec ("docker cp " +:+ hostWalletPath +:+
                          " ar-io-node-observer-1:/app/wallets/" +:+ walletFileName)
                      (Some deployDir)) ;;
           appendLog ("✅ Copied observer wallet to container: " +:+ walletFileName) ;;
           attempt (Exec (restartCommand composeArgs "observer") (Some deployDir)) ;;
           appendLog "✅ Restarted observer to load wallet file")
          (fun msg => appendLog ("⚠️ Observer wallet fix failed: " +:+ msg))) ;;
     when (truthy (dockerConfig config !! "enableGrafana"))
       (try_catch
          (attempt (Exec ("docker cp " +:+ deployDir +:+
                          "/prometheus.yml ar-io-node-prometheus-1:/etc/prometheus/prometheus.yml")
                      (Some deployDir)) ;;
           appendLog "✅ Copied Prometheus configuration to container" ;;
           attempt (Exec (restartCommand composeArgs "prometheus") (Some deployDir)) ;;
           appendLog "✅ Restarted Prometheus to reload configuration")
          (fun msg => appendLog ("⚠️ Prometheus fix failed: " +:+ msg)) ;;
        try_catch
          (attempt (Exec ("docker cp " +:+ deployDir +:+
                          "/monitoring/grafana/provisioning/datasources ar-io-node-grafana-1:/etc/grafana/provisioning/")
                      (Some deployDir)) ;;
           appendLog "✅ Copied Grafana datasources provisioning to container" ;;
           attempt (Exec ("docker cp " +:+ deployDir +:+
                          "/monitoring/grafana/provisioning/dashboards ar-io-node-grafana-1:/etc/grafana/provisioning/")
                      (Some deployDir)) ;;
           appendLog "✅ Copied Grafana dashboards provisioning to container" ;;
           attempt (Exec ("docker cp " +:+ deployDir +:+
                          "/monitoring/grafana/dashboards ar-io-node-grafana-1:/etc/grafana/")
                      (Some deployDir)) ;;
           appendLog "✅ Copied Grafana dashboard JSON files to container" ;;
           attempt (Exec (restartCommand composeArgs "grafana") (Some deployDir)) ;;
           appendLog "✅ Restarted Grafana to reload provisioning")
          (fun msg => appendLog ("⚠️ Grafana provisioning fix failed: " +:+ msg))) ;;
     appendLog "🎉 Post-deployment fixes completed!")
    (fun msg => appendLog ("⚠️ Post-deployment fix warning: " +:+ msg)).

(** The handler of the [close] event of the child of [POST /deploy]. *)
Definition onDeployClose (config : Config) (composeArgs : list string)
    (code : option nat) : Prog unit :=
  cancelled ← call GetCancelled;
  (if cancelled then appendLog "Deployment was cancelled"
   else
     (appendLog ("docker compose exited with code " +:+ show_code code) ;;
      when (exited_zero code) (postDeploymentFixes config composeArgs))) ;;
  call (SetCurrent None).

(** [app.get('/logs', ...)]. *)
Definition getLogs (st : State) : Response := json (BLogs (deploymentLogs st)).

Definition statusArgs : list string :=
  ["ps"; "--filter"; "name=ar-io-node-core"; "--format"; "{{.Status}}"].

(** [app.get('/status', ...)]: the answer is sent when the child that
    lists the containers closes. *)
Definition getStatus : Prog Response :=
  closed ← call (RunToClose "docker" statusArgs);
  let out := snd (closed : option nat * string) in
  let running := Nat.ltb 0 (String.length (Str.trim out)) in
  Ret (json (BStatus running (Str.trim out))).

(** [app.post('/cancel', ...)]. *)
Definition cancel : Prog Response :=
  try_catch
    (appendLog "Cancel deployment requested" ;;
     call (SetCancelled true) ;;
     current ← call GetCurrent;
     match current with
     | Some cp =>
         appendLog "Killing deployment process..." ;;
         try_catch
           (attempt (Kill cp "SIGTERM") ;;
            appendLog "Deployment process terminated")
           (fun msg => appendLog ("Warning: Could not kill process: " +:+ msg)) ;;
         call (Spawn StopChild "docker" ["compose"; "-p"; "ar-io-node"; "down"]
                 "/tmp/ar-io-node") ;;
         Ret (json (BCancel "cancelled" None))
     | None =>
         appendLog "No deployment process running, marking as cancelled anyway" ;;
         Ret (json (BCancel "no_deployment_running" None))
     end)
    (fun msg =>
       appendLog ("Cancel error: " +:+ msg) ;;
       Ret (json (BCancel "cancelled" (Some msg)))).

(** What can happen to the server: a request, or an event of a child
    that is still alive. *)
Inductive Event :=
| PostDeploy (config : option Config)
| GetLogs
| GetStatus
| PostCancel
| ChildStdout (p : pid) (data : string)
| ChildStderr (p : pid) (data : string)
| ChildClose (p : pid) (code : option nat).

Fixpoint childOf (p : pid) (l : list (pid * Child)) : option Child :=
  match l with
  | [] => None
  | (q, c) :: l' => if Nat.eqb p q then Some c else childOf p l'
  end.

(** The handler of an event; an event of a child is handled by the
    closures registered on that child. *)
Definition handler (e : Event) (st : State) : Prog (option Response) :=
  match e with
  | PostDeploy config => r ← deploy config; Ret (Some r)
  | GetLogs => Ret (Some (getLogs st))
  | GetStatus => r ← getStatus; Ret (Some r)
  | PostCancel => r ← cancel; Ret (Some r)
  | ChildStdout p d =>
      match childOf p (children st) with
      | Some (DeployChild _ _) => onDeployData d ;; Ret None
      | Some StopChild => appendLog ("Docker down: " +:+ Str.trim d) ;; Ret None
      | None => Ret None
      end
  | ChildStderr p d =>
      match childOf p (children st) with
      | Some (DeployChild _ _) => onDeployData d ;; Ret None
      | Some StopChild => appendLog ("Docker down error: " +:+ Str.trim d) ;; Ret None
      | None => Ret None
      end
  | ChildClose p code =>
      match childOf p (children st) with
      | Some (DeployChild config composeArgs) =>
          onDeployClose config composeArgs code ;; Ret None
      | Some StopChild =>
          appendLog ("Docker compose down exited with code " +:+ show_code code) ;; Ret None
      | None => Ret None
      end
  end.

(** One event handled to its end while no other handler runs: the new
    state and the response, if the event is a request. An exception
    that escapes a handler answers nothing here. The handlers of
    [POST /cancel] and [GET /logs] and the [data] handlers are
    synchronous, so this is all they can do; the handlers of
    [POST /deploy], of [GET /status] and of [close] are suspended at
    their [await]s, and [stepAmid] lets other handlers run there. *)
Definition step (env : Env) (e : Event) (st : State) : State * option Response :=
  match interp env (handler e st) st with
  | (st', Ok r) => (st', r)
  | (st', Err _) => (st', None)
  end.

(** One event handled to its end while the other handlers do [between]
    at its suspensions. *)
Definition stepAmid (env : Env) (e : Event) (between : list (State -> State))
    (st : State) : State * option Response :=
  match drive env (handler e st) between st with
  | (st', Ok r) => (st', r)
  | (st', Err _) => (st', None)
  end.

(** A sequence of events, each handled to its end before the next. *)
Fixpoint run (env : Env) (es : list Event) (st : State) : State :=
  match es with
  | [] => st
  | e :: es' => run env es' (fst (step env e st))
  end.

End Server.

(** * Properties *)

(** ** Programs in general *)

Module ProgFacts.
Import Server.

Lemma interp_bind env {A B} (p : Prog A) (f : A -> Prog B) st :
  interp env (bind p f) st =
  match interp env p st with
  | (st', Ok a) => interp env (f a) st'
  | (st', Err msg) => (st', Err msg)
  end.
Proof.
  revert st. induction p as [a | msg | X c k IH]; intros st; simpl; try reflexivity.
  destruct (perform env c st) as [st' x]. apply IH.
Qed.

Lemma interp_try_catch env {A} (p : Prog A) (h : string -> Prog A) st :
  interp env (try_catch p h) st =
  match interp env p st with
  | (st', Ok a) => (st', Ok a)
  | (st', Err msg) => interp env (h msg) st'
  end.
Proof.
  revert st. induction p as [a | msg | X c k IH]; intros st; simpl; try reflexivity.
  destruct (perform env c st) as [st' x]. apply IH.
Qed.

(** The log, the calls and the children of [st'] extend those of [st]. *)
Definition extends (st st' : State) : Prop :=
  (exists l, deploymentLogs st' = deploymentLogs st ++ l) /\
  (exists h, history st' = history st ++ h) /\
  (exists c, children st' = children st ++ c).

Lemma extends_refl st : extends st st.
Proof. repeat split; exists []; now rewrite app_nil_r. Qed.

Lemma extends_trans st1 st2 st3 : extends st1 st2 -> extends st2 st3 -> extends st1 st3.
Proof.
  intros ([l1 H1] & [h1 H2] & [c1 H3]) ([l2 H4] & [h2 H5] & [c2 H6]).
  repeat split; [exists (l1 ++ l2) | exists (h1 ++ h2) | exists (c1 ++ c2)];
    rewrite app_assoc; congruence.
Qed.

Lemma perform_extends env {X} (c : Cmd X) st : extends st (fst (perform env c st)).
Proof.
  destruct c; simpl; try apply extends_refl;
    repeat split; simpl;
    first [ now exists [] ; rewrite app_nil_r | eexists; reflexivity | idtac ];
    try (exists []; now rewrite app_nil_r).
Qed.

(** No handler removes or reorders a line of the log, a recorded call
    or a child. *)
Lemma interp_extends env {A} (p : Prog A) st : extends st (fst (interp env p st)).
Proof.
  revert st. induction p as [a | msg | X c k IH]; intros st; simpl; try apply extends_refl.
  pose proof (perform_extends env c st) as H.
  destruct (perform env c st) as [st' x]. simpl in H.
  eapply extends_trans; [exact H | apply IH].
Qed.

Lemma interp_extends_step env {A} (p : Prog A) st st' r :
  interp env p st = (st', r) -> extends st st'.
Proof. intros H. pose proof (interp_extends env p st) as X. now rewrite H in X. Qed.

Lemma step_extends env e st : extends st (fst (step env e st)).
Proof.
  unfold step. pose proof (interp_extends env (handler e st) st) as H.
  destruct (interp env (handler e st) st) as [st' [r | msg]]; exact H.
Qed.

Lemma run_extends env es st : extends st (run env es st).
Proof.
  revert st. induction es as [| e es IH]; intros st; simpl; [apply extends_refl |].
  eapply extends_trans; [apply step_extends | apply IH].
Qed.

End ProgFacts.

(** ** The log *)

Module LogFacts.
Import Server ProgFacts.

(** C9. The log only grows. Whatever events are handled, in whatever
    order (deployments, cancellations, status and log requests, output
    and exit of children), the lines already in the log stay where they
    are, unchanged, and new lines come after them; so the answer of
    [GET /logs] after the events is the answer before them followed by
    the later lines, and each answer is the whole log. *)
Theorem log_is_append_only (env : Env) (es : list Event) (st : State) :
  exists later,
    deploymentLogs (run env es st) = deploymentLogs st ++ later /\
    snd (step env GetLogs st) = Some (json (BLogs (deploymentLogs st))) /\
    snd (step env GetLogs (run env es st)) =
      Some (json (BLogs (deploymentLogs st ++ later))) /\
    fst (step env GetLogs st) = st.
Proof.
  destruct (run_extends env es st) as ([later Hl] & _ & _).
  exists later. split; [exact Hl |]. split; [reflexivity |].
  split; [| reflexivity].
  unfold step, handler, getLogs. simpl. now rewrite Hl.
Qed.

End LogFacts.

(** ** Cancellation *)

Module CancelFacts.
Import Server ProgFacts.

(** C6. [POST /cancel] answers with status 200 in both cases. When a
    process is tracked the answer is [cancelled] and [kill('SIGTERM')]
    is called on that process; when none is tracked, as in the initial
    state, the answer is [no_deployment_running] and nothing is
    called. *)
Theorem cancel_has_two_outcomes (env : Env) (st : State) :
  match currentDeploymentProcess st with
  | Some cp =>
      snd (step env PostCancel st) = Some {| code := 200; body := BCancel "cancelled" None |} /\
      exists h, history (fst (step env PostCancel st)) =
                history st ++ AKill cp "SIGTERM" :: h
  | None =>
      snd (step env PostCancel st) =
        Some {| code := 200; body := BCancel "no_deployment_running" None |} /\
      history (fst (step env PostCancel st)) = history st
  end /\
  snd (step env PostCancel initial) =
    Some {| code := 200; body := BCancel "no_deployment_running" None |}.
Proof.
  split; [| reflexivity].
  unfold step, handler, cancel. simpl.
  destruct (currentDeploymentProcess st) as [cp |] eqn:E; simpl.
  - destruct (killChild env (history st) cp "SIGTERM"); simpl;
      (split; [reflexivity | eexists; rewrite <- app_assoc; reflexivity]).
  - split; reflexivity.
Qed.

End CancelFacts.

(** ** The deployment request *)

Module DeployFacts.
Import Server ProgFacts.

(** What a line of the log leaves alone. *)
Definition world (st : State) :=
  (currentDeploymentProcess st, deploymentCancelled st, children st, history st).

Lemma interp_appendLog env msg st :
  exists st', interp env (appendLog msg) st = (st', Ok tt) /\ world st' = world st.
Proof. eexists. split; reflexivity. Qed.

Lemma interp_when_log env b msg st :
  exists st', interp env (when b (appendLog msg)) st = (st', Ok tt) /\ world st' = world st.
Proof. destruct b; [apply interp_appendLog | eexists; split; reflexivity]. Qed.

Lemma interp_include env flag services msg acc st :
  exists st',
    interp env (include flag services msg acc) st =
      (st', Ok (acc ++ (if truthy flag then services else []))) /\
    world st' = world st.
Proof.
  unfold include. destruct (truthy flag).
  - eexists. split; reflexivity.
  - eexists. rewrite app_nil_r. split; reflexivity.
Qed.

Ltac run_quiet lemma :=
  rewrite interp_bind;
  let st' := fresh "st" in
  let E := fresh "E" in
  let W := fresh "W" in
  destruct lemma as (st' & E & W); rewrite E; clear E.

Lemma interp_selectServices env config st :
  exists st',
    interp env (selectServices config) st = (st', Ok (servicesToStart config)) /\
    world st' = world st.
Proof.
  unfold selectServices.
  run_quiet (interp_include env (dashboardConfig config !! "ENABLE_ENVOY") ["envoy"]
               "Including Envoy proxy service" ["core"; "redis"] st).
  run_quiet (interp_include env (nodeConfig config !! "RUN_OBSERVER") ["observer"]
               "Including Observer service"
               (["core"; "redis"] ++
                (if truthy (dashboardConfig config !! "ENABLE_ENVOY") then ["envoy"] else []))
               st0).
  match goal with |- context [include ?f ?s ?m ?a] =>
    run_quiet (interp_include env f s m a st1) end.
  match goal with |- context [include ?f ?s ?m ?a] =>
    run_quiet (interp_include env f s m a st2) end.
  match goal with |- context [include ?f ?s ?m ?a] =>
    run_quiet (interp_include env f s m a st3) end.
  match goal with |- context [include ?f ?s ?m ?a] =>
    run_quiet (interp_include env f s m a st4) end.
  match goal with |- context [include ?f ?s ?m ?a] =>
    run_quiet (interp_include env f s m a st5) end.
  match goal with |- context [include ?f ?s ?m ?a] =>
    run_quiet (interp_include env f s m a st6) end.
  match goal with |- context [include ?f ?s ?m ?a] =>
    run_quiet (interp_include env f s m a st7) end.
  exists st8. split; [| congruence].
  simpl interp. unfold servicesToStart.
  repeat rewrite <- app_assoc. reflexivity.
Qed.

(** The last phase of the request: it cannot fail, it spawns exactly
    one child, with the arguments of the start command, and makes it
    the tracked process. *)
Lemma interp_startServices env config composeFiles st :
  exists st',
    interp env (startServices config composeFiles) st = (st', Ok (json BStarted)) /\
    history st' =
      history st ++
      [ASpawn (length (children st)) "docker"
         (allArgs config composeFiles (servicesToStart config)) deployDir] /\
    children st' =
      children st ++
      [(length (children st), DeployChild config (composeArgs config composeFiles))] /\
    currentDeploymentProcess st' = Some (length (children st)).
Proof.
  unfold startServices.
  run_quiet (interp_when_log env (truthy (dockerConfig config !! "enableClickhouse"))
               "Enabling ClickHouse profile" st).
  match goal with |- context [when ?b (appendLog ?m)] =>
    run_quiet (interp_when_log env b m st0) end.
  match goal with |- context [bind (appendLog ?m)] =>
    run_quiet (interp_appendLog env m st1) end.
  match goal with |- context [when ?b (appendLog ?m)] =>
    run_quiet (interp_when_log env b m st2) end.
  run_quiet (interp_selectServices env config st3).
  match goal with |- context [bind (appendLog ?m)] =>
    run_quiet (interp_appendLog env m st4) end.
  assert (Hw : world st5 = world st) by congruence.
  unfold world in Hw. injection Hw as Hc Hd Hk Hh.
  simpl. rewrite Hk, Hh. eexists. split; [reflexivity |]. simpl. auto.
Qed.

(** Two configurations that differ at most in the bundler address of
    the dashboard settings, the one property the request assigns. *)
Definition same_settings (c c' : Config) : Prop :=
  nodeConfig c' = nodeConfig c /\
  dockerConfig c' = dockerConfig c /\
  forall key, key <> "BUNDLER_ARWEAVE_ADDRESS" ->
              dashboardConfig c' !! key = dashboardConfig c !! key.

Lemma same_settings_refl c : same_settings c c.
Proof. repeat split. Qed.

Lemma same_settings_trans c1 c2 c3 :
  same_settings c1 c2 -> same_settings c2 c3 -> same_settings c1 c3.
Proof.
  intros (N1 & D1 & A1) (N2 & D2 & A2). repeat split; try congruence.
  intros key Hk. rewrite A2, A1; auto.
Qed.

Lemma same_settings_set c v : same_settings c (setDashboard c "BUNDLER_ARWEAVE_ADDRESS" v).
Proof.
  repeat split. intros key Hk. simpl. now rewrite lookup_insert_ne.
Qed.

Lemma servicesToStart_same c c' : same_settings c c' -> servicesToStart c' = servicesToStart c.
Proof.
  intros (N & D & A). unfold servicesToStart. rewrite N, D.
  now rewrite (A "ENABLE_ENVOY") by discriminate.
Qed.

Lemma interp_liftResult env {A} (r : result A) st :
  interp env (liftResult r) st = (st, r).
Proof. destruct r; reflexivity. Qed.

(** The derivation before the environment file: it never throws, and
    it makes no call that is recorded. *)
Lemma interp_preDerive env c st :
  exists st' c',
    interp env (preDeriveBundlerAddress c) st = (st', Ok c') /\
    same_settings c c' /\ world st' = world st.
Proof.
  unfold preDeriveBundlerAddress.
  destruct (truthy (dockerConfig c !! "enableBundler")
            && truthy (dashboardConfig c !! "BUNDLER_ARWEAVE_WALLET")) eqn:G.
  2: { exists st, c. split; [reflexivity | split; [apply same_settings_refl | reflexivity]]. }
  destruct (truthy (dashboardConfig c !! "BUNDLER_ARWEAVE_WALLET")); simpl.
  - destruct (jwkToAddress env (dashboardConfig c !! "BUNDLER_ARWEAVE_WALLET")) as [a | msg];
      simpl.
    + destruct (Str.is_empty a); simpl;
        (eexists; eexists; split; [reflexivity | split; [apply same_settings_set | reflexivity]]).
    + eexists; eexists; split; [reflexivity | split; [apply same_settings_set | reflexivity]].
  - eexists; eexists; split; [reflexivity | split; [apply same_settings_set | reflexivity]].
Qed.

Ltac chain H :=
  rewrite interp_bind in H;
  match type of H with
  | match interp ?env ?p ?s with _ => _ end = _ =>
      let s' := fresh "s" in
      let x := fresh "x" in
      let m := fresh "m" in
      let E := fresh "E" in
      let X := fresh "X" in
      pose proof (interp_extends env p s) as X;
      destruct (interp env p s) as [s' [x | m]] eqn:E; [simpl in X | discriminate H]
  end.

(** The phases a request has gone through when its [try] block ends
    without an exception. *)
Lemma deployTry_ok env config st st' r :
  interp env (deployTry config) st = (st', Ok r) ->
  exists config1 envContent composeFiles config2 sa sb sc sd se,
    same_settings config config1 /\
    EnvFile.buildEnvFile config1 = Ok envContent /\
    extends st sa /\
    interp env (writeEnvFile envContent) sa = (sb, Ok tt) /\
    extends sb sc /\
    interp env (writeModuleEnvFiles config1) sc = (sd, Ok config2) /\
    extends sd se /\
    interp env (startServices config2 composeFiles) se = (st', Ok r).
Proof.
  intros H. unfold deployTry in H.
  chain H. chain H.
  rewrite interp_bind in H.
  destruct (interp_preDerive env config s0) as (s1 & config1 & E1 & S1 & W1).
  pose proof (interp_extends env (preDeriveBundlerAddress config) s0) as X1.
  rewrite E1 in H, X1. simpl in X1.
  rewrite interp_bind, interp_liftResult in H.
  destruct (EnvFile.buildEnvFile config1) as [envContent | msg] eqn:B; [| discriminate H].
  chain H. chain H. chain H. chain H. chain H. chain H. chain H.
  chain H. destruct x8. chain H. chain H. chain H.
  exists config1, envContent, x8, x9, s8, s9, s10, s11, s12.
  split; [exact S1 |]. split; [exact B |].
  split.
  { do 9 (eapply extends_trans; [eassumption |]). exact X8. }
  split; [exact E9 |]. split; [exact X10 |]. split; [exact E11 |].
  split; [exact X12 | exact H].
Qed.

End DeployFacts.

(** ** The services that are started *)

Module ServiceFacts.
Import Server ProgFacts DeployFacts.

(** The optional components: the flag that enables each one and the
    services it contributes, in the order of the start command. *)
Definition components (config : Config) : list (option jsval * list string) :=
  let node := nodeConfig config in
  let dash := dashboardConfig config in
  let docker := dockerConfig config in
  [ (dash !! "ENABLE_ENVOY", ["envoy"]);
    (node !! "RUN_OBSERVER", ["observer"]);
    (docker !! "enableAutoheal", ["autoheal"]);
    (docker !! "enableClickhouse", ["clickhouse"; "clickhouse-auto-import"]);
    (docker !! "enableLitestream", ["litestream"]);
    (docker !! "enableBundler",
     ["upload-service"; "fulfillment-service"; "upload-service-pg"; "localstack"]);
    (docker !! "enableAoCu", ["ao-cu"]);
    (docker !! "enableGrafana", ["prometheus"; "grafana"; "node-exporter"]);
    (docker !! "enableDashboard", ["admin-dashboard"]) ].

Lemma includes_In l s : includes l s = true <-> In s l.
Proof.
  unfold includes. rewrite existsb_exists. split.
  - intros (x & Hx & E). apply String.eqb_eq in E. now subst.
  - intros H. exists s. split; [exact H | apply String.eqb_refl].
Qed.

(** The array as a function of the nine flags. *)
Definition selected (b1 b2 b3 b4 b5 b6 b7 b8 b9 : bool) : list string :=
  ["core"; "redis"] ++
  (if b1 then ["envoy"] else []) ++
  (if b2 then ["observer"] else []) ++
  (if b3 then ["autoheal"] else []) ++
  (if b4 then ["clickhouse"; "clickhouse-auto-import"] else []) ++
  (if b5 then ["litestream"] else []) ++
  (if b6 then ["upload-service"; "fulfillment-service"; "upload-service-pg"; "localstack"]
   else []) ++
  (if b7 then ["ao-cu"] else []) ++
  (if b8 then ["prometheus"; "grafana"; "node-exporter"] else []) ++
  (if b9 then ["admin-dashboard"] else []).

Lemma selected_includes b1 b2 b3 b4 b5 b6 b7 b8 b9 :
  let l := selected b1 b2 b3 b4 b5 b6 b7 b8 b9 in
  includes l "envoy" = b1 /\ includes l "observer" = b2 /\ includes l "autoheal" = b3 /\
  includes l "clickhouse" = b4 /\ includes l "clickhouse-auto-import" = b4 /\
  includes l "litestream" = b5 /\
  includes l "upload-service" = b6 /\ includes l "fulfillment-service" = b6 /\
  includes l "upload-service-pg" = b6 /\ includes l "localstack" = b6 /\
  includes l "ao-cu" = b7 /\
  includes l "prometheus" = b8 /\ includes l "grafana" = b8 /\
  includes l "node-exporter" = b8 /\
  includes l "admin-dashboard" = b9.
Proof.
  destruct b1, b2, b3, b4, b5, b6, b7, b8, b9; vm_compute; repeat split.
Qed.

Lemma servicesToStart_selected config :
  servicesToStart config =
  selected (truthy (dashboardConfig config !! "ENABLE_ENVOY"))
           (truthy (nodeConfig config !! "RUN_OBSERVER"))
           (truthy (dockerConfig config !! "enableAutoheal"))
           (truthy (dockerConfig config !! "enableClickhouse"))
           (truthy (dockerConfig config !! "enableLitestream"))
           (truthy (dockerConfig config !! "enableBundler"))
           (truthy (dockerConfig config !! "enableAoCu"))
           (truthy (dockerConfig config !! "enableGrafana"))
           (truthy (dockerConfig config !! "enableDashboard")).
Proof. reflexivity. Qed.

Lemma service_iff_flag config flag services s :
  In (flag, services) (components config) -> In s services ->
  (In s (servicesToStart config) <-> truthy flag = true).
Proof.
  intros Hc Hs. rewrite <- includes_In, servicesToStart_selected.
  pose proof (selected_includes
                (truthy (dashboardConfig config !! "ENABLE_ENVOY"))
                (truthy (nodeConfig config !! "RUN_OBSERVER"))
                (truthy (dockerConfig config !! "enableAutoheal"))
                (truthy (dockerConfig config !! "enableClickhouse"))
                (truthy (dockerConfig config !! "enableLitestream"))
                (truthy (dockerConfig config !! "enableBundler"))
                (truthy (dockerConfig config !! "enableAoCu"))
                (truthy (dockerConfig config !! "enableGrafana"))
                (truthy (dockerConfig config !! "enableDashboard"))) as H.
  cbv zeta in H.
  destruct H as (H1 & H2 & H3 & H4 & H5 & H6 & H7 & H8 & H9 & H10 & H11 & H12 & H13 & H14 & H15).
  unfold components in Hc. simpl in Hc.
  repeat (destruct Hc as [Hc | Hc];
          [injection Hc as <- <-; simpl in Hs;
           repeat (destruct Hs as [<- | Hs]; [split; intros; congruence |]);
           contradiction |]).
  contradiction.
Qed.

(** What the request has done when it answers that the deployment has
    started: its last call spawned [docker] with the arguments of the
    start command, which end in the services to start. *)
Lemma started_spawns env config st st' :
  step env (PostDeploy (Some config)) st = (st', Some (json BStarted)) ->
  exists before composeFiles config',
    same_settings config config' /\
    extends st before /\
    history st' =
      history before ++
      [ASpawn (length (children before)) "docker"
         (composeArgs config' composeFiles ++ ["up"; "-d"] ++ servicesToStart config)
         deployDir] /\
    children st' =
      children before ++
      [(length (children before), DeployChild config' (composeArgs config' composeFiles))] /\
    currentDeploymentProcess st' = Some (length (children before)).
Proof.
  unfold step, handler, deploy. rewrite interp_bind, interp_try_catch.
  destruct (interp env (deployTry config) st) as [s [r | msg]] eqn:E.
  - simpl. intros H. injection H as -> ->.
    destruct (deployTry_ok _ _ _ _ _ E)
      as (c1 & envContent & files & c2 & sa & sb & sc & sd & se &
          S1 & B & Xa & Ea & Xc & Ec & Xe & Ee).
    destruct (interp_startServices env c2 files se) as (st2 & E2 & Hh & Hk & Hc).
    rewrite E2 in Ee. injection Ee as <-.
    assert (S2 : same_settings config c2).
    { eapply same_settings_trans; [exact S1 |].
      revert Ec. unfold writeModuleEnvFiles. rewrite interp_bind.
      destruct (interp env _ sc) as [s1 [[] | m]]; [| discriminate].
      destruct (truthy (dockerConfig c1 !! "enableBundler")).
      - rewrite interp_bind.
        destruct (interp env (deriveBundlerAddress _) s1) as [s2 [a | m]]; [| discriminate].
        rewrite interp_bind.
        destruct (interp env _ s2) as [s3 [[] | m]]; [| discriminate].
        rewrite interp_bind.
        destruct (interp env _ s3) as [s4 [[] | m]]; [| discriminate].
        rewrite interp_bind.
        destruct (interp env _ s4) as [s5 [[] | m]]; [| discriminate].
        simpl. intros H. injection H as _ <-. apply same_settings_set.
      - simpl. intros H. injection H as _ <-. apply same_settings_refl. }
    exists se, files, c2. split; [exact S2 |]. split.
    { eapply extends_trans; [exact Xa |].
      eapply extends_trans; [eapply interp_extends_step; exact Ea |].
      eapply extends_trans; [exact Xc |].
      eapply extends_trans; [eapply interp_extends_step; exact Ec |]. exact Xe. }
    unfold allArgs in Hh. rewrite (servicesToStart_same _ _ S2) in Hh. auto.
  - rewrite interp_bind. simpl. intros H. discriminate H.
Qed.

End ServiceFacts.

(** ** Requests while a deployment is tracked *)

Module TrackingFacts.
Import Server ProgFacts DeployFacts ServiceFacts.

Definition reads_current {X : Type} (c : Cmd X) : bool :=
  match c with
  | GetCurrent => true
  | _ => false
  end.

(** A program that never reads [currentDeploymentProcess]. *)
Inductive blind {A : Type} : Prog A -> Prop :=
| blind_ret a : blind (Ret a)
| blind_throw msg : blind (Throw msg)
| blind_vis X (c : Cmd X) k :
    reads_current c = false -> (forall x, blind (k x)) -> blind (Vis c k).

(** Two states that differ at most in the tracked process. *)
Definition alike (st1 st2 : State) : Prop :=
  deploymentLogs st1 = deploymentLogs st2 /\
  deploymentCancelled st1 = deploymentCancelled st2 /\
  children st1 = children st2 /\
  history st1 = history st2.

Lemma blind_bind {A B} (p : Prog A) (f : A -> Prog B) :
  blind p -> (forall a, blind (f a)) -> blind (bind p f).
Proof.
  intros Hp Hf. induction Hp; simpl; auto using blind_throw.
  apply blind_vis; auto.
Qed.

Lemma blind_try_catch {A} (p : Prog A) (h : string -> Prog A) :
  blind p -> (forall msg, blind (h msg)) -> blind (try_catch p h).
Proof.
  intros Hp Hh. induction Hp; simpl; auto using blind_ret.
  apply blind_vis; auto.
Qed.

Lemma perform_alike env {X} (c : Cmd X) st1 st2 :
  reads_current c = false -> alike st1 st2 ->
  alike (fst (perform env c st1)) (fst (perform env c st2)) /\
  snd (perform env c st1) = snd (perform env c st2).
Proof.
  intros Hc (Hl & Hd & Hk & Hh).
  destruct c; try discriminate Hc; simpl; unfold alike, logLine; simpl;
    rewrite ?Hl, ?Hd, ?Hk, ?Hh; repeat split; auto.
Qed.

Lemma interp_alike env {A} (p : Prog A) :
  blind p -> forall st1 st2, alike st1 st2 ->
  alike (fst (interp env p st1)) (fst (interp env p st2)) /\
  snd (interp env p st1) = snd (interp env p st2).
Proof.
  induction 1 as [a | msg | X c k Hc Hk IH]; intros st1 st2 Ha; simpl; auto.
  destruct (perform_alike env c st1 st2 Hc Ha) as [Ha' Hx].
  destruct (perform env c st1) as [s1 x1], (perform env c st2) as [s2 x2].
  simpl in Ha', Hx. subst x2. apply IH; assumption.
Qed.

Ltac blind_step :=
  first
    [ apply blind_ret
    | apply blind_throw
    | apply blind_bind; [| intros ?]
    | apply blind_try_catch; [| intros ?]
    | apply blind_vis; [reflexivity | intros ?]
    | match goal with
      | |- blind (if ?b then _ else _) => destruct b
      | |- blind (match ?x with _ => _ end) => destruct x
      end ].

Lemma blind_appendLog msg : blind (appendLog msg).
Proof. unfold appendLog, call. repeat blind_step. Qed.

Lemma blind_attempt {X} (c : Cmd (result X)) : reads_current c = false -> blind (attempt c).
Proof. intros H. unfold attempt. apply blind_vis; [exact H |]. intros []; blind_step. Qed.

Lemma blind_call {X} (c : Cmd X) : reads_current c = false -> blind (call c).
Proof. intros H. unfold call. apply blind_vis; [exact H |]. intros; blind_step. Qed.

Lemma blind_when b p : blind p -> blind (when b p).
Proof. intros H. destruct b; simpl; [exact H | apply blind_ret]. Qed.

Lemma blind_pathExists path : blind (pathExists path).
Proof.
  unfold pathExists. apply blind_try_catch; [| intros; apply blind_ret].
  apply blind_bind; [apply blind_attempt; reflexivity | intros; apply blind_ret].
Qed.

Lemma blind_mkdirs dirs : blind (mkdirs dirs).
Proof.
  induction dirs as [| dir dirs IH]; simpl; [apply blind_ret |].
  apply blind_vis; [reflexivity |].
  intros [[] | msg]; simpl; [exact IH | apply blind_throw].
Qed.

Ltac blind_auto :=
  repeat first
    [ apply blind_appendLog
    | apply blind_pathExists
    | apply blind_mkdirs
    | apply blind_attempt; reflexivity
    | apply blind_call; reflexivity
    | apply blind_when
    | blind_step ].

Lemma blind_deployTry config : blind (deployTry config).
Proof.
  unfold deployTry, preDeriveBundlerAddress, resolveLatestTag, provisionRepository,
    updateRepository, cloneRepository, fetchDashboardFiles, download, patchComposeFiles,
    patchFile, writeEnvFile, writeSupportFiles, writeValue, writeModuleEnvFiles,
    deriveBundlerAddress, tearDown, startServices, selectServices, include, liftResult.
  blind_auto.
Qed.

Lemma blind_deploy config : blind (deploy config).
Proof.
  destruct config as [config |]; unfold deploy; [| apply blind_ret].
  apply blind_try_catch; [apply blind_deployTry |].
  intros msg. blind_auto.
Qed.

End TrackingFacts.

(** ** A concrete scene *)

Module Scene.
Import Server.

Definition is_clone (a : Action) : bool :=
  match a with
  | ARun cmd _ => String.eqb cmd "git"
  | _ => false
  end.

Definition wrote (path : string) (a : Action) : bool :=
  match a with
  | AWriteFile p _ => String.eqb p path
  | _ => false
  end.

Definition baseCompose : string :=
"services:
  envoy:
    ports:
      - '3000:3000'
  core:
    ports:
      - 4000:4000
".

(** A machine on which everything works: the working copy is there
    once it has been cloned, the environment file once it has been
    written, the upstream repository has the tag [r1], and every
    command exits with code zero. *)
Definition calm : Env :=
  {| now := fun n => "2025-01-01T00:00:00." +:+ show_nat n +:+ "Z";
     fetch := fun _ _ => Ok {| ok := true; status := 200; text := "[{...}]" |};
     fsAccess := fun h _ =>
       if existsb is_clone h then None else Some "ENOENT: no such file or directory";
     fsReadFile := fun _ _ => Ok baseCompose;
     fsWriteFile := fun _ _ _ => None;
     fsUnlink := fun h path =>
       if existsb (wrote path) h then None else Some "ENOENT: no such file or directory";
     fsMkdir := fun _ _ => None;
     runToClose := fun _ _ _ => (Some 0, "");
     execCmd := fun _ _ => None;
     killChild := fun _ _ _ => None;
     jwkToAddress := fun _ => Ok "fcoN_xJeisVsPXA-trzVAuIiqO3ydLQxM-L4XbrQKzY";
     firstTagName := fun _ => Ok (Some "r1") |}.

(** The configuration of a node with no optional service. *)
Definition minimal : Config :=
  {| nodeConfig :=
       list_to_map
         [ ("AR_IO_WALLET", JStr "wallet-address");
           ("ADMIN_API_KEY", JStr "secret");
           ("GRAPHQL_HOST", JStr "arweave.net");
           ("GRAPHQL_PORT", JStr "443");
           ("START_HEIGHT", JStr "1000000");
           ("RUN_OBSERVER", JBool false);
           ("RUN_AUTOHEAL", JBool false);
           ("CORE_PORT", JStr "4000");
           ("ADDITIONAL_ENV", JStr "") ];
     dashboardConfig :=
       list_to_map
         [ ("ENABLE_ENVOY", JBool false);
           ("ENVOY_PORT", JStr "3000");
           ("ADMIN_USERNAME", JStr "admin");
           ("ADMIN_PASSWORD", JStr "admin");
           ("GRAFANA_PORT", JStr "1024");
           ("AWS_ACCESS_KEY_ID", JStr "test");
           ("AWS_SECRET_ACCESS_KEY", JStr "test") ];
     dockerConfig :=
       list_to_map
         [ ("useEnvoy", JBool false);
           ("enableBundler", JBool false);
           ("enableAoCu", JBool false);
           ("enableGrafana", JBool false);
           ("enableDashboard", JBool false);
           ("enableClickhouse", JBool false);
           ("enableLitestream", JBool false);
           ("enableAutoheal", JBool false) ] |}.

(** The same node with the bundler enabled and the AWS settings left at
    their placeholder values. *)
Definition withBundler : Config :=
  {| nodeConfig := nodeConfig minimal;
     dashboardConfig :=
       list_to_map
         [ ("ENABLE_ENVOY", JBool false);
           ("ENABLE_BUNDLER", JBool true);
           ("BUNDLER_ARWEAVE_WALLET", JStr "{ jwk }");
           ("BUNDLER_ARWEAVE_ADDRESS", JStr "");
           ("APP_NAME", JStr "AR.IO Bundler Service");
           ("ANS104_INDEX_FILTER", JStr "{ always }");
           ("ANS104_UNBUNDLE_FILTER", JStr "{ never }");
           ("AWS_S3_CONTIGUOUS_DATA_BUCKET", JStr "");
           ("AWS_S3_CONTIGUOUS_DATA_PREFIX", JStr "contiguous-data/");
           ("AWS_ACCESS_KEY_ID", JStr "test");
           ("AWS_SECRET_ACCESS_KEY", JStr "test");
           ("AWS_REGION", JStr "us-east-1");
           ("AWS_ENDPOINT", JStr "http://localstack:4566") ];
     dockerConfig := <["enableBundler" := JBool true]> (dockerConfig minimal) |}.

(** The machine of [calm] with a working copy already there, on which
    [git] fails: the update exits with code 1 and leaves the working
    copy in place. *)
Definition updateFails : Env :=
  {| now := now calm;
     fetch := fetch calm;
     fsAccess := fun _ _ => None;
     fsReadFile := fsReadFile calm;
     fsWriteFile := fsWriteFile calm;
     fsUnlink := fsUnlink calm;
     fsMkdir := fsMkdir calm;
     runToClose := fun _ cmd _ =>
       if String.eqb cmd "bash" then (Some 1, "fatal: unable to access the remote")
       else (Some 0, "");
     execCmd := execCmd calm;
     killChild := killChild calm;
     jwkToAddress := jwkToAddress calm;
     firstTagName := firstTagName calm |}.

(** The machine of [calm] without a working copy, on which the clone
    exits with code 128. *)
Definition cloneFails : Env :=
  {| now := now calm;
     fetch := fetch calm;
     fsAccess := fun _ _ => Some "ENOENT: no such file or directory";
     fsReadFile := fsReadFile calm;
     fsWriteFile := fsWriteFile calm;
     fsUnlink := fsUnlink calm;
     fsMkdir := fsMkdir calm;
     runToClose := fun _ _ _ => (Some 128, "fatal: could not resolve host");
     execCmd := execCmd calm;
     killChild := killChild calm;
     jwkToAddress := jwkToAddress calm;
     firstTagName := firstTagName calm |}.

(** The state after a first deployment request on that machine: its
    child is alive and tracked. *)
Definition deployedOnce : State :=
  fst (step calm (PostDeploy (Some minimal)) initial).

(** [st] with [currentDeploymentProcess] set to [q]. *)
Definition track (q : option pid) (st : State) : State :=
  {| deploymentLogs := deploymentLogs st;
     currentDeploymentProcess := q;
     deploymentCancelled := deploymentCancelled st;
     children := children st;
     history := history st |}.

End Scene.

Module TrackingTheorems.
Import Server ProgFacts DeployFacts ServiceFacts TrackingFacts Scene.

(** C1, as the specification states it, fails: a second deployment
    request that arrives while the child of the first is alive and
    tracked is answered like the first, and a second child is spawned. *)
Lemma second_deployment_is_started :
  currentDeploymentProcess deployedOnce = Some 0 /\
  map fst (children deployedOnce) = [0] /\
  snd (step calm (PostDeploy (Some minimal)) deployedOnce) = Some (json BStarted) /\
  map fst (children (fst (step calm (PostDeploy (Some minimal)) deployedOnce))) = [0; 1] /\
  currentDeploymentProcess (fst (step calm (PostDeploy (Some minimal)) deployedOnce)) = Some 1 /\
  filter (fun a => match a with ASpawn _ _ _ _ => true | _ => false end = true)
    (history (fst (step calm (PostDeploy (Some minimal)) deployedOnce))) =
  [ ASpawn 0 "docker"
      ["compose"; "-p"; "ar-io-node"; "-f"; "docker-compose.yaml"; "-f";
       "docker-compose.override.yaml"; "up"; "-d"; "core"; "redis"] "/tmp/ar-io-node";
    ASpawn 1 "docker"
      ["compose"; "-p"; "ar-io-node"; "-f"; "docker-compose.yaml"; "-f";
       "docker-compose.override.yaml"; "up"; "-d"; "core"; "redis"] "/tmp/ar-io-node" ].
Proof. vm_compute. repeat split. Qed.

(** C1, amended. [POST /deploy] does not look at the tracked process:
    whatever process is tracked, or none, the request gives the same
    response, the same log, the same calls and the same children; and
    whenever it answers that the deployment has started, it has spawned
    one more child and that child is now the tracked process. *)
Theorem deploy_ignores_tracked_process
    (env : Env) (config : option Config) (st : State) (q : option pid) :
  snd (step env (PostDeploy config) (track q st)) = snd (step env (PostDeploy config) st) /\
  alike (fst (step env (PostDeploy config) (track q st)))
        (fst (step env (PostDeploy config) st)) /\
  (forall c st',
     step env (PostDeploy (Some c)) (track q st) = (st', Some (json BStarted)) ->
     exists before child,
       extends st before /\
       children st' = children before ++ [(length (children before), child)] /\
       currentDeploymentProcess st' = Some (length (children before))).
Proof.
  assert (Ha : alike (track q st) st) by (repeat split).
  assert (Hb : blind (handler (PostDeploy config) (track q st))).
  { simpl. apply blind_bind; [apply blind_deploy | intros; apply blind_ret]. }
  destruct (interp_alike env _ Hb _ _ Ha) as [H1 H2].
  unfold step. change (handler (PostDeploy config) st) with (handler (PostDeploy config) (track q st)).
  destruct (interp env (handler (PostDeploy config) (track q st)) (track q st)) as [s1 r1].
  destruct (interp env (handler (PostDeploy config) (track q st)) st) as [s2 r2].
  simpl in H1, H2. subst r2.
  split; [destruct r1; reflexivity |].
  split; [destruct r1; exact H1 |].
  intros c st' H.
  destruct (started_spawns _ _ _ _ H) as (before & files & c' & _ & X & _ & Hk & Hc).
  exists before. eexists. split; [| split; [exact Hk | exact Hc]].
  destruct X as (Xl & Xh & Xk). repeat split; assumption.
Qed.

End TrackingTheorems.

(** ** The env file of the bundler *)

Module BundlerFacts.
Import Server ProgFacts DeployFacts Scene.

Definition pushIfSet (dd : obj) (bundlerLines : list string) (key : string) : list string :=
  if truthy (dd !! key)
  then bundlerLines ++ [key +:+ "=" +:+ template (dd !! key)]
  else bundlerLines.

Lemma fold_pushIfSet_keeps dd keys acc x :
  In x acc -> In x (fold_left (pushIfSet dd) keys acc).
Proof.
  revert acc. induction keys as [| k keys IH]; intros acc H; simpl; [exact H |].
  apply IH. unfold pushIfSet. destruct (truthy (dd !! k)); [apply in_or_app; now left | exact H].
Qed.

Lemma fold_pushIfSet_adds dd keys acc key :
  In key keys -> truthy (dd !! key) = true ->
  In (key +:+ "=" +:+ template (dd !! key)) (fold_left (pushIfSet dd) keys acc).
Proof.
  revert acc. induction keys as [| k keys IH]; intros acc Hk Ht; simpl; [contradiction |].
  destruct Hk as [-> | Hk]; [| now apply IH].
  apply fold_pushIfSet_keeps. unfold pushIfSet. rewrite Ht.
  apply in_or_app. right. now left.
Qed.

Lemma bundlerLines_fixed dd bundlerAddress :
  In ("BUNDLER_ARWEAVE_WALLET=" +:+ template (dd !! "BUNDLER_ARWEAVE_WALLET"))
     (bundlerLines dd bundlerAddress) /\
  In ("BUNDLER_ARWEAVE_ADDRESS=" +:+ template (Some bundlerAddress))
     (bundlerLines dd bundlerAddress).
Proof.
  unfold bundlerLines.
  split; apply (fold_pushIfSet_keeps dd); simpl; auto.
Qed.

Lemma bundlerLines_aws dd bundlerAddress key :
  In key awsKeys -> truthy (dd !! key) = true ->
  In (key +:+ "=" +:+ template (dd !! key)) (bundlerLines dd bundlerAddress).
Proof. intros Hk Ht. unfold bundlerLines. now apply (fold_pushIfSet_adds dd). Qed.

Definition bundlerEnvPath : string := "/tmp/ar-io-node/.env.bundler".

(** The phase that writes the env files of the modules, when the
    bundler is enabled and the phase ends without an exception. *)
Lemma writeModuleEnvFiles_bundler env c st st' c' :
  truthy (dockerConfig c !! "enableBundler") = true ->
  interp env (writeModuleEnvFiles c) st = (st', Ok c') ->
  exists bundlerAddress,
    c' = setDashboard c "BUNDLER_ARWEAVE_ADDRESS" bundlerAddress /\
    In (AWriteFile bundlerEnvPath
          (Str.join_nl (bundlerLines (dashboardConfig c') bundlerAddress)))
       (history st').
Proof.
  intros Hb. unfold writeModuleEnvFiles. rewrite interp_bind.
  destruct (interp env _ st) as [s1 [[] | m]]; [| discriminate].
  rewrite Hb, interp_bind.
  destruct (interp env (deriveBundlerAddress _) s1) as [s2 [a | m]]; [| discriminate].
  rewrite interp_bind.
  destruct (interp env _ s2) as [s3 [[] | m]]; [| discriminate].
  rewrite interp_bind.
  match goal with |- context [interp env (attempt (WriteFile ?p ?content)) s3] =>
    assert (Hw : forall s4 r, interp env (attempt (WriteFile p content)) s3 = (s4, r) ->
                 In (AWriteFile p content) (history s4))
  end.
  { intros s4 r. simpl. destruct (fsWriteFile env _ _ _); simpl; intros H;
      injection H as <- _; simpl; apply in_or_app; right; now left. }
  destruct (interp env (attempt _) s3) as [s4 [[] | m]] eqn:E4; [| discriminate].
  specialize (Hw _ _ eq_refl).
  rewrite interp_bind.
  destruct (interp env _ s4) as [s5 [[] | m]] eqn:E5; [| discriminate].
  simpl. intros H. injection H as <- <-.
  exists a. split; [reflexivity |].
  destruct (interp_extends_step _ _ _ _ _ E5) as (_ & [h Hh] & _).
  rewrite Hh. apply in_or_app. left. exact Hw.
Qed.

(** C10. The env file of the bundler is written without the deny-list
    of placeholder values. When [POST /deploy] is asked for a
    configuration with the bundler enabled and answers that the
    deployment has started, it has written [.env.bundler] as lines
    joined by line breaks, and among these lines are: the wallet line
    and the address line, whatever their values; and, for every AWS key
    whose value in the configuration is set (the placeholder [test]
    included), the line of that key with that value as it is. *)
Theorem bundler_env_file_is_unfiltered
    (env : Env) (config : Config) (st st' : State) :
  truthy (dockerConfig config !! "enableBundler") = true ->
  step env (PostDeploy (Some config)) st = (st', Some (json BStarted)) ->
  exists bundlerLines bundlerAddress,
    In (AWriteFile bundlerEnvPath (Str.join_nl bundlerLines)) (history st') /\
    In ("BUNDLER_ARWEAVE_WALLET=" +:+
        template (dashboardConfig config !! "BUNDLER_ARWEAVE_WALLET")) bundlerLines /\
    In ("BUNDLER_ARWEAVE_ADDRESS=" +:+ bundlerAddress) bundlerLines /\
    forall key,
      In key awsKeys -> truthy (dashboardConfig config !! key) = true ->
      In (key +:+ "=" +:+ template (dashboardConfig config !! key)) bundlerLines.
Proof.
  intros Hb. unfold step, handler, deploy. rewrite interp_bind, interp_try_catch.
  destruct (interp env (deployTry config) st) as [s [r | msg]] eqn:E.
  2: { rewrite interp_bind. simpl. discriminate. }
  simpl. intros H. injection H as -> ->.
  destruct (deployTry_ok _ _ _ _ _ E)
    as (c1 & envContent & files & c2 & sa & sb & sc & sd & se &
        (N1 & D1 & A1) & B & Xa & Ea & Xc & Ec & Xe & Ee).
  rewrite <- D1 in Hb.
  destruct (writeModuleEnvFiles_bundler _ _ _ _ _ Hb Ec) as (a & -> & Hw).
  exists (bundlerLines (dashboardConfig (setDashboard c1 "BUNDLER_ARWEAVE_ADDRESS" a)) a),
         (template (Some a)).
  split.
  { destruct Xe as (_ & [h1 H1] & _).
    destruct (interp_extends_step _ _ _ _ _ Ee) as (_ & [h2 H2] & _).
    rewrite H2, H1. apply in_or_app. left. apply in_or_app. left. exact Hw. }
  assert (Hkeep : forall key, key <> "BUNDLER_ARWEAVE_ADDRESS" ->
            dashboardConfig (setDashboard c1 "BUNDLER_ARWEAVE_ADDRESS" a) !! key =
            dashboardConfig config !! key).
  { intros key Hk. simpl. rewrite lookup_insert_ne by congruence. now apply A1. }
  split.
  { rewrite <- (Hkeep "BUNDLER_ARWEAVE_WALLET") by discriminate. apply bundlerLines_fixed. }
  split; [apply bundlerLines_fixed |].
  intros key Hk Ht.
  assert (Hne : key <> "BUNDLER_ARWEAVE_ADDRESS").
  { unfold awsKeys in Hk. simpl in Hk.
    repeat (destruct Hk as [<- | Hk]; [discriminate |]). contradiction. }
  rewrite <- (Hkeep key Hne) in *. now apply bundlerLines_aws.
Qed.

End BundlerFacts.

Module BundlerWitness.
Import Server Scene BundlerFacts.

Lemma bundler_env_file_witness :
  truthy (dockerConfig withBundler !! "enableBundler") = true /\
  step calm (PostDeploy (Some withBundler)) initial =
    (fst (step calm (PostDeploy (Some withBundler)) initial), Some (json BStarted)) /\
  exists bundlerLines bundlerAddress,
    In (AWriteFile bundlerEnvPath (Str.join_nl bundlerLines))
       (history (fst (step calm (PostDeploy (Some withBundler)) initial))) /\
    In ("BUNDLER_ARWEAVE_WALLET=" +:+
        template (dashboardConfig withBundler !! "BUNDLER_ARWEAVE_WALLET")) bundlerLines /\
    In ("BUNDLER_ARWEAVE_ADDRESS=" +:+ bundlerAddress) bundlerLines /\
    forall key,
      In key awsKeys -> truthy (dashboardConfig withBundler !! key) = true ->
      In (key +:+ "=" +:+ template (dashboardConfig withBundler !! key)) bundlerLines.
Proof.
  split; [vm_compute; reflexivity |].
  split; [vm_compute; reflexivity |].
  apply (bundler_env_file_is_unfiltered calm withBundler initial); vm_compute; reflexivity.
Defined.

(** The file that is written for [withBundler]: the two placeholder
    credentials are in it. *)
Example bundler_env_file_of_withBundler :
  In (AWriteFile bundlerEnvPath
"BUNDLER_ARWEAVE_WALLET={ jwk }
BUNDLER_ARWEAVE_ADDRESS=fcoN_xJeisVsPXA-trzVAuIiqO3ydLQxM-L4XbrQKzY
APP_NAME=AR.IO Bundler Service
ANS104_INDEX_FILTER={ always }
ANS104_UNBUNDLE_FILTER={ never }
AWS_S3_CONTIGUOUS_DATA_PREFIX=contiguous-data/
AWS_ACCESS_KEY_ID=test
AWS_SECRET_ACCESS_KEY=test
AWS_REGION=us-east-1
AWS_ENDPOINT=http://localstack:4566")
     (history (fst (step calm (PostDeploy (Some withBundler)) initial))).
Proof. vm_compute. tauto. Qed.

End BundlerWitness.

(** ** The working copy *)

Module ProvisionFacts.
Import Server ProgFacts DeployFacts Scene.

Definition spawns {X : Type} (c : Cmd X) : bool :=
  match c with
  | Spawn _ _ _ _ | SetCurrent _ => true
  | _ => false
  end.

(** A program that spawns no child that stays alive and leaves the
    tracked process alone. *)
Inductive childless {A : Type} : Prog A -> Prop :=
| childless_ret a : childless (Ret a)
| childless_throw msg : childless (Throw msg)
| childless_vis X (c : Cmd X) k :
    spawns c = false -> (forall x, childless (k x)) -> childless (Vis c k).

(** The children and the tracked process are the same in both states. *)
Definition kept (st st' : State) : Prop :=
  children st' = children st /\ currentDeploymentProcess st' = currentDeploymentProcess st.

Lemma kept_refl st : kept st st.
Proof. split; reflexivity. Qed.

Lemma kept_trans st1 st2 st3 : kept st1 st2 -> kept st2 st3 -> kept st1 st3.
Proof. intros [A B] [C D]. split; congruence. Qed.

Lemma childless_bind {A B} (p : Prog A) (f : A -> Prog B) :
  childless p -> (forall a, childless (f a)) -> childless (bind p f).
Proof.
  intros Hp Hf. induction Hp; simpl; auto using childless_throw.
  apply childless_vis; auto.
Qed.

Lemma childless_try_catch {A} (p : Prog A) (h : string -> Prog A) :
  childless p -> (forall msg, childless (h msg)) -> childless (try_catch p h).
Proof.
  intros Hp Hh. induction Hp; simpl; auto using childless_ret.
  apply childless_vis; auto.
Qed.

Lemma interp_childless env {A} (p : Prog A) :
  childless p -> forall st, kept st (fst (interp env p st)).
Proof.
  induction 1 as [a | msg | X c k Hc Hk IH]; intros st; simpl; try apply kept_refl.
  assert (Hp : kept st (fst (perform env c st))).
  { destruct c; try discriminate Hc; split; reflexivity. }
  destruct (perform env c st) as [s x]. simpl in Hp.
  eapply kept_trans; [exact Hp | apply IH].
Qed.

Ltac childless_auto :=
  repeat first
    [ apply childless_ret
    | apply childless_throw
    | apply childless_bind; [| intros ?]
    | apply childless_try_catch; [| intros ?]
    | apply childless_vis; [reflexivity | intros ?]
    | match goal with
      | |- childless (if ?b then _ else _) => destruct b
      | |- childless (match ?x with _ => _ end) => destruct x
      end ].

Lemma childless_preDerive c : childless (preDeriveBundlerAddress c).
Proof.
  unfold preDeriveBundlerAddress, appendLog, attempt, call. childless_auto.
Qed.

Lemma childless_resolveLatestTag : childless resolveLatestTag.
Proof. unfold resolveLatestTag, appendLog, attempt, call. childless_auto. Qed.

Lemma childless_provision tag : childless (provisionRepository tag).
Proof.
  unfold provisionRepository, updateRepository, cloneRepository, pathExists, when,
    appendLog, attempt, call.
  childless_auto.
Qed.

Lemma interp_pathExists env path st :
  interp env (pathExists path) st =
  (st, Ok (match fsAccess env (history st) path with None => true | Some _ => false end)).
Proof.
  unfold pathExists. simpl. destruct (fsAccess env (history st) path); reflexivity.
Qed.

(** An update that fails, the working copy still being there. *)
Lemma update_failure_is_not_fatal env st latestTag exit output :
  fsAccess env (history st) deployDir = None ->
  runToClose env (history st) "bash" (updateCommand latestTag) = (exit, output) ->
  exited_zero exit = false ->
  fsAccess env (history st ++ [ARun "bash" (updateCommand latestTag)]) deployDir = None ->
  exists st',
    interp env (provisionRepository latestTag) st = (st', Ok tt) /\
    history st' = history st ++ [ARun "bash" (updateCommand latestTag)] /\
    exists t1 t2 t3,
      deploymentLogs st' =
        deploymentLogs st ++
        [ "[" +:+ t1 +:+ "] " +:+
            "Repository exists, updating to latest version (" +:+ latestTag +:+ ")...";
          "[" +:+ t2 +:+ "] " +:+
            "Git update failed with code " +:+ show_code exit +:+ ": " +:+ output;
          "[" +:+ t3 +:+ "] " +:+ "Falling back to fresh clone..." ].
Proof.
  intros H1 H2 H3 H4.
  unfold provisionRepository. rewrite interp_bind, interp_pathExists, H1.
  unfold when at 1. unfold updateRepository. simpl. rewrite H2, H3. simpl.
  rewrite H4. simpl. eexists. split; [reflexivity |]. simpl.
  split; [reflexivity |].
  eexists; eexists; eexists. rewrite <- !app_assoc. reflexivity.
Qed.

(** Provisioning throws only when the clone has run and has exited
    with a code other than zero. *)
Lemma only_the_clone_is_fatal env st latestTag st' msg :
  interp env (provisionRepository latestTag) st = (st', Err msg) ->
  exists h exit output,
    runToClose env h "git" (cloneCommand latestTag) = (exit, output) /\
    exited_zero exit = false /\
    msg = "Git clone failed: " +:+ output.
Proof.
  unfold provisionRepository. rewrite interp_bind, interp_pathExists, interp_bind.
  destruct (interp env (when _ _) st) as [s1 [[] | m]] eqn:E1.
  2: { exfalso. revert E1. unfold when, updateRepository.
       destruct (fsAccess env (history st) deployDir); simpl; [discriminate |].
       destruct (runToClose env (history st) "bash" (updateCommand latestTag)) as [c o].
       destruct (exited_zero c); simpl; discriminate. }
  rewrite interp_bind, interp_pathExists.
  unfold when, cloneRepository.
  destruct (_ || _); [| discriminate].
  simpl.
  destruct (runToClose env (history s1) "git" (cloneCommand latestTag)) as [c o] eqn:E2.
  destruct (exited_zero c) eqn:E3; simpl; [discriminate |].
  intros H. injection H as _ <-. exists (history s1), c, o. auto.
Qed.

(** A clone that fails. *)
Lemma clone_failure_is_fatal env st latestTag :
  (forall h, fsAccess env h deployDir <> None) ->
  (forall h, exited_zero (fst (runToClose env h "git" (cloneCommand latestTag))) = false) ->
  exists st',
    interp env (provisionRepository latestTag) st =
      (st', Err ("Git clone failed: " +:+
                 snd (runToClose env (history st) "git" (cloneCommand latestTag)))).
Proof.
  intros H1 H2.
  unfold provisionRepository. rewrite interp_bind, interp_pathExists.
  destruct (fsAccess env (history st) deployDir) as [e |] eqn:E; [| now destruct (H1 (history st))].
  simpl. destruct (fsAccess env (history st) deployDir) as [e' |] eqn:E'; [| discriminate].
  simpl. specialize (H2 (history st)).
  destruct (runToClose env (history st) "git" (cloneCommand latestTag)) as [c o].
  simpl in H2. rewrite H2. simpl. eexists. reflexivity.
Qed.

Lemma childless_appendLog msg : childless (appendLog msg).
Proof. unfold appendLog, call. childless_auto. Qed.

Ltac through C K :=
  rewrite interp_bind;
  match goal with
  | |- context [match interp ?env ?p ?s with _ => _ end] =>
      let K' := fresh "K" in
      let s' := fresh "s" in
      let x := fresh "x" in
      let m := fresh "m" in
      pose proof (kept_trans _ _ _ K (interp_childless env p C s)) as K';
      clear K;
      destruct (interp env p s) as [s' [x | m]]; simpl in K';
      [ rename K' into K | eexists; eexists; split; [reflexivity | exact K'] ]
  end.

(** The [try] block of a request on a machine without a working copy
    where the clone fails: it ends in an exception, and no child has
    been spawned. *)
Lemma deployTry_without_clone env config st :
  (forall h, fsAccess env h deployDir <> None) ->
  (forall h latestTag,
     exited_zero (fst (runToClose env h "git" (cloneCommand latestTag))) = false) ->
  exists st' msg,
    interp env (deployTry config) st = (st', Err msg) /\ kept st st'.
Proof.
  intros H1 H2. unfold deployTry.
  pose proof (kept_refl st) as K.
  through (childless_appendLog "Received deployment request") K.
  through (childless_vis _ (SetCancelled false) Ret eq_refl
             (fun x => childless_ret (A := unit) x)) K.
  through (childless_preDerive config) K.
  rewrite interp_bind, interp_liftResult.
  destruct (EnvFile.buildEnvFile x1) as [envContent | m];
    [| eexists; eexists; split; [reflexivity | exact K]].
  through (childless_appendLog ("Using deployment directory: " +:+ deployDir)) K.
  through (childless_appendLog
             "Repository will be updated if it exists, or cloned if it does not exist") K.
  through childless_resolveLatestTag K.
  rewrite interp_bind.
  destruct (clone_failure_is_fatal env s4 x4 H1 (fun h => H2 h x4)) as (s5 & E5).
  pose proof (interp_childless env _ (childless_provision x4) s4) as K5.
  rewrite E5 in K5 |- *. simpl in K5.
  eexists; eexists; split; [reflexivity | exact (kept_trans _ _ _ K K5)].
Qed.

End ProvisionFacts.

(** ** Strings: lines and prefixes *)

Module StrFacts.
Import Str.

Lemma append_cons c (a b : string) : String c a +:+ b = String c (a +:+ b).
Proof. reflexivity. Qed.

Lemma append_nil (b : string) : EmptyString +:+ b = b.
Proof. reflexivity. Qed.

Lemma append_assoc (a b c : string) : (a +:+ b) +:+ c = a +:+ (b +:+ c).
Proof.
  induction a as [| x a IH]; [reflexivity |].
  rewrite !append_cons. f_equal. exact IH.
Qed.

Lemma single_line_app a b :
  single_line (a +:+ b) = single_line a && single_line b.
Proof.
  induction a as [| x a IH]; [reflexivity |].
  rewrite append_cons. simpl. rewrite IH. now rewrite andb_assoc.
Qed.

Lemma split_nl_nonempty s : split_nl s <> [].
Proof.
  induction s as [| c s IH]; simpl; [discriminate |].
  destruct (Ascii.eqb c nl); [discriminate |].
  destruct (split_nl s); [contradiction | discriminate].
Qed.

Lemma split_nl_single_line s : single_line s = true -> split_nl s = [s].
Proof.
  induction s as [| c s IH]; simpl; [reflexivity |].
  intros H. apply andb_prop in H as [Hc Hs].
  apply negb_true_iff in Hc. rewrite Hc, (IH Hs). reflexivity.
Qed.

Lemma split_nl_lines_single s : Forall (fun l => single_line l = true) (split_nl s).
Proof.
  induction s as [| c s IH]; simpl; [repeat constructor |].
  destruct (Ascii.eqb c nl) eqn:E; [constructor; [reflexivity | exact IH] |].
  destruct (split_nl s) as [| h t]; [repeat constructor; simpl; now rewrite E |].
  inversion IH; subst. constructor; [simpl; rewrite E; assumption | assumption].
Qed.

(** Splitting a line followed by a line break and more text. *)
Lemma split_nl_cons_line a rest :
  single_line a = true ->
  split_nl (a +:+ String nl rest) = a :: split_nl rest.
Proof.
  induction a as [| c a IH]; intros H.
  - rewrite append_nil. reflexivity.
  - rewrite append_cons. simpl in *. apply andb_prop in H as [Hc Ha].
    apply negb_true_iff in Hc. rewrite Hc, (IH Ha). reflexivity.
Qed.

(** Joining lines that hold no line break and splitting the text again
    gives the lines back. *)
Lemma split_join_nl l :
  l <> [] -> Forall (fun a => single_line a = true) l -> split_nl (join_nl l) = l.
Proof.
  induction l as [| a l IH]; [contradiction |].
  intros _ H. inversion H as [| ? ? Ha Hl]; subst.
  destruct l as [| b l].
  - simpl. now apply split_nl_single_line.
  - change (join_nl (a :: b :: l)) with (a +:+ String nl (join_nl (b :: l))).
    rewrite (split_nl_cons_line _ _ Ha). f_equal. apply IH; [discriminate | assumption].
Qed.

Lemma starts_with_app p s : starts_with p (p +:+ s) = true.
Proof.
  induction p as [| c p IH]; [reflexivity |].
  rewrite append_cons. simpl. now rewrite Ascii.eqb_refl.
Qed.

Lemma starts_with_strip p s :
  starts_with p s = true -> exists rest, s = p +:+ rest.
Proof.
  revert s. induction p as [| c p IH]; intros s H; [now exists s |].
  destruct s as [| d s]; [discriminate |]. simpl in H.
  apply andb_prop in H as [Hc Hp]. apply Ascii.eqb_eq in Hc. subst d.
  destruct (IH _ Hp) as [rest ->]. now exists rest.
Qed.

Lemma append_inj_l (p a b : string) : p +:+ a = p +:+ b -> a = b.
Proof.
  induction p as [| c p IH]; [auto |].
  rewrite !append_cons. intros H. injection H as H. auto.
Qed.

(** Two texts [K=...] and [key=...] that agree have the same key, when
    no key holds an equals sign. *)
Lemma key_of_entry K key x y :
  has_char "="%char K = false -> has_char "="%char key = false ->
  K +:+ String "="%char x = key +:+ String "="%char y -> K = key /\ x = y.
Proof.
  revert key. induction K as [| a K IH]; intros key HK Hkey H.
  - destruct key as [| b key].
    + rewrite !append_nil in H. injection H as H. auto.
    + rewrite append_nil, append_cons in H. injection H as Hb _. subst b.
      simpl in Hkey. discriminate.
  - destruct key as [| b key].
    + rewrite append_nil, append_cons in H. injection H as Ha _. subst a.
      simpl in HK. discriminate.
    + rewrite !append_cons in H. injection H as Hab H. subst b.
      simpl in HK, Hkey.
      apply orb_false_elim in HK as [_ HK]. apply orb_false_elim in Hkey as [_ Hkey].
      destruct (IH key HK Hkey H) as [-> ->]. auto.
Qed.

End StrFacts.

(** ** The environment file *)

Module EnvFacts.
Import EnvFile StrFacts.

(** The flags that [buildEnvFile] reads, as booleans. *)
Record Gates := {
  g_bundler : bool;
  g_aocu : bool;
  g_grafana : bool;
  g_dashboard : bool;
  g_clickhouse : bool;
  g_litestream : bool;
  g_autoheal : bool;
  g_envoy : bool;
  g_ssl : bool;
  g_dashClickhouse : bool;
  g_dashLitestream : bool
}.

Definition gatesOf (c : Config) : Gates :=
  {| g_bundler := truthy (dockerConfig c !! "enableBundler");
     g_aocu := truthy (dockerConfig c !! "enableAoCu");
     g_grafana := truthy (dockerConfig c !! "enableGrafana");
     g_dashboard := truthy (dockerConfig c !! "enableDashboard");
     g_clickhouse := truthy (dockerConfig c !! "enableClickhouse");
     g_litestream := truthy (dockerConfig c !! "enableLitestream");
     g_autoheal := truthy (dockerConfig c !! "enableAutoheal");
     g_envoy := truthy (dockerConfig c !! "useEnvoy");
     g_ssl := truthy (dockerConfig c !! "enableSsl");
     g_dashClickhouse := truthy (dashboardConfig c !! "ENABLE_CLICKHOUSE");
     g_dashLitestream := truthy (dashboardConfig c !! "ENABLE_LITESTREAM") |}.

Definition anyService (g : Gates) : bool :=
  g_bundler g || (g_aocu g || (g_grafana g || (g_dashboard g ||
  (g_clickhouse g || (g_litestream g || g_autoheal g))))).

(** The loops of [buildEnvFile], in order: the condition under which
    each one runs and the keys it may emit. *)
Definition blocks (g : Gates) : list (bool * list string) :=
  [ (true, coreNodeConfigs);
    (g_bundler g, nodeBundlerConfigs);
    (g_envoy g, envoyConfigs);
    (anyService g, redisServiceConfigs);
    (g_dashClickhouse g, clickhouseServiceConfigs);
    (g_dashLitestream g, litestreamConfigs);
    (anyService g || g_envoy g, coreConfigs);
    ((anyService g || g_envoy g) && g_envoy g, ["ENVOY_PORT"]);
    ((anyService g || g_envoy g) && g_dashboard g, adminConfigs);
    (g_bundler g, bundlerConfigs);
    (g_aocu g, aoCuConfigs);
    (g_grafana g, grafanaConfigs);
    (g_clickhouse g, clickhouseConfigs);
    (g_dashboard g, dashboardOnlyConfigs);
    (g_ssl g, sslConfigs);
    (g_aocu g, ["ENABLE_AO_CU"]);
    (g_grafana g, ["ENABLE_GRAFANA"]);
    (g_dashboard g, ["ENABLE_DASHBOARD"]);
    (g_clickhouse g, ["ENABLE_CLICKHOUSE"]);
    (g_litestream g, ["ENABLE_LITESTREAM"]);
    (g_autoheal g, ["ENABLE_AUTOHEAL"]);
    (anyService g, redisConfigs) ].

(** The keys that may be emitted under the flags [g]. *)
Definition enabledKeys (g : Gates) : list string :=
  flat_map (fun b : bool * list string => if fst b then snd b else []) (blocks g).

(** [v] is not the placeholder value of [key]. *)
Definition undenied (key : string) (v : option jsval) : Prop :=
  forall d, In (key, d) denyList -> v <> Some (JStr d).

(** Where a line of the file comes from: a free-form line of
    [ADDITIONAL_ENV], or a key enabled by the flags with the value it
    has in the configuration (a feature toggle has the value [true]). *)
Definition origin (c : Config) (extra : list string) (line : string) : Prop :=
  In line extra \/
  exists key v,
    line = key +:+ "=" +:+ template v /\
    In key (enabledKeys (gatesOf c)) /\
    (v = nodeConfig c !! key \/ v = dashboardConfig c !! key \/ v = Some (JBool true)) /\
    undenied key v.

Lemma truthy_js_or a b : truthy (js_or a b) = truthy a || truthy b.
Proof. unfold js_or. destruct (truthy a) eqn:E; [now rewrite E | reflexivity]. Qed.

Lemma truthy_anyServiceEnabled c :
  truthy (anyServiceEnabled (dockerConfig c)) = anyService (gatesOf c).
Proof. unfold anyServiceEnabled, anyService. now rewrite !truthy_js_or. Qed.

Lemma enabled_intro g gate keys key :
  In (gate, keys) (blocks g) -> gate = true -> In key keys -> In key (enabledKeys g).
Proof.
  intros Hb Hg Hk. unfold enabledKeys. apply in_flat_map.
  exists (gate, keys). split; [exact Hb |]. simpl. now rewrite Hg.
Qed.

Lemma shouldIncludeValue_undenied key v :
  shouldIncludeValue key v = true -> undenied key v.
Proof.
  unfold shouldIncludeValue, undenied. intros H d Hd ->.
  unfold denyList in Hd. simpl in Hd.
  repeat (destruct Hd as [Hd | Hd];
          [injection Hd as <- <-; vm_compute in H; discriminate |]).
  contradiction.
Qed.

Lemma core_undenied key v : In key coreNodeConfigs -> undenied key v.
Proof.
  intros Hk d Hd _. unfold denyList in Hd. simpl in Hd.
  repeat (destruct Hd as [Hd | Hd];
          [injection Hd as <- <-; revert Hk; vm_compute; intuition discriminate |]).
  contradiction.
Qed.

Section Steps.
Variable Q : string -> Prop.

(** [f] keeps the property [Q] of every line. *)
Definition preserves (f : Acc -> Acc) : Prop :=
  forall a, Forall Q (lines a) -> Forall Q (lines (f a)).

Lemma preserves_apply f a : preserves f -> Forall Q (lines a) -> Forall Q (lines (f a)).
Proof. intros H. apply H. Qed.

Lemma push_preserves key v :
  Q (key +:+ "=" +:+ template v) -> preserves (push key v).
Proof. intros H2 a H1. simpl. apply Forall_app. split; [exact H1 | now constructor]. Qed.

Lemma addPresent_preserves o key :
  (nullish (o !! key) = false -> is_empty_string (o !! key) = false ->
   Q (key +:+ "=" +:+ template (o !! key))) ->
  preserves (addPresent o key).
Proof.
  intros H2 a H1. unfold addPresent.
  destruct (nullish (o !! key)); simpl; [exact H1 |].
  destruct (is_empty_string (o !! key)); simpl; [exact H1 |].
  destruct (has a key); simpl; [exact H1 |].
  apply push_preserves; auto.
Qed.

Lemma addPresentChecked_preserves o key :
  (shouldIncludeValue key (o !! key) = true -> Q (key +:+ "=" +:+ template (o !! key))) ->
  preserves (addPresentChecked o key).
Proof.
  intros H2 a H1. unfold addPresentChecked.
  destruct (negb (nullish (o !! key)) && negb (is_empty_string (o !! key))
            && negb (has a key)); simpl; [| exact H1].
  destruct (shouldIncludeValue key (o !! key)); [| exact H1].
  apply push_preserves; auto.
Qed.

Lemma addChecked_preserves o key :
  (shouldIncludeValue key (o !! key) = true -> Q (key +:+ "=" +:+ template (o !! key))) ->
  preserves (addChecked o key).
Proof.
  intros H2 a H1. unfold addChecked.
  destruct (has a key); simpl; [exact H1 |].
  destruct (shouldIncludeValue key (o !! key)); [| exact H1].
  apply push_preserves; auto.
Qed.

Lemma addToggle_preserves flag key :
  (truthy flag = true -> Q (key +:+ "=true")) -> preserves (addToggle flag key).
Proof.
  intros H2 a H1. unfold addToggle.
  destruct (truthy flag); simpl; [| exact H1].
  destruct (has a key); simpl; [exact H1 |].
  apply Forall_app. split; [exact H1 | constructor; auto].
Qed.

Lemma forEach_preserves keys f :
  (forall key, In key keys -> preserves (f key)) -> preserves (forEach keys f).
Proof.
  unfold forEach. induction keys as [| k keys IH]; intros H2 a H1; simpl; [exact H1 |].
  apply IH.
  - intros key Hk. apply H2. now right.
  - apply H2; [now left | exact H1].
Qed.

Lemma when_preserves b f : (b = true -> preserves f) -> preserves (when b f).
Proof. intros H2 a H1. unfold when. destruct b; [now apply H2 | exact H1]. Qed.

Lemma pushRaw_fold_Forall extra a :
  Forall Q (lines a) -> Forall Q extra ->
  Forall Q (lines (fold_left (fun a line => pushRaw line a) extra a)).
Proof.
  revert a. induction extra as [| x extra IH]; intros a H1 H2; simpl; [exact H1 |].
  inversion H2; subst. apply IH; [| assumption].
  simpl. apply Forall_app. split; [exact H1 | now constructor].
Qed.

End Steps.

(** The free-form lines of the configuration. *)
Definition extraLines (c : Config) : list string :=
  match nodeConfig c !! "ADDITIONAL_ENV" with
  | Some (JStr text) => additionalLines text
  | _ => []
  end.

Lemma additionalLines_empty : additionalLines "" = [].
Proof. reflexivity. Qed.

Lemma addAdditional_lines c a a' :
  addAdditional (nodeConfig c !! "ADDITIONAL_ENV") a = Ok a' ->
  exists l, lines a' = l /\
    forall Q : string -> Prop, Forall Q (lines a) -> Forall Q (extraLines c) -> Forall Q l.
Proof.
  unfold addAdditional, extraLines.
  destruct (nodeConfig c !! "ADDITIONAL_ENV") as [[| b | text] |]; simpl.
  - intros [= <-]. eexists; split; [reflexivity | auto].
  - destruct b; [discriminate |]. intros [= <-]. eexists; split; [reflexivity | auto].
  - destruct (Str.is_empty text); simpl; intros [= <-];
      (eexists; split; [reflexivity |]); intros Q H1 H2; auto.
    now apply pushRaw_fold_Forall.
  - intros [= <-]. eexists; split; [reflexivity | auto].
Qed.

Ltac gate_facts :=
  repeat match goal with
    | H : _ && _ = true |- _ => apply andb_prop in H as [? ?]
    | H : context [truthy (anyServiceEnabled _)] |- _ =>
        rewrite truthy_anyServiceEnabled in H
    end.

Ltac find_block :=
  unfold blocks; repeat first [left; reflexivity | right].

Ltac gate_holds :=
  lazymatch goal with
  | |- true = true => reflexivity
  | |- _ => first [assumption | apply andb_true_intro; split; assumption]
  end.

Ltac env_step :=
  cbv beta;
  lazymatch goal with
  | |- Forall _ (lines start) => apply Forall_nil
  | |- Forall _ (lines (?f ?a)) => apply preserves_apply
  | |- Forall _ (lines ?a) => is_var a; assumption
  | |- preserves _ (when _ _) => apply when_preserves; intros ?G
  | |- preserves _ (forEach _ _) => apply forEach_preserves; intros ?key ?Hin
  | |- preserves _ (addPresent _ _) => apply addPresent_preserves; intros ?Hn ?He
  | |- preserves _ (addPresentChecked _ _) => apply addPresentChecked_preserves; intros ?Hs
  | |- preserves _ (addChecked _ _) => apply addChecked_preserves; intros ?Hs
  | |- preserves _ (addToggle _ _) => apply addToggle_preserves; intros ?Ht
  | |- preserves _ (push _ _) => apply push_preserves
  | |- preserves _ (fun a => _) => intros ?a ?Ha
  end.

Ltac env_steps := repeat env_step.

(** Every line of the array that [buildEnvFile] joins has an origin. *)
Lemma envLines_origin c l :
  envLines c = Ok l -> Forall (origin c (extraLines c)) l.
Proof.
  unfold envLines.
  destruct (addAdditional _ _) as [a | msg] eqn:E; [| discriminate].
  intros [= <-].
  destruct (addAdditional_lines _ _ _ E) as (l & Hl & Hextra).
  assert (H0 : Forall (origin c (extraLines c)) (lines (beforeAdditional c))).
  { unfold beforeAdditional. cbv zeta. env_steps; try (now constructor); gate_facts.
    all: right; eexists; eexists; split; [reflexivity |].
    all: split; [eapply enabled_intro; [| | eassumption]; [find_block | gate_holds] |].
    all: split; [first [left; reflexivity | right; left; reflexivity] |].
    all: first [now apply shouldIncludeValue_undenied | now apply core_undenied]. }
  assert (H1 : Forall (origin c (extraLines c)) (lines a)).
  { rewrite Hl. apply Hextra; [exact H0 |].
    apply List.Forall_forall. intros x Hx. now left. }
  clear E Hl Hextra H0.
  unfold afterAdditional. cbv zeta. env_steps; gate_facts.
  all: right.
  all: lazymatch goal with
       | |- exists key v, ?k +:+ "=true" = _ /\ _ =>
           exists k, (Some (JBool true)); split; [reflexivity |];
           split; [eapply enabled_intro with (keys := [k]);
                   [find_block | gate_holds | left; reflexivity] |];
           split; [right; right; reflexivity | intros d _; discriminate]
       | |- exists key v, "ENVOY_PORT" +:+ _ = _ /\ _ =>
           eexists; eexists; split; [reflexivity |];
           split; [eapply enabled_intro with (keys := ["ENVOY_PORT"]);
                   [find_block | gate_holds | left; reflexivity] |];
           split; [right; left; reflexivity | now apply shouldIncludeValue_undenied]
       | |- _ =>
           eexists; eexists; split; [reflexivity |];
           split; [eapply enabled_intro; [| | eassumption]; [find_block | gate_holds] |];
           split; [first [left; reflexivity | right; left; reflexivity] |];
           now apply shouldIncludeValue_undenied
       end.
Qed.

(** Every key that some loop may emit. *)
Definition allOn : Gates :=
  {| g_bundler := true; g_aocu := true; g_grafana := true; g_dashboard := true;
     g_clickhouse := true; g_litestream := true; g_autoheal := true; g_envoy := true;
     g_ssl := true; g_dashClickhouse := true; g_dashLitestream := true |}.

Definition allKeys : list string := enabledKeys allOn.

Lemma includes_In_false l s : Server.includes l s = false -> In s l -> False.
Proof. intros H1 H2. apply ServiceFacts.includes_In in H2. congruence. Qed.

Lemma enabled_in_all g key : In key (enabledKeys g) -> In key allKeys.
Proof.
  unfold enabledKeys. rewrite in_flat_map. intros ((gate & keys) & Hb & Hk).
  simpl in Hk. destruct gate; [| contradiction].
  apply ServiceFacts.includes_In.
  unfold blocks in Hb.
  repeat (destruct Hb as [Hb | Hb];
          [apply (f_equal snd) in Hb; simpl in Hb; subst keys;
           revert key Hk; apply (proj1 (forallb_forall (Server.includes allKeys) _));
           vm_compute; reflexivity |]).
  contradiction.
Qed.

Definition plain_key (key : string) : bool :=
  Str.single_line key && negb (Str.has_char "="%char key).

Lemma allKeys_plain : forallb plain_key allKeys = true.
Proof. vm_compute. reflexivity. Qed.

Lemma enabled_plain g key :
  In key (enabledKeys g) -> Str.single_line key = true /\ Str.has_char "="%char key = false.
Proof.
  intros H. apply enabled_in_all in H.
  pose proof allKeys_plain as P. rewrite forallb_forall in P.
  specialize (P key H). unfold plain_key in P.
  apply andb_prop in P as [P1 P2]. apply negb_true_iff in P2. auto.
Qed.

(** The string values of an object hold no line break. *)
Definition single_line_values (o : obj) : bool :=
  forallb (fun kv : string * jsval =>
             match snd kv with JStr s => Str.single_line s | _ => true end)
          (map_to_list o).

Lemma single_line_values_lookup o key s :
  single_line_values o = true -> o !! key = Some (JStr s) -> Str.single_line s = true.
Proof.
  unfold single_line_values. rewrite forallb_forall. intros H Hk.
  apply (H (key, JStr s)). apply list_elem_of_In. now apply elem_of_map_to_list.
Qed.

(** A configuration that [buildEnvFile] can take without confusing
    lines and values: [ADDITIONAL_ENV] is absent or a string, and no
    other string value holds a line break. *)
Definition well_formed (c : Config) : bool :=
  match nodeConfig c !! "ADDITIONAL_ENV" with
  | Some (JBool true) => false
  | _ => true
  end
  && single_line_values (delete "ADDITIONAL_ENV" (nodeConfig c))
  && single_line_values (dashboardConfig c).

Lemma template_single_line o key :
  single_line_values o = true -> Str.single_line (template (o !! key)) = true.
Proof.
  intros H. destruct (o !! key) as [[| [] | s] |] eqn:E; try reflexivity.
  simpl. eapply single_line_values_lookup; eassumption.
Qed.

Lemma envLines_total c :
  well_formed c = true -> exists l, envLines c = Ok l.
Proof.
  unfold well_formed, envLines, addAdditional. intros H.
  apply andb_prop in H as [H _]. apply andb_prop in H as [H _].
  destruct (nodeConfig c !! "ADDITIONAL_ENV") as [[| [] | text] |]; simpl;
    try discriminate; try (eexists; reflexivity).
  destruct (Str.is_empty text); eexists; reflexivity.
Qed.

Lemma extraLines_single c : Forall (fun l => Str.single_line l = true) (extraLines c).
Proof.
  unfold extraLines, additionalLines.
  destruct (nodeConfig c !! "ADDITIONAL_ENV") as [[| b | text] |]; try constructor.
  apply List.Forall_forall. intros x Hx.
  apply list_elem_of_In, list_elem_of_filter in Hx as [_ Hx].
  apply list_elem_of_In in Hx.
  pose proof (split_nl_lines_single text) as F. rewrite List.Forall_forall in F. auto.
Qed.

Lemma origin_single_line c line :
  well_formed c = true -> origin c (extraLines c) line -> Str.single_line line = true.
Proof.
  intros W [Hx | (key & v & -> & Hk & Hv & _)].
  - pose proof (extraLines_single c) as F. rewrite List.Forall_forall in F. auto.
  - unfold well_formed in W. apply andb_prop in W as [W W3]. apply andb_prop in W as [W1 W2].
    destruct (enabled_plain _ _ Hk) as [K1 K2].
    rewrite !single_line_app, K1. simpl.
    destruct Hv as [-> | [-> | ->]]; [| now apply template_single_line | reflexivity].
    destruct (decide (key = "ADDITIONAL_ENV")) as [-> | Hne].
    + exfalso. apply enabled_in_all in Hk. revert Hk. apply includes_In_false.
      vm_compute. reflexivity.
    + rewrite <- (lookup_delete_ne (nodeConfig c) "ADDITIONAL_ENV" key) by congruence.
      now apply template_single_line.
Qed.

(** The text of a well-formed configuration: it is built, and each of
    its lines is one of the lines that were joined. *)
Lemma text_lines c :
  well_formed c = true ->
  exists l,
    buildEnvFile c = Ok (Str.join_nl l) /\
    Forall (origin c (extraLines c)) l /\
    forall line, In line (Str.split_nl (Str.join_nl l)) -> In line l \/ line = "".
Proof.
  intros W. destruct (envLines_total c W) as [l E].
  exists l. unfold buildEnvFile. rewrite E. split; [reflexivity |].
  pose proof (envLines_origin c l E) as O. split; [exact O |].
  intros line H. destruct l as [| a l].
  - simpl in H. destruct H as [<- | []]. now right.
  - left. rewrite split_join_nl in H; [exact H | discriminate |].
    rewrite List.Forall_forall in O |- *. intros x Hx.
    eapply origin_single_line; eauto.
Qed.

Lemma deny_keys_plain K V : In (K, V) denyList -> Str.has_char "="%char K = false /\ K <> "".
Proof.
  unfold denyList. simpl. intros H.
  repeat (destruct H as [H | H]; [injection H as <- <-; split; [reflexivity | discriminate] |]).
  contradiction.
Qed.

Lemma denied_template K V v :
  In (K, V) denyList -> template v = V -> v = Some (JStr V).
Proof.
  unfold denyList. simpl. intros H.
  repeat (destruct H as [H | H];
          [injection H as <- <-; destruct v as [[| [] | s] |]; simpl;
           intros E; try discriminate E; now subst |]).
  contradiction.
Qed.

Lemma append_empty_l (a b : string) : a +:+ b = "" -> a = "".
Proof. destruct a; [reflexivity | discriminate]. Qed.

(** The optional services and the keys that belong to each of them
    alone. *)
Inductive Service := Bundler | AoCu | Grafana | Dashboard | Clickhouse | Litestream.

Definition serviceKeys (s : Service) : list string :=
  match s with
  | Bundler => bundlerConfigs
  | AoCu => aoCuConfigs ++ ["ENABLE_AO_CU"]
  | Grafana => grafanaConfigs ++ ["ENABLE_GRAFANA"]
  | Dashboard =>
      ["ADMIN_USERNAME"; "ADMIN_PASSWORD"] ++ dashboardOnlyConfigs ++ ["ENABLE_DASHBOARD"]
  | Clickhouse => clickhouseServiceConfigs ++ ["ENABLE_CLICKHOUSE"]
  | Litestream => litestreamConfigs ++ ["ENABLE_LITESTREAM"]
  end.

(** The service is switched off: its flag in [dockerConfig] is false
    and, for the two services that [buildEnvFile] also gates on the
    flag of [dashboardConfig], that flag is false too. *)
Definition off (g : Gates) (s : Service) : bool :=
  match s with
  | Bundler => negb (g_bundler g)
  | AoCu => negb (g_aocu g)
  | Grafana => negb (g_grafana g)
  | Dashboard => negb (g_dashboard g)
  | Clickhouse => negb (g_clickhouse g) && negb (g_dashClickhouse g)
  | Litestream => negb (g_litestream g) && negb (g_dashLitestream g)
  end.

Definition disabled (c : Config) (s : Service) : bool := off (gatesOf c) s.

Lemma off_not_enabled g s :
  off g s = true ->
  forallb (fun key => negb (Server.includes (enabledKeys g) key)) (serviceKeys s) = true.
Proof.
  destruct g as [b1 b2 b3 b4 b5 b6 b7 b8 b9 b10 b11].
  destruct s, b1, b2, b3, b4, b5, b6, b7, b8, b9, b10, b11;
    intros H; try discriminate H; vm_compute; reflexivity.
Qed.

End EnvFacts.

Module EnvScene.
Import Scene.

Definition withAdditional (text : string) : Config :=
  {| nodeConfig := <["ADDITIONAL_ENV" := JStr text]> (nodeConfig minimal);
     dashboardConfig := dashboardConfig minimal;
     dockerConfig := dockerConfig minimal |}.

(** No optional service, and a free-form line that sets a placeholder
    credential. *)
Definition withDeniedLine : Config := withAdditional "AWS_ACCESS_KEY_ID=test".

(** No optional service, and a free-form line that sets a key of the
    metrics dashboard. *)
Definition withGrafanaLine : Config := withAdditional "GRAFANA_PORT=3000".

(** The analytics store switched off in [dockerConfig] and on in
    [dashboardConfig]. *)
Definition clickhouseMirrorOnly : Config :=
  {| nodeConfig := nodeConfig minimal;
     dashboardConfig :=
       <["ENABLE_CLICKHOUSE" := JBool true]>
         (<["CLICKHOUSE_USER" := JStr "default"]> (dashboardConfig minimal));
     dockerConfig := dockerConfig minimal |}.

End EnvScene.

Module EnvTheorems.
Import EnvFile StrFacts EnvFacts Scene EnvScene.

(** C2, as the specification states it, fails: a free-form line of
    [ADDITIONAL_ENV] is copied into the file as it is, also when it is
    a pair of the deny-list. *)
Lemma denied_pair_passes_as_additional_line :
  In ("AWS_ACCESS_KEY_ID", "test") denyList /\
  buildEnvFile withDeniedLine =
    Ok "AR_IO_WALLET=wallet-address
ADMIN_API_KEY=secret
GRAPHQL_HOST=arweave.net
GRAPHQL_PORT=443
START_HEIGHT=1000000
RUN_OBSERVER=false
RUN_AUTOHEAL=false
CORE_PORT=4000
AWS_ACCESS_KEY_ID=test" /\
  In ("AWS_ACCESS_KEY_ID" +:+ "=" +:+ "test")
     (Str.split_nl "AR_IO_WALLET=wallet-address
ADMIN_API_KEY=secret
GRAPHQL_HOST=arweave.net
GRAPHQL_PORT=443
START_HEIGHT=1000000
RUN_OBSERVER=false
RUN_AUTOHEAL=false
CORE_PORT=4000
AWS_ACCESS_KEY_ID=test").
Proof. vm_compute. tauto. Qed.

(** C2, amended. For a configuration whose values hold no line break,
    the file is built, and a pair of the deny-list is a line of it only
    if that line is one of the free-form lines of [ADDITIONAL_ENV],
    which are copied as they are; no loop over the keys of the
    configuration emits such a pair, whatever services are enabled. *)
Theorem deny_list_spares_only_additional_lines (c : Config) :
  well_formed c = true ->
  exists text,
    buildEnvFile c = Ok text /\
    forall K V,
      In (K, V) denyList ->
      In (K +:+ "=" +:+ V) (Str.split_nl text) ->
      In (K +:+ "=" +:+ V) (extraLines c).
Proof.
  intros W. destruct (text_lines c W) as (l & B & O & L).
  exists (Str.join_nl l). split; [exact B |].
  intros K V HD H.
  destruct (deny_keys_plain K V HD) as [HK HK'].
  destruct (L _ H) as [Hl | He].
  2: { apply append_empty_l in He. contradiction. }
  rewrite List.Forall_forall in O.
  destruct (O _ Hl) as [Hx | (key & v & E & Hk & _ & U)]; [exact Hx |].
  exfalso.
  destruct (enabled_plain _ _ Hk) as [_ Hkey].
  destruct (key_of_entry K key V (template v) HK Hkey E) as [-> EV].
  apply (U V HD). eapply denied_template; eauto.
Qed.

Lemma deny_list_witness :
  well_formed withDeniedLine = true /\
  exists text,
    buildEnvFile withDeniedLine = Ok text /\
    forall K V,
      In (K, V) denyList ->
      In (K +:+ "=" +:+ V) (Str.split_nl text) ->
      In (K +:+ "=" +:+ V) (extraLines withDeniedLine).
Proof.
  split; [vm_compute; reflexivity |].
  apply (deny_list_spares_only_additional_lines withDeniedLine). vm_compute. reflexivity.
Defined.

(** C4, as the specification states it, fails: a free-form line of
    [ADDITIONAL_ENV] may set the key of a service that is switched
    off, and it is copied into the file as it is. *)
Lemma disabled_service_key_in_file :
  truthy (dockerConfig withGrafanaLine !! "enableGrafana") = false /\
  In "GRAFANA_PORT" grafanaConfigs /\
  buildEnvFile withGrafanaLine =
    Ok "AR_IO_WALLET=wallet-address
ADMIN_API_KEY=secret
GRAPHQL_HOST=arweave.net
GRAPHQL_PORT=443
START_HEIGHT=1000000
RUN_OBSERVER=false
RUN_AUTOHEAL=false
CORE_PORT=4000
GRAFANA_PORT=3000".
Proof. vm_compute. tauto. Qed.

(** The keys of the analytics store follow the flag of
    [dashboardConfig]: they are emitted while the flag of
    [dockerConfig] is false. *)
Example clickhouse_keys_follow_the_dashboard_flag :
  truthy (dockerConfig clickhouseMirrorOnly !! "enableClickhouse") = false /\
  buildEnvFile clickhouseMirrorOnly =
    Ok "AR_IO_WALLET=wallet-address
ADMIN_API_KEY=secret
GRAPHQL_HOST=arweave.net
GRAPHQL_PORT=443
START_HEIGHT=1000000
RUN_OBSERVER=false
RUN_AUTOHEAL=false
CORE_PORT=4000
CLICKHOUSE_USER=default".
Proof. vm_compute. tauto. Qed.

Lemma serviceKeys_plain s key :
  In key (serviceKeys s) -> Str.has_char "="%char key = false.
Proof.
  intros H.
  assert (P : forallb (fun k => negb (Str.has_char "="%char k)) (serviceKeys s) = true)
    by (destruct s; vm_compute; reflexivity).
  rewrite forallb_forall in P. apply negb_true_iff. auto.
Qed.

(** C4, amended. For a configuration whose values hold no line break,
    the file is built, and a line that sets a key of the bundler, of the
    compute unit, of the metrics dashboard or of the admin dashboard
    while the flag of that service in [dockerConfig] is false, or a key
    of the analytics store or of the backup agent while both of its
    flags are false, is in the file only if it is one of the free-form
    lines of [ADDITIONAL_ENV]; the value that the key has in the
    configuration does not matter. *)
Theorem disabled_service_keys_stay_out (c : Config) :
  well_formed c = true ->
  exists text,
    buildEnvFile c = Ok text /\
    forall s key line,
      disabled c s = true ->
      In key (serviceKeys s) ->
      In line (Str.split_nl text) ->
      Str.starts_with (key +:+ "=") line = true ->
      In line (extraLines c).
Proof.
  intros W. destruct (text_lines c W) as (l & B & O & L).
  exists (Str.join_nl l). split; [exact B |].
  intros s key line Hoff Hkey Hline Hstart.
  apply starts_with_strip in Hstart as [rest ->].
  rewrite append_assoc in Hline |- *.
  destruct (L _ Hline) as [Hl | He].
  2: { apply append_empty_l in He. subst key. exfalso.
       revert Hkey. destruct s; vm_compute; intuition discriminate. }
  rewrite List.Forall_forall in O.
  destruct (O _ Hl) as [Hx | (key' & v & E & Hk & _ & _)]; [exact Hx |].
  exfalso.
  destruct (enabled_plain _ _ Hk) as [_ Hkey'].
  destruct (key_of_entry key key' rest (template v) (serviceKeys_plain _ _ Hkey) Hkey' E)
    as [<- _].
  pose proof (off_not_enabled _ _ Hoff) as F. rewrite forallb_forall in F.
  specialize (F key Hkey). apply negb_true_iff in F.
  eapply includes_In_false; eauto.
Qed.

Lemma disabled_service_witness :
  well_formed withGrafanaLine = true /\
  exists text,
    buildEnvFile withGrafanaLine = Ok text /\
    forall s key line,
      disabled withGrafanaLine s = true ->
      In key (serviceKeys s) ->
      In line (Str.split_nl text) ->
      Str.starts_with (key +:+ "=") line = true ->
      In line (extraLines withGrafanaLine).
Proof.
  split; [vm_compute; reflexivity |].
  apply (disabled_service_keys_stay_out withGrafanaLine). vm_compute. reflexivity.
Defined.

(** C7. The environment file that the server builds and writes has no
    comment line with a timestamp at its head: for the configuration
    [minimal] its first line is the line of the first key. *)
Lemma env_file_has_no_header :
  buildEnvFile minimal =
    Ok "AR_IO_WALLET=wallet-address
ADMIN_API_KEY=secret
GRAPHQL_HOST=arweave.net
GRAPHQL_PORT=443
START_HEIGHT=1000000
RUN_OBSERVER=false
RUN_AUTOHEAL=false
CORE_PORT=4000" /\
  In (Server.AWriteFile "/tmp/ar-io-node/.env"
"AR_IO_WALLET=wallet-address
ADMIN_API_KEY=secret
GRAPHQL_HOST=arweave.net
GRAPHQL_PORT=443
START_HEIGHT=1000000
RUN_OBSERVER=false
RUN_AUTOHEAL=false
CORE_PORT=4000")
     (Server.history (fst (Server.step calm (Server.PostDeploy (Some minimal)) Server.initial))).
Proof. vm_compute. tauto. Qed.

End EnvTheorems.

(** ** The language of a regular expression and the matcher *)

Module RegexFacts.
Import Regex StrFacts.

(** The texts that an expression matches. *)
Inductive matches : re -> string -> Prop :=
| MLit l : matches (Lit l) l
| MCls (p : ascii -> bool) a : p a = true -> matches (Cls p) (String a EmptyString)
| MSeq r1 r2 w1 w2 :
    matches r1 w1 -> matches r2 w2 -> matches (Seq r1 r2) (w1 +:+ w2)
| MOptNone r : matches (Opt r) EmptyString
| MOptSome r w : matches r w -> matches (Opt r) w
| MStarNil r : matches (Star r) EmptyString
| MStarCons r w1 w2 :
    matches r w1 -> matches (Star r) w2 -> matches (Star r) (w1 +:+ w2)
| MPlus r w1 w2 :
    matches r w1 -> matches (Star r) w2 -> matches (Plus r) (w1 +:+ w2)
| MGrp n r w : matches r w -> matches (Grp n r) w.

(** A matcher reads a text of the language [L] and hands the rest to
    its continuation. *)
Definition reads (m : cont -> cont) (L : string -> Prop) : Prop :=
  forall k s c x,
    m k s c = Some x ->
    exists w s' c', s = w +:+ s' /\ L w /\ k s' c' = Some x.

Lemma strip_app p s s' : strip p s = Some s' -> s = p +:+ s'.
Proof.
  revert s. induction p as [| a p IH]; intros s; simpl.
  - intros [= ->]. reflexivity.
  - destruct s as [| b s]; [discriminate |].
    destruct (Ascii.eqb a b) eqn:E; [| discriminate].
    apply Ascii.eqb_eq in E as ->. intros H. apply IH in H as ->. reflexivity.
Qed.

Lemma strip_append p s : strip p (p +:+ s) = Some s.
Proof.
  induction p as [| a p IH]; [reflexivity |].
  rewrite append_cons. simpl. now rewrite Ascii.eqb_refl.
Qed.

Lemma iterate_reads r fuel :
  reads (run r) (matches r) ->
  reads (fun k => iterate (run r) k fuel) (matches (Star r)).
Proof.
  intros Hr. induction fuel as [| fuel IH]; intros k s c x; simpl.
  - intros H. exists EmptyString, s, c. repeat split; [constructor | exact H].
  - destruct (run r _ s c) as [y |] eqn:E.
    + intros [= ->].
      apply Hr in E as (w1 & s1 & c1 & -> & M1 & E).
      destruct (Nat.ltb _ _); [| discriminate].
      apply IH in E as (w2 & s2 & c2 & -> & M2 & E).
      exists (w1 +:+ w2), s2, c2. rewrite append_assoc.
      repeat split; [now constructor | exact E].
    + intros H. exists EmptyString, s, c. repeat split; [constructor | exact H].
Qed.

(** The matcher is sound: what it reads is a text of the language. *)
Lemma run_reads r : reads (run r) (matches r).
Proof.
  induction r as [l | p | r1 IH1 r2 IH2 | r IH | r IH | r IH | n r IH];
    intros k s c x; simpl.
  - destruct (strip l s) as [s' |] eqn:E; [| discriminate].
    intros H. apply strip_app in E as ->.
    exists l, s', c. repeat split; [constructor | exact H].
  - destruct s as [| a s']; [discriminate |].
    destruct (p a) eqn:E; [| discriminate].
    intros H. exists (String a EmptyString), s', c.
    repeat split; [now constructor | exact H].
  - intros H. apply IH1 in H as (w1 & s1 & c1 & -> & M1 & H).
    apply IH2 in H as (w2 & s2 & c2 & -> & M2 & H).
    exists (w1 +:+ w2), s2, c2. rewrite append_assoc.
    repeat split; [now constructor | exact H].
  - destruct (run r k s c) as [y |] eqn:E.
    + intros [= ->]. apply IH in E as (w & s' & c' & -> & M & E).
      exists w, s', c'. repeat split; [now apply MOptSome | exact E].
    + intros H. exists EmptyString, s, c. repeat split; [constructor | exact H].
  - intros H. apply (iterate_reads r _ IH) in H as (w & s' & c' & -> & M & H).
    exists w, s', c'. auto.
  - intros H. apply IH in H as (w1 & s1 & c1 & -> & M1 & H).
    apply (iterate_reads r _ IH) in H as (w2 & s2 & c2 & -> & M2 & H).
    exists (w1 +:+ w2), s2, c2. rewrite append_assoc.
    repeat split; [now constructor | exact H].
  - intros H. apply IH in H as (w & s' & c' & -> & M & H).
    exists w, s', ((n, take (String.length (w +:+ s') - String.length s') (w +:+ s')) :: c').
    repeat split; [now constructor | exact H].
Qed.

Lemma exec_matches r s rest c :
  exec r s = Some (rest, c) -> exists w, s = w +:+ rest /\ matches r w.
Proof.
  unfold exec. intros H. apply run_reads in H as (w & s' & c' & -> & M & [= -> ->]).
  exists w. auto.
Qed.

End RegexFacts.

(** ** The port-mapping rewrite reaches a fixed point *)

Module PatcherFacts.
Import Regex Patcher StrFacts RegexFacts.

(** The text starts with a digit, a colon and the container port: the
    part of a binding that both expressions of [fixPortMappings] for
    that port need. *)
Definition hit (port s : string) : bool :=
  match s with
  | String d s' => Str.is_digit d && Str.starts_with (":" +:+ port) s'
  | EmptyString => false
  end.

(** The text holds, somewhere, a digit, a colon and the container
    port. *)
Fixpoint dirty (port s : string) : bool :=
  match s with
  | String a s' => hit port s || dirty port s'
  | EmptyString => false
  end.

Fixpoint all_digit (s : string) : bool :=
  match s with
  | String a s' => Str.is_digit a && all_digit s'
  | EmptyString => true
  end.

(** The container ports of [fixPortMappings] with the names of their
    variables. *)
Definition table : list (string * string) :=
  [ ("ENVOY_PORT", "3000"); ("CORE_PORT", "4000"); ("OBSERVER_PORT", "5050");
    ("CLICKHOUSE_PORT_2", "8123"); ("CLICKHOUSE_PORT_3", "8443");
    ("CLICKHOUSE_PORT", "9000") ].

Definition ports : list string := map snd table.

(** No binding of a port of the table is left to rewrite. *)
Definition clean (s : string) : Prop :=
  forall port, In port ports -> dirty port s = false.

Lemma dirty_cons port a s :
  dirty port (String a s) = hit port (String a s) || dirty port s.
Proof. reflexivity. Qed.

Lemma dirty_app_l port u v : dirty port u = true -> dirty port (u +:+ v) = true.
Proof.
  induction u as [| a u IH]; [discriminate |].
  rewrite append_cons, !dirty_cons. intros H.
  apply orb_true_iff in H as [H | H].
  - apply orb_true_iff. left. unfold hit in *.
    apply andb_prop in H as [Hd Hs]. rewrite Hd. simpl.
    apply starts_with_strip in Hs as [rest ->].
    rewrite append_assoc. apply starts_with_app.
  - apply orb_true_iff. right. auto.
Qed.

Lemma dirty_app_r port u v : dirty port v = true -> dirty port (u +:+ v) = true.
Proof.
  intros H. induction u as [| a u IH]; [exact H |].
  rewrite append_cons, dirty_cons, IH. apply orb_true_r.
Qed.

Lemma dirty_suffix port u v : dirty port (u +:+ v) = false -> dirty port v = false.
Proof.
  intros H. destruct (dirty port v) eqn:E; [| reflexivity].
  now rewrite (dirty_app_r _ u _ E) in H.
Qed.

Lemma hit_dirty port s : hit port s = true -> dirty port s = true.
Proof. destruct s; [discriminate |]. rewrite dirty_cons. now intros ->. Qed.

Lemma dirty_digits port d w rest :
  Str.is_digit d = true -> all_digit w = true ->
  dirty port (String d w +:+ ((":" +:+ port) +:+ rest)) = true.
Proof.
  revert d. induction w as [| e w IH]; intros d Hd Hw.
  - apply hit_dirty. rewrite append_cons, append_nil. unfold hit.
    now rewrite Hd, starts_with_app.
  - simpl in Hw. apply andb_prop in Hw as [He Hw].
    rewrite append_cons, dirty_cons. rewrite (IH e He Hw). apply orb_true_r.
Qed.

Lemma star_digits w : matches (Star digit) w -> all_digit w = true.
Proof.
  intros M. remember (Star digit) as r eqn:E.
  induction M as [| | | | | | r w1 w2 M1 _ M2 IH | |]; try discriminate E.
  - reflexivity.
  - injection E as ->. specialize (IH eq_refl).
    inversion M1; subst. rewrite append_cons, append_nil. simpl.
    now rewrite IH, andb_true_r.
Qed.

(** Whatever a text of the shape [\d+:PORT...] is followed by, it holds
    a binding of the port. *)
Lemma digits_port_dirty port r w :
  matches (Seq (Plus digit) (Seq (Lit (":" +:+ port)) r)) w -> dirty port w = true.
Proof.
  intros M. inversion M as [| | ? ? w1 w23 M1 M23 | | | | | |]; subst.
  inversion M23 as [| | ? ? w2 w3 M2 M3 | | | | | |]; subst.
  inversion M2; subst.
  inversion M1 as [| | | | | | | ? wa wb Ma Mb |]; subst.
  inversion Ma; subst. apply star_digits in Mb.
  rewrite append_cons, append_nil. now apply dirty_digits.
Qed.

Lemma seq_dirty port r1 r2 w :
  (forall v, matches r2 v -> dirty port v = true) ->
  matches (Seq r1 r2) w -> dirty port w = true.
Proof.
  intros H M. inversion M; subst. apply dirty_app_r. auto.
Qed.

Lemma binding_dirty port w : matches (binding port) w -> dirty port w = true.
Proof.
  unfold binding, seqs. apply seq_dirty. intros v. apply digits_port_dirty.
Qed.

Lemma portsBlock_dirty port w : matches (portsBlock port) w -> dirty port w = true.
Proof.
  unfold portsBlock, seqs. do 7 (apply seq_dirty; intros ?). apply digits_port_dirty.
Qed.

Lemma length_app (u v : string) :
  String.length (u +:+ v) = String.length u + String.length v.
Proof. induction u as [| a u IH]; [reflexivity |]. rewrite append_cons. simpl. now rewrite IH. Qed.

Lemma drop_app (u v : string) : Str.drop (String.length u) (u +:+ v) = v.
Proof. induction u as [| a u IH]; [now destruct v |]. rewrite append_cons. exact IH. Qed.

(** A text without a binding of the port is left as it is by any
    expression whose matches hold one. *)
Lemma replace_from_clean port r repl :
  (forall w, matches r w -> dirty port w = true) ->
  forall s before, dirty port s = false -> replace_from r repl before 0 s = s.
Proof.
  intros Hr.
  assert (Miss : forall s, dirty port s = false -> exec r s = None).
  { intros s Hs. destruct (exec r s) as [[rest c] |] eqn:E; [| reflexivity].
    apply exec_matches in E as (w & -> & M).
    now rewrite (dirty_app_l _ _ _ (Hr w M)) in Hs. }
  induction s as [| a s IH]; intros before Hs; simpl.
  - now rewrite (Miss _ Hs).
  - rewrite (Miss _ Hs). f_equal. apply IH.
    rewrite dirty_cons in Hs. now apply orb_false_iff in Hs.
Qed.

Lemma starts_with_cons a p b s :
  Str.starts_with (String a p) (String b s) = Ascii.eqb a b && Str.starts_with p s.
Proof. reflexivity. Qed.

Section Rewrite.

Variable r : re.
Variable repl : string.
Variable tail : string.

(** A match reads at least one character. *)
Hypothesis match_reads :
  forall s rest c, exec r s = Some (rest, c) ->
    exists a w, s = String a w +:+ rest.

(** The replacement text has no pattern, and starts with a double
    quote. *)
Hypothesis repl_fixed :
  forall m matched before after c, substitute repl m matched before after c = repl.
Hypothesis repl_quoted : repl = String Str.dquote tail.

(** What the rewrite produces up to the first double quote is a copy
    of its input. *)
Lemma copied_prefix p :
  Str.has_char Str.dquote p = false ->
  forall s before,
    Str.starts_with p (replace_from r repl before 0 s) = true ->
    Str.starts_with p s = true.
Proof.
  induction p as [| b p IH]; intros Hp s before; [reflexivity |].
  change (Ascii.eqb Str.dquote b || Str.has_char Str.dquote p = false) in Hp.
  apply orb_false_iff in Hp as [Hb Hp].
  destruct s as [| a s]; cbn [replace_from].
  - destruct (exec r EmptyString) as [[rest c] |] eqn:E; [| auto].
    apply match_reads in E as (a & w & E). discriminate E.
  - destruct (exec r (String a s)) as [[rest c] |] eqn:E.
    + rewrite repl_fixed, repl_quoted.
      destruct (_ - _); rewrite append_cons, starts_with_cons, Ascii.eqb_sym, Hb;
        discriminate.
    + rewrite !starts_with_cons. intros H. apply andb_prop in H as [-> H].
      simpl. eauto.
Qed.

Variable port : string.

Hypothesis port_plain : Str.has_char Str.dquote (":" +:+ port) = false.

(** No binding of the port lies across an end of the replacement
    text. *)
Hypothesis repl_clean : forall t, dirty port (repl +:+ t) = dirty port t.

(** If every binding of the port that the input holds is inside a
    match, the output holds none. *)
Lemma replace_from_cleans s :
  forall before n,
    (forall u v, Str.drop n s = u +:+ v -> exec r v = None -> hit port v = false) ->
    dirty port (replace_from r repl before n s) = false.
Proof.
  induction s as [| a s IH]; intros before n Hs.
  - destruct n; simpl; [| reflexivity].
    destruct (exec r EmptyString) as [[rest c] |] eqn:E; [| reflexivity].
    apply match_reads in E as (a & w & E). discriminate E.
  - destruct n as [| n]; [| simpl; apply IH; exact Hs].
    cbn [replace_from]. destruct (exec r (String a s)) as [[rest c] |] eqn:E.
    + rewrite repl_fixed.
      destruct (match_reads _ _ _ E) as (a' & w & Ew).
      rewrite append_cons in Ew. injection Ew as <- ->.
      replace (String.length (String a (w +:+ rest)) - String.length rest)
        with (S (String.length w)) by (simpl; rewrite length_app; lia).
      cbv iota.
      rewrite repl_clean. apply IH. rewrite drop_app.
      intros u v -> Hv. apply (Hs (String a w +:+ u) v); [| exact Hv].
      simpl Str.drop. now rewrite !append_cons, append_assoc.
    + rewrite dirty_cons. apply orb_false_iff. split.
      * unfold hit. destruct (Str.is_digit a) eqn:Hd; [| reflexivity].
        rewrite andb_true_l.
        destruct (Str.starts_with _ (replace_from _ _ _ _ _)) eqn:Hp; [| reflexivity].
        apply (copied_prefix _ port_plain) in Hp.
        rewrite <- (Hs EmptyString (String a s) eq_refl E). unfold hit.
        now rewrite Hd, Hp.
      * apply IH. intros u v Hu Hv. apply (Hs (String a u) v); [| exact Hv].
        simpl in *. now rewrite Hu.
Qed.

End Rewrite.

Lemma digit_not_quote a : Str.is_digit a = true -> Str.is_quote a = false.
Proof. destruct a as [[] [] [] [] [] [] [] []]; try discriminate; reflexivity. Qed.

Lemma binding_reads port s rest c :
  exec (binding port) s = Some (rest, c) -> exists a w, s = String a w +:+ rest.
Proof.
  intros E. apply exec_matches in E as (w & -> & M).
  apply binding_dirty in M. destruct w as [| a w]; [discriminate M |]. eauto.
Qed.

Lemma iterate_stops step k fuel s c :
  (forall k', step k' s c = None) -> iterate step k fuel s c = k s c.
Proof. intros H. destruct fuel; simpl; [reflexivity |]. now rewrite H. Qed.

(** The expression of a binding matches wherever a digit, a colon and
    the port stand. *)
Lemma binding_complete port v : hit port v = true -> exec (binding port) v <> None.
Proof.
  destruct v as [| a s]; [discriminate |]. unfold hit.
  intros H. apply andb_prop in H as [Hd Hs].
  apply starts_with_strip in Hs as [rest ->].
  unfold exec, binding, seqs, quote, digit. cbn [run].
  rewrite (digit_not_quote _ Hd), Hd.
  rewrite iterate_stops by reflexivity.
  rewrite strip_append.
  destruct rest as [| b rest]; [discriminate |].
  destruct (Str.is_quote b); discriminate.
Qed.

Lemma substituted_fixed name port m matched before after c :
  In (name, port) table ->
  substitute (substituted name port) m matched before after c = substituted name port.
Proof.
  intros H. simpl in H.
  repeat (destruct H as [H | H]; [injection H as <- <-; reflexivity |]).
  contradiction.
Qed.

Lemma substituted_clean name port other t :
  In (name, port) table -> In other ports ->
  dirty other (substituted name port +:+ t) = dirty other t.
Proof.
  intros H H'. simpl in H, H'.
  repeat (destruct H as [H | H]; [injection H as <- <- |]); try contradiction;
    repeat (destruct H' as [H' | H']; [subst other |]); try contradiction;
    vm_compute; reflexivity.
Qed.

Lemma ports_plain port : In port ports -> Str.has_char Str.dquote (":" +:+ port) = false.
Proof.
  intros H. simpl in H.
  repeat (destruct H as [H | H]; [subst port; reflexivity |]). contradiction.
Qed.

Lemma table_ports name port : In (name, port) table -> In port ports.
Proof. intros H. apply (in_map snd) in H. exact H. Qed.

(** After the rewrite of the bindings of a port the text holds none of
    them. *)
Lemma binding_cleans name port s :
  In (name, port) table ->
  dirty port (replace_all (binding port) (substituted name port) s) = false.
Proof.
  intros H. unfold replace_all.
  eapply (replace_from_cleans (binding port) (substituted name port)).
  - apply binding_reads.
  - intros. now apply substituted_fixed.
  - reflexivity.
  - apply ports_plain. now apply table_ports in H.
  - intros t. apply substituted_clean; [exact H | now apply table_ports in H].
  - intros u v _ Hv. destruct (hit port v) eqn:Hh; [| reflexivity].
    now apply binding_complete in Hh.
Qed.

(** The rewrite of the bindings of one port brings in no binding of
    another. *)
Lemma binding_keeps name port other s :
  In (name, port) table -> In other ports ->
  dirty other s = false ->
  dirty other (replace_all (binding port) (substituted name port) s) = false.
Proof.
  intros H H' Hs. unfold replace_all.
  eapply (replace_from_cleans (binding port) (substituted name port)).
  - apply binding_reads.
  - intros. now apply substituted_fixed.
  - reflexivity.
  - now apply ports_plain.
  - intros t. now apply substituted_clean.
  - intros u v Hu _. simpl in Hu. subst s. apply dirty_suffix in Hs.
    destruct (hit other v) eqn:Hh; [| reflexivity].
    apply hit_dirty in Hh. congruence.
Qed.

Lemma portsBlock_idle port repl s :
  dirty port s = false -> replace_all (portsBlock port) repl s = s.
Proof. apply replace_from_clean. apply portsBlock_dirty. Qed.

Lemma binding_idle port repl s :
  dirty port s = false -> replace_all (binding port) repl s = s.
Proof. apply replace_from_clean. apply binding_dirty. Qed.

(** What [fixPortMappings] returns holds no binding of its ports. *)
Lemma fixPortMappings_cleans s : clean (fixPortMappings s).
Proof.
  intros port Hp. unfold fixPortMappings. cbv zeta. simpl in Hp.
  repeat (destruct Hp as [Hp | Hp]; [subst port |]); try contradiction;
    repeat first
      [ apply binding_cleans; simpl; tauto
      | apply binding_keeps; [simpl; tauto | simpl; tauto |] ].
Qed.

(** A text that holds no binding of its ports is a fixed point of
    [fixPortMappings]. *)
Lemma fixPortMappings_idle s : clean s -> fixPortMappings s = s.
Proof.
  intros H. unfold fixPortMappings. cbv zeta.
  rewrite (portsBlock_idle "3000" _ s) by (apply H; simpl; tauto).
  rewrite (portsBlock_idle "4000" _ s) by (apply H; simpl; tauto).
  rewrite (portsBlock_idle "5050" _ s) by (apply H; simpl; tauto).
  rewrite (portsBlock_idle "8123" _ s) by (apply H; simpl; tauto).
  rewrite (portsBlock_idle "8443" _ s) by (apply H; simpl; tauto).
  rewrite (portsBlock_idle "9000" _ s) by (apply H; simpl; tauto).
  rewrite (binding_idle "3000" _ s) by (apply H; simpl; tauto).
  rewrite (binding_idle "4000" _ s) by (apply H; simpl; tauto).
  rewrite (binding_idle "5050" _ s) by (apply H; simpl; tauto).
  rewrite (binding_idle "8123" _ s) by (apply H; simpl; tauto).
  rewrite (binding_idle "8443" _ s) by (apply H; simpl; tauto).
  apply binding_idle. apply H. simpl. tauto.
Qed.

End PatcherFacts.

Module PatcherScene.
Import Patcher.

(** The mount line of the metrics collector, twice. *)
Definition twoMounts : string := prometheusMount +:+ Str.NL +:+ prometheusMount.

(** A network block with the [external] flag set twice. *)
Definition twoFlags : string :=
  "networks:
  ar-io-network:
    external: true
    external: true".

(** A [volumes:] key right below another. *)
Definition twoVolumes : string :=
  "volumes:
volumes:
x".

(** A manifest of the metrics services as the repository of the node
    ships it, in short. *)
Definition grafanaManifest : string :=
  "services:
  prometheus:
    image: prom/prometheus
    ports:
      - 9090:9090
    volumes:
      - ./prometheus.yml:/etc/prometheus/prometheus.yml
    networks:
      - ar-io-network
  grafana:
    image: grafana/grafana
    ports:
      - '1024:3000'
    networks:
      - ar-io-network
networks:
  ar-io-network:
    external: true
".

End PatcherScene.

Module PatcherTheorems.
Import Regex Patcher PatcherFacts PatcherScene.

(** C3, as the specification states it, fails for the structural fixes
    of the Grafana manifest: the mount line is removed once per
    application, a second [external] flag is removed by the second
    application, and so is a [volumes:] key that the first application
    uncovers. *)
Lemma grafana_fixes_are_not_idempotent :
  (fixGrafanaCompose twoMounts = Str.NL +:+ prometheusMount /\
   fixGrafanaCompose (fixGrafanaCompose twoMounts) = Str.NL) /\
  (fixGrafanaCompose twoFlags =
     "networks:
  ar-io-network:
    external: true" /\
   fixGrafanaCompose (fixGrafanaCompose twoFlags) =
     "networks:
  ar-io-network:") /\
  (fixGrafanaCompose twoVolumes =
     "
volumes:
x" /\
   fixGrafanaCompose (fixGrafanaCompose twoVolumes) =
     "
x") /\
  fixGrafanaCompose (fixGrafanaCompose twoMounts) <> fixGrafanaCompose twoMounts.
Proof. vm_compute. repeat split; discriminate. Qed.

(** C3, amended. The port-mapping rewrite is idempotent: for every
    text, applying [fixPortMappings] twice gives what applying it once
    gives, and a substituted binding, alone or in its [ports:] block,
    is not rewritten again. *)
Theorem port_rewrite_is_idempotent (composeContent : string) :
  fixPortMappings (fixPortMappings composeContent) = fixPortMappings composeContent /\
  Forall (fun entry =>
            fixPortMappings (substituted (fst entry) (snd entry)) =
              substituted (fst entry) (snd entry) /\
            fixPortMappings (substitutedBlock (fst entry) (snd entry)) =
              substitutedBlock (fst entry) (snd entry))
         table.
Proof.
  split.
  - apply fixPortMappings_idle, fixPortMappings_cleans.
  - repeat constructor; vm_compute; reflexivity.
Qed.

(** On the manifest of the metrics services the whole rewrite is
    idempotent. *)
Example grafana_manifest_is_fixed_once :
  fixGrafanaCompose (fixGrafanaCompose grafanaManifest) = fixGrafanaCompose grafanaManifest.
Proof. vm_compute. reflexivity. Qed.

End PatcherTheorems.

(** ** What a handler never does *)

Module HandlerFacts.
Import Server ProgFacts DeployFacts ProvisionFacts.

Section Avoiding.

(** The commands to avoid, and a view of the state that every other
    command leaves as it is. *)
Variable bad : forall X, Cmd X -> bool.
Variable T : Type.
Variable view : State -> T.

Hypothesis view_kept :
  forall env X (c : Cmd X) st, bad X c = false -> view (fst (perform env c st)) = view st.

(** A program none of whose commands is one to avoid. *)
Inductive avoids {A : Type} : Prog A -> Prop :=
| avoids_ret a : avoids (Ret a)
| avoids_throw msg : avoids (Throw msg)
| avoids_vis X (c : Cmd X) k :
    bad X c = false -> (forall x, avoids (k x)) -> avoids (Vis c k).

Lemma avoids_bind {A B} (p : Prog A) (f : A -> Prog B) :
  avoids p -> (forall a, avoids (f a)) -> avoids (bind p f).
Proof.
  intros Hp Hf. induction Hp; simpl; auto using @avoids_throw.
  apply avoids_vis; auto.
Qed.

Lemma avoids_try_catch {A} (p : Prog A) (h : string -> Prog A) :
  avoids p -> (forall msg, avoids (h msg)) -> avoids (try_catch p h).
Proof.
  intros Hp Hh. induction Hp; simpl; auto using @avoids_ret.
  apply avoids_vis; auto.
Qed.

Lemma avoids_mkdirs dirs :
  (forall dir, bad _ (Mkdir dir) = false) -> avoids (mkdirs dirs).
Proof.
  intros H. induction dirs as [| dir dirs IH]; simpl; [constructor |].
  apply avoids_vis; [apply H |]. intros [[] | msg]; simpl; [exact IH | constructor].
Qed.

Lemma interp_avoids env {A} (p : Prog A) :
  avoids p -> forall st, view (fst (interp env p st)) = view st.
Proof.
  induction 1 as [a | msg | X c k Hc Hk IH]; intros st; simpl; try reflexivity.
  pose proof (view_kept env X c st Hc) as Hp.
  destruct (perform env c st) as [s x]. simpl in Hp. now rewrite IH.
Qed.

End Avoiding.

Ltac avoids_auto :=
  repeat first
    [ apply avoids_ret
    | apply avoids_throw
    | apply avoids_mkdirs; intros ?; reflexivity
    | apply avoids_bind; [| intros ?]
    | apply avoids_try_catch; [| intros ?]
    | apply avoids_vis; [reflexivity | intros ?]
    | match goal with
      | |- avoids _ (if ?b then _ else _) => destruct b
      | |- avoids _ (match ?x with _ => _ end) => destruct x
      end ].

Ltac open_handlers :=
  unfold deployTry, startServices, selectServices, include, tearDown,
    writeModuleEnvFiles, deriveBundlerAddress, writeSupportFiles, writeValue,
    writeEnvFile, patchComposeFiles, patchFile, fetchDashboardFiles, download,
    provisionRepository, updateRepository, cloneRepository, resolveLatestTag,
    preDeriveBundlerAddress, postDeploymentFixes, onDeployClose, onDeployData,
    getStatus, pathExists, liftResult, when, appendLog, attempt, call.

(** A program that cannot end in an exception: it has no [throw] that
    is not caught. *)
Inductive nothrow {A : Type} : Prog A -> Prop :=
| nothrow_ret a : nothrow (Ret a)
| nothrow_vis X (c : Cmd X) k : (forall x, nothrow (k x)) -> nothrow (Vis c k).

Lemma nothrow_bind {A B} (p : Prog A) (f : A -> Prog B) :
  nothrow p -> (forall a, nothrow (f a)) -> nothrow (bind p f).
Proof. intros Hp Hf. induction Hp; simpl; auto. apply nothrow_vis; auto. Qed.

Lemma nothrow_try_catch {A} (p : Prog A) (h : string -> Prog A) :
  (forall msg, nothrow (h msg)) -> nothrow (try_catch p h).
Proof.
  intros Hh. induction p as [a | msg | X c k IH]; simpl; auto using @nothrow_ret.
  apply nothrow_vis; auto.
Qed.

Lemma interp_nothrow env {A} (p : Prog A) :
  nothrow p -> forall st, exists a, snd (interp env p st) = Ok a.
Proof.
  induction 1 as [a | X c k Hk IH]; intros st; simpl; [eauto |].
  destruct (perform env c st) as [s x]. apply IH.
Qed.

Ltac nothrow_auto :=
  repeat first
    [ apply nothrow_ret
    | apply nothrow_try_catch; intros ?
    | apply nothrow_bind; [| intros ?]
    | apply nothrow_vis; intros ?
    | match goal with
      | |- nothrow (if ?b then _ else _) => destruct b
      | |- nothrow (match ?x with _ => _ end) => destruct x
      end ].

(** A program whose failures come before any child is spawned or
    tracked. *)
Definition quiet {A : Type} (p : Prog A) : Prop :=
  forall env st st' msg, interp env p st = (st', Err msg) -> kept st st'.

Lemma quiet_bind {A B} (p : Prog A) (f : A -> Prog B) :
  childless p -> (forall a, quiet (f a)) -> quiet (bind p f).
Proof.
  intros Hp Hf env st st' msg. rewrite interp_bind.
  pose proof (interp_childless env p Hp st) as K.
  destruct (interp env p st) as [s [a | m]]; simpl in K.
  - intros H. eapply kept_trans; [exact K | eapply Hf; exact H].
  - intros [= <- _]. exact K.
Qed.

Lemma quiet_nothrow {A} (p : Prog A) : nothrow p -> quiet p.
Proof.
  intros Hp env st st' msg H. destruct (interp_nothrow env p Hp st) as [a Ha].
  rewrite H in Ha. discriminate Ha.
Qed.

Lemma childless_mkdirs dirs : childless (mkdirs dirs).
Proof.
  induction dirs as [| dir dirs IH]; simpl; [constructor |].
  apply childless_vis; [reflexivity |]. intros [[] | msg]; simpl; [exact IH | constructor].
Qed.

Ltac childless_more :=
  repeat first
    [ apply childless_mkdirs
    | apply childless_ret
    | apply childless_throw
    | apply childless_bind; [| intros ?]
    | apply childless_try_catch; [| intros ?]
    | apply childless_vis; [reflexivity | intros ?]
    | match goal with
      | |- childless (if ?b then _ else _) => destruct b
      | |- childless (match ?x with _ => _ end) => destruct x
      end ].

Lemma childless_fetchDashboardFiles c : childless (fetchDashboardFiles c).
Proof. open_handlers. childless_more. Qed.

Lemma childless_patchComposeFiles c : childless (patchComposeFiles c).
Proof. open_handlers. childless_more. Qed.

Lemma childless_writeEnvFile content : childless (writeEnvFile content).
Proof. open_handlers. childless_more. Qed.

Lemma childless_writeSupportFiles c files : childless (writeSupportFiles c files).
Proof. open_handlers. childless_more. Qed.

Lemma childless_writeModuleEnvFiles c : childless (writeModuleEnvFiles c).
Proof. open_handlers. childless_more. Qed.

Lemma childless_tearDown c files : childless (tearDown c files).
Proof. open_handlers. childless_more. Qed.

Lemma nothrow_startServices c files : nothrow (startServices c files).
Proof. open_handlers. nothrow_auto. Qed.

(** The [try] block of [POST /deploy] throws only before it spawns. *)
Lemma quiet_deployTry c : quiet (deployTry c).
Proof.
  unfold deployTry.
  apply quiet_bind; [apply childless_appendLog | intros _].
  apply quiet_bind; [open_handlers; childless_more | intros _].
  apply quiet_bind; [apply childless_preDerive | intros c1].
  apply quiet_bind; [open_handlers; childless_more | intros envContent].
  apply quiet_bind; [apply childless_appendLog | intros _].
  apply quiet_bind; [apply childless_appendLog | intros _].
  apply quiet_bind; [apply childless_resolveLatestTag | intros tag].
  apply quiet_bind; [apply childless_provision | intros _].
  apply quiet_bind; [apply childless_appendLog | intros _].
  apply quiet_bind; [apply childless_fetchDashboardFiles | intros _].
  apply quiet_bind; [apply childless_patchComposeFiles | intros files].
  apply quiet_bind; [apply childless_writeEnvFile | intros _].
  apply quiet_bind; [apply childless_writeSupportFiles | intros files'].
  apply quiet_bind; [apply childless_writeModuleEnvFiles | intros c2].
  apply quiet_bind; [apply childless_tearDown | intros _].
  apply quiet_nothrow, nothrow_startServices.
Qed.

Lemma deployTry_started env c st st' r :
  interp env (deployTry c) st = (st', Ok r) -> r = json BStarted.
Proof.
  intros H. apply deployTry_ok in H as (c1 & content & files & c2 & sa & sb & sc & sd & se & H).
  destruct H as (_ & _ & _ & _ & _ & _ & _ & H).
  destruct (interp_startServices env c2 files se) as (s & E & _). congruence.
Qed.

(** The commands that assign [deploymentCancelled]. *)
Definition sets_cancelled (X : Type) (c : Cmd X) : bool :=
  match c with SetCancelled _ => true | _ => false end.

Lemma cancelled_kept env X (c : Cmd X) st :
  sets_cancelled X c = false ->
  deploymentCancelled (fst (perform env c st)) = deploymentCancelled st.
Proof. destruct c; simpl; intros H; try discriminate H; reflexivity. Qed.

(** The calls of [kill]. *)
Definition kills (X : Type) (c : Cmd X) : bool :=
  match c with Kill _ _ => true | _ => false end.

Definition is_kill (a : Action) : bool :=
  match a with AKill _ _ => true | _ => false end.

Definition killed (st : State) : list Action := List.filter is_kill (history st).

Lemma killed_kept env X (c : Cmd X) st :
  kills X c = false -> killed (fst (perform env c st)) = killed st.
Proof.
  unfold killed. destruct c; simpl; intros H; try discriminate H; try reflexivity;
    rewrite List.filter_app; simpl; apply app_nil_r.
Qed.

Lemma fst_step env e st : fst (step env e st) = fst (interp env (handler e st) st).
Proof. unfold step. now destruct (interp env (handler e st) st) as [s [r | m]]. Qed.

Lemma nothing_added {A} (f : A -> bool) (l h : list A) :
  List.filter f (l ++ h) = List.filter f l -> forallb (fun a => negb (f a)) h = true.
Proof.
  rewrite List.filter_app. intros H.
  assert (E : List.filter f h = []).
  { apply (app_inv_head (List.filter f l)). now rewrite app_nil_r. }
  clear H. induction h as [| a h IH]; [reflexivity |].
  simpl in E |- *. destruct (f a); [discriminate E |]. simpl. auto.
Qed.

Lemma run_history env es st : exists h, history (run env es st) = history st ++ h.
Proof. destruct (run_extends env es st) as (_ & H & _). exact H. Qed.

(** The events other than a deployment request with a configuration. *)
Definition redeploys (e : Event) : bool :=
  match e with PostDeploy (Some _) => true | _ => false end.

Definition is_cancel (e : Event) : bool :=
  match e with PostCancel => true | _ => false end.

Lemma deploy_avoids_cancel_after_reset c :
  avoids sets_cancelled
    (config ← preDeriveBundlerAddress c;
     envContent ← liftResult (EnvFile.buildEnvFile config);
     appendLog ("Using deployment directory: " +:+ deployDir) ;;
     appendLog "Repository will be updated if it exists, or cloned if it does not exist" ;;
     latestTag ← resolveLatestTag;
     provisionRepository latestTag ;;
     appendLog "Setting up deployment directory..." ;;
     fetchDashboardFiles config ;;
     composeFiles ← patchComposeFiles config;
     writeEnvFile envContent ;;
     composeFiles ← writeSupportFiles config composeFiles;
     config ← writeModuleEnvFiles config;
     tearDown config composeFiles ;;
     startServices config composeFiles).
Proof. open_handlers. avoids_auto. Qed.

Lemma handler_avoids_reset e st :
  redeploys e = false -> is_cancel e = false -> avoids sets_cancelled (handler e st).
Proof.
  destruct e as [[c |] | | | | p d | p d | p code]; try discriminate; intros _ _; simpl;
    try destruct (childOf p (children st)) as [[c args |] |];
    unfold deploy; open_handlers; avoids_auto.
Qed.

Lemma handler_avoids_kill e st : is_cancel e = false -> avoids kills (handler e st).
Proof.
  destruct e as [[c |] | | | | p d | p d | p code]; try discriminate; intros _; simpl;
    try destruct (childOf p (children st)) as [[c' args |] |];
    unfold deploy; open_handlers; avoids_auto.
Qed.

Lemma cancel_sets_flag env st : deploymentCancelled (fst (step env PostCancel st)) = true.
Proof.
  unfold step, handler, cancel. simpl.
  destruct (currentDeploymentProcess st) as [cp |]; simpl; [| reflexivity].
  destruct (killChild env (history st) cp "SIGTERM"); reflexivity.
Qed.

Lemma flag_stays_set env e st :
  redeploys e = false -> deploymentCancelled st = true ->
  deploymentCancelled (fst (step env e st)) = true.
Proof.
  intros He Hs. destruct (is_cancel e) eqn:Hc.
  - destruct e; try discriminate Hc. apply cancel_sets_flag.
  - rewrite fst_step.
    rewrite (interp_avoids sets_cancelled _ deploymentCancelled cancelled_kept env _
               (handler_avoids_reset e st He Hc)).
    exact Hs.
Qed.

Lemma nothrow_postDeploymentFixes c args : nothrow (postDeploymentFixes c args).
Proof. unfold postDeploymentFixes. apply nothrow_try_catch. intros msg. open_handlers. nothrow_auto. Qed.

(** The handler of [close] cannot fail, and ends with no process
    tracked. *)
Lemma interp_onDeployClose env c args code st :
  exists s,
    interp env (onDeployClose c args code) st = (s, Ok tt) /\
    currentDeploymentProcess s = None.
Proof.
  unfold onDeployClose. rewrite interp_bind. cbn [interp call perform].
  rewrite interp_bind.
  match goal with
  | |- context [interp env ?q st] =>
      assert (N : nothrow q)
        by (destruct (deploymentCancelled st);
            [ open_handlers; nothrow_auto
            | apply nothrow_bind;
              [ open_handlers; nothrow_auto
              | intros _; destruct (exited_zero code);
                [ apply nothrow_postDeploymentFixes | apply nothrow_ret ] ] ]);
      destruct (interp_nothrow env q N st) as [a Ha];
      destruct (interp env q st) as [s1 r]
  end.
  simpl in Ha. subst r. eexists. split; [destruct a; reflexivity | reflexivity].
Qed.

(** A line of the shape that [appendLog] writes. *)
Definition stamped (line : string) : Prop :=
  exists t msg, line = "[" +:+ t +:+ "] " +:+ msg.

Lemma interp_stamped env {A} (p : Prog A) st :
  Forall stamped (deploymentLogs st) ->
  Forall stamped (deploymentLogs (fst (interp env p st))).
Proof.
  revert st. induction p as [a | msg | X c k IH]; intros st H; simpl; try exact H.
  assert (Hp : Forall stamped (deploymentLogs (fst (perform env c st)))).
  { destruct c; simpl; try exact H.
    apply Forall_app. split; [exact H |]. constructor; [| constructor].
    unfold logLine. eexists. eexists. reflexivity. }
  destruct (perform env c st) as [s x]. apply IH. exact Hp.
Qed.

Lemma step_started env c st st' :
  step env (PostDeploy (Some c)) st = (st', Some (json BStarted)) ->
  interp env (deployTry c) st = (st', Ok (json BStarted)).
Proof.
  unfold step, handler, deploy. rewrite interp_bind, interp_try_catch.
  destruct (interp env (deployTry c) st) as [s [r | msg]] eqn:E; simpl.
  - intros [= -> ->]. reflexivity.
  - discriminate.
Qed.

Lemma interp_writeEnvFile env content st st' :
  interp env (writeEnvFile content) st = (st', Ok tt) ->
  history st' =
    history st ++ [AUnlink (deployDir +:+ "/.env"); AWriteFile (deployDir +:+ "/.env") content].
Proof.
  unfold writeEnvFile. simpl.
  destruct (fsUnlink env (history st) _); simpl;
    destruct (fsWriteFile env _ _ content); simpl; try discriminate;
    intros [= <-]; simpl; now rewrite <- app_assoc.
Qed.

(** A program that, when it returns, returns [v]. *)
Inductive returns {A : Type} (v : A) : Prog A -> Prop :=
| returns_ret : returns v (Ret v)
| returns_throw msg : returns v (Throw msg)
| returns_vis X (c : Cmd X) k : (forall x, returns v (k x)) -> returns v (Vis c k).

Lemma returns_bind {A B} (v : B) (p : Prog A) (f : A -> Prog B) :
  (forall a, returns v (f a)) -> returns v (bind p f).
Proof.
  intros Hf. induction p as [a | msg | X c k IH]; simpl; auto using returns_throw.
  apply returns_vis. auto.
Qed.

Lemma interp_returns env {A} (v : A) (p : Prog A) :
  returns v p -> forall st st' x, interp env p st = (st', Ok x) -> x = v.
Proof.
  induction 1 as [| msg | X c k Hk IH]; intros st st' x; simpl.
  - now intros [= _ <-].
  - discriminate.
  - destruct (perform env c st) as [s y]. apply IH.
Qed.

Ltac returns_auto :=
  repeat first
    [ apply returns_ret
    | apply returns_throw
    | apply returns_bind; intros ?
    | apply returns_vis; intros ? ].

(** The manifest fragments before the override: the main one, then
    one per enabled module; the fragment of the admin dashboard only
    when its file is there. *)
Definition fragments (c : Config) (dashboardPresent : bool) : list string :=
  let docker := dockerConfig c in
  ["docker-compose.yaml"] ++
  (if truthy (docker !! "enableAoCu") then ["docker-compose.ao.yaml"] else []) ++
  (if truthy (docker !! "enableBundler") then ["docker-compose.bundler.yaml"] else []) ++
  (if truthy (docker !! "enableGrafana") then ["docker-compose.grafana.yaml"] else []) ++
  (if truthy (docker !! "enableDashboard") && dashboardPresent
   then ["docker-compose.dashboard.yml"] else []).

Lemma fragments_same c c' present :
  same_settings c c' -> fragments c' present = fragments c present.
Proof. intros (_ & D & _). unfold fragments. now rewrite D. Qed.

Ltac ends_with H v :=
  match type of H with
  | interp ?env ?p ?s = (_, Ok ?x) =>
      let R := fresh "R" in
      assert (R : returns v p) by (open_handlers; returns_auto);
      pose proof (interp_returns env v p R _ _ _ H); subst x; clear R
  end.

Lemma patchComposeFiles_result env c st st' files :
  interp env (patchComposeFiles c) st = (st', Ok files) ->
  exists dashboardPresent, files = fragments c dashboardPresent.
Proof.
  intros H. unfold patchComposeFiles in H.
  chain H. chain H. chain H.
  chain H.
  assert (F1 : x2 = ["docker-compose.yaml"] ++
                    (if truthy (dockerConfig c !! "enableAoCu")
                     then ["docker-compose.ao.yaml"] else [])).
  { destruct (truthy (dockerConfig c !! "enableAoCu")).
    - ends_with E2 (["docker-compose.yaml"] ++ ["docker-compose.ao.yaml"]). reflexivity.
    - ends_with E2 ["docker-compose.yaml"]. reflexivity. }
  chain H.
  assert (F2 : x3 = x2 ++
                    (if truthy (dockerConfig c !! "enableBundler")
                     then ["docker-compose.bundler.yaml"] else [])).
  { destruct (truthy (dockerConfig c !! "enableBundler")).
    - ends_with E3 (x2 ++ ["docker-compose.bundler.yaml"]). reflexivity.
    - ends_with E3 x2. now rewrite app_nil_r. }
  chain H.
  assert (F3 : x4 = x3 ++
                    (if truthy (dockerConfig c !! "enableGrafana")
                     then ["docker-compose.grafana.yaml"] else [])).
  { destruct (truthy (dockerConfig c !! "enableGrafana")).
    - ends_with E4 (x3 ++ ["docker-compose.grafana.yaml"]). reflexivity.
    - ends_with E4 x3. now rewrite app_nil_r. }
  chain H.
  assert (F4 : exists present,
             x5 = x4 ++
                  (if truthy (dockerConfig c !! "enableDashboard") && present
                   then ["docker-compose.dashboard.yml"] else [])).
  { destruct (truthy (dockerConfig c !! "enableDashboard")).
    - rewrite interp_bind, interp_pathExists in E5.
      destruct (fsAccess env (history s4) _).
      + exists false. ends_with E5 x4. now rewrite app_nil_r.
      + exists true. ends_with E5 (x4 ++ ["docker-compose.dashboard.yml"]). reflexivity.
    - exists false. ends_with E5 x4. now rewrite app_nil_r. }
  destruct F4 as [present F4]. exists present.
  ends_with H x5. subst. unfold fragments. now rewrite <- !app_assoc.
Qed.

Lemma writeSupportFiles_result env c files st st' files' :
  interp env (writeSupportFiles c files) st = (st', Ok files') ->
  files' = files ++ ["docker-compose.override.yaml"].
Proof. intros H. ends_with H (files ++ ["docker-compose.override.yaml"]). reflexivity. Qed.

Lemma writeModuleEnvFiles_result env c st st' c' :
  interp env (writeModuleEnvFiles c) st = (st', Ok c') -> same_settings c c'.
Proof.
  unfold writeModuleEnvFiles. rewrite interp_bind.
  destruct (interp env _ st) as [s1 [[] | m]]; [| discriminate].
  destruct (truthy (dockerConfig c !! "enableBundler")).
  - rewrite interp_bind.
    destruct (interp env (deriveBundlerAddress _) s1) as [s2 [a | m]]; [| discriminate].
    intros H. ends_with H (setDashboard c "BUNDLER_ARWEAVE_ADDRESS" a).
    apply same_settings_set.
  - simpl. intros [= _ <-]. apply same_settings_refl.
Qed.

(** The manifest fragments and the configuration that the start of
    the stack receives. *)
Lemma deployTry_files env c st st' r :
  interp env (deployTry c) st = (st', Ok r) ->
  exists c2 dashboardPresent se,
    same_settings c c2 /\
    interp env
      (startServices c2 (fragments c dashboardPresent ++ ["docker-compose.override.yaml"]))
      se = (st', Ok r).
Proof.
  intros H. unfold deployTry in H.
  chain H. chain H.
  rewrite interp_bind in H.
  destruct (interp_preDerive env c s0) as (s1 & c1 & E1 & S1 & W1).
  rewrite E1 in H.
  rewrite interp_bind, interp_liftResult in H.
  destruct (EnvFile.buildEnvFile c1) as [envContent | msg]; [| discriminate H].
  chain H. chain H. chain H. chain H. chain H. chain H. chain H.
  chain H. chain H. chain H. chain H.
  repeat match goal with
  | E : interp env (patchComposeFiles _) _ = _ |- _ =>
      apply patchComposeFiles_result in E; destruct E as [present ->]
  | E : interp env (writeSupportFiles _ _) _ = _ |- _ =>
      apply writeSupportFiles_result in E; subst
  | E : interp env (writeModuleEnvFiles _) _ = _ |- _ =>
      apply writeModuleEnvFiles_result in E
  end.
  rewrite (fragments_same _ _ present S1) in H.
  eexists. exists present. eexists. split; [| exact H].
  eapply same_settings_trans; eassumption.
Qed.

(** ** When the outside world obliges *)

(** Every fetch is answered, every file can be read and written,
    every directory made, and a clone exits with code zero. *)
Definition obliging (env : Env) : Prop :=
  (forall h url, exists r, fetch env h url = Ok r) /\
  (forall h path, exists content, fsReadFile env h path = Ok content) /\
  (forall h path content, fsWriteFile env h path content = None) /\
  (forall h path, fsMkdir env h path = None) /\
  (forall h tag, exited_zero (fst (runToClose env h "git" (cloneCommand tag))) = true).

Definition is_true (v : option jsval) : bool :=
  match v with Some (JBool true) => true | _ => false end.

(** The three settings that the request treats as text are not the
    boolean [true]. *)
Definition textual (c : Config) : bool :=
  negb (is_true (nodeConfig c !! "ADDITIONAL_ENV")) &&
  negb (is_true (nodeConfig c !! "OBSERVER_JWK")) &&
  negb (is_true (dashboardConfig c !! "ADDITIONAL_AO_CU_ENV")).

Lemma textual_same c c' : same_settings c c' -> textual c' = textual c.
Proof.
  intros (N & _ & A). unfold textual. rewrite N.
  now rewrite (A "ADDITIONAL_AO_CU_ENV") by discriminate.
Qed.

(** A program that ends without an exception in the world [env]. *)
Definition passes (env : Env) {A : Type} (p : Prog A) : Prop :=
  forall st, exists s a, interp env p st = (s, Ok a).

Lemma passes_bind env {A B} (p : Prog A) (f : A -> Prog B) :
  passes env p -> (forall a, passes env (f a)) -> passes env (bind p f).
Proof.
  intros Hp Hf st. rewrite interp_bind.
  destruct (Hp st) as (s & a & ->). apply Hf.
Qed.

Lemma passes_nothrow env {A} (p : Prog A) : nothrow p -> passes env p.
Proof.
  intros Hp st. destruct (interp_nothrow env p Hp st) as [a Ha].
  destruct (interp env p st) as [s r]. simpl in Ha. subst r. eauto.
Qed.

Section Obliging.

Variable env : Env.
Hypothesis world : obliging env.

Lemma passes_fetch url : passes env (attempt (Fetch url)).
Proof.
  intros st. destruct world as (F & _). destruct (F (history st) url) as [r Hr].
  simpl. rewrite Hr. eauto.
Qed.

Lemma passes_read path : passes env (attempt (ReadFile path)).
Proof.
  intros st. destruct world as (_ & R & _). destruct (R (history st) path) as [r Hr].
  simpl. rewrite Hr. eauto.
Qed.

Lemma passes_write path content : passes env (attempt (WriteFile path content)).
Proof.
  intros st. destruct world as (_ & _ & W & _). simpl. rewrite W. simpl. eauto.
Qed.

Lemma passes_mkdir path : passes env (attempt (Mkdir path)).
Proof.
  intros st. destruct world as (_ & _ & _ & M & _). simpl. rewrite M. simpl. eauto.
Qed.

Lemma passes_mkdirs dirs : passes env (mkdirs dirs).
Proof.
  induction dirs as [| dir dirs IH].
  - intros st. simpl. eauto.
  - change (mkdirs (dir :: dirs)) with (bind (attempt (Mkdir dir)) (fun _ => mkdirs dirs)).
    apply passes_bind; [apply passes_mkdir | intros _; exact IH].
Qed.

Lemma passes_clone tag : passes env (cloneRepository tag).
Proof.
  intros st. destruct world as (_ & _ & _ & _ & C). unfold cloneRepository. simpl.
  match goal with |- context [runToClose env ?h "git" ?a] =>
    specialize (C h tag); destruct (runToClose env h "git" a) as [code out] end.
  simpl in C. rewrite C. simpl. eauto.
Qed.

Ltac passes_auto :=
  repeat first
    [ apply passes_fetch
    | apply passes_read
    | apply passes_write
    | apply passes_mkdir
    | apply passes_mkdirs
    | apply passes_clone
    | apply passes_nothrow; solve [open_handlers; nothrow_auto]
    | apply passes_bind; [| intros ?]
    | match goal with
      | |- passes _ (if ?b then _ else _) => destruct b
      | |- passes _ (when ?b _) => destruct b; unfold when
      end ].

Lemma passes_resolveLatestTag : passes env resolveLatestTag.
Proof. unfold resolveLatestTag. passes_auto. Qed.

Lemma passes_provision tag : passes env (provisionRepository tag).
Proof. unfold provisionRepository. passes_auto. Qed.

Lemma passes_patchComposeFiles c : passes env (patchComposeFiles c).
Proof. unfold patchComposeFiles, patchFile. passes_auto. Qed.

Lemma passes_writeEnvFile content : passes env (writeEnvFile content).
Proof. unfold writeEnvFile. passes_auto. Qed.

Lemma passes_writeSupportFiles c files :
  textual c = true -> passes env (writeSupportFiles c files).
Proof.
  intros H. unfold textual in H. apply andb_prop in H as [H _]. apply andb_prop in H as [_ H].
  unfold writeSupportFiles.
  apply passes_bind; [| intros _; passes_auto].
  destruct (nodeConfig c !! "OBSERVER_JWK") as [[| [] | jwk] |]; try discriminate H;
    simpl truthy; try (apply passes_nothrow; constructor).
  - destruct (negb (Str.is_empty jwk) && _); unfold when, writeValue; passes_auto.
Qed.

Lemma passes_writeModuleEnvFiles c :
  textual c = true -> passes env (writeModuleEnvFiles c).
Proof.
  intros H. unfold textual in H. apply andb_prop in H as [_ H].
  unfold writeModuleEnvFiles.
  apply passes_bind; [| intros _; unfold deriveBundlerAddress; passes_auto].
  destruct (truthy (dockerConfig c !! "enableAoCu")); unfold when;
    [| apply passes_nothrow; constructor].
  apply passes_bind; [| intros ?; passes_auto].
  unfold aoLines.
  destruct (dashboardConfig c !! "ADDITIONAL_AO_CU_ENV") as [[| [] | extra] |];
    try discriminate H; simpl; try (apply passes_nothrow; constructor).
  destruct (negb (Str.is_empty extra)); apply passes_nothrow; constructor.
Qed.

Lemma passes_buildEnvFile c :
  textual c = true -> passes env (liftResult (EnvFile.buildEnvFile c)).
Proof.
  intros H. unfold textual in H. apply andb_prop in H as [H _]. apply andb_prop in H as [H _].
  unfold EnvFile.buildEnvFile, EnvFile.envLines, EnvFile.addAdditional.
  destruct (nodeConfig c !! "ADDITIONAL_ENV") as [[| [] | text] |]; try discriminate H;
    simpl; try (apply passes_nothrow; constructor).
  destruct (negb (Str.is_empty text)); apply passes_nothrow; constructor.
Qed.

(** In an obliging world the [try] block of a request with textual
    settings reaches its end. *)
Lemma passes_deployTry c : textual c = true -> passes env (deployTry c).
Proof.
  intros H. unfold deployTry.
  apply passes_bind; [passes_auto | intros _].
  apply passes_bind; [passes_auto | intros _].
  intros st. rewrite interp_bind.
  destruct (interp_preDerive env c st) as (s1 & c1 & -> & S1 & _).
  rewrite <- (textual_same _ _ S1) in H. revert s1.
  apply passes_bind; [now apply passes_buildEnvFile | intros content].
  apply passes_bind; [passes_auto | intros _].
  apply passes_bind; [passes_auto | intros _].
  apply passes_bind; [apply passes_resolveLatestTag | intros tag].
  apply passes_bind; [apply passes_provision | intros _].
  apply passes_bind; [passes_auto | intros _].
  apply passes_bind; [passes_auto | intros _].
  apply passes_bind; [apply passes_patchComposeFiles | intros files].
  apply passes_bind; [apply passes_writeEnvFile | intros _].
  apply passes_bind; [now apply passes_writeSupportFiles | intros files'].
  intros st'. rewrite interp_bind.
  destruct (passes_writeModuleEnvFiles c1 H st') as (s2 & c2 & ->). revert s2.
  apply passes_bind; [passes_auto | intros _].
  apply passes_nothrow, nothrow_startServices.
Qed.

(** A program that ends without an exception in the world [env], in a
    state with the property [Q]. *)
Definition reaches {A : Type} (Q : State -> Prop) (p : Prog A) : Prop :=
  forall st, exists s a, interp env p st = (s, Ok a) /\ Q s.

(** A property that later lines of the log and later calls keep. *)
Definition lasting (Q : State -> Prop) : Prop :=
  forall s s', extends s s' -> Q s -> Q s'.

Lemma reaches_after {A B} Q (p : Prog A) (f : A -> Prog B) :
  passes env p -> (forall a, reaches Q (f a)) -> reaches Q (bind p f).
Proof.
  intros Hp Hf st. rewrite interp_bind.
  destruct (Hp st) as (s & a & ->). apply Hf.
Qed.

Lemma reaches_before {A B} Q (p : Prog A) (f : A -> Prog B) :
  lasting Q -> reaches Q p -> (forall a, passes env (f a)) -> reaches Q (bind p f).
Proof.
  intros HQ Hp Hf st. rewrite interp_bind.
  destruct (Hp st) as (s & a & -> & Hs).
  destruct (Hf a s) as (s' & b & E). exists s', b. split; [exact E |].
  eapply HQ; [| exact Hs]. eapply interp_extends_step. exact E.
Qed.

(** The failure of an update has been logged and the update is among
    the calls. *)
Definition updateFailed (s : State) : Prop :=
  exists tag t exit output,
    In ("[" +:+ t +:+ "] " +:+
        "Git update failed with code " +:+ show_code exit +:+ ": " +:+ output)
       (deploymentLogs s) /\
    In (ARun "bash" (updateCommand tag)) (history s).

Lemma updateFailed_lasting : lasting updateFailed.
Proof.
  intros s s' ([l Hl] & [h Hh] & _) (tag & t & exit & output & H1 & H2).
  exists tag, t, exit, output. rewrite Hl, Hh. split; apply in_or_app; now left.
Qed.

Lemma reaches_provision tag :
  (forall h, fsAccess env h deployDir = None) ->
  (forall h latestTag,
     exited_zero (fst (runToClose env h "bash" (updateCommand latestTag))) = false) ->
  reaches updateFailed (provisionRepository tag).
Proof.
  intros Ha Hu st.
  destruct (runToClose env (history st) "bash" (updateCommand tag)) as [exit output] eqn:E.
  pose proof (Hu (history st) tag) as Hx. rewrite E in Hx. simpl in Hx.
  destruct (update_failure_is_not_fatal env st tag exit output (Ha _) E Hx (Ha _))
    as (st' & R & Hh & t1 & t2 & t3 & Hl).
  exists st', tt. split; [exact R |].
  exists tag, t2, exit, output. rewrite Hl, Hh. split.
  - apply in_or_app. right. right. now left.
  - apply in_or_app. right. now left.
Qed.

(** In an obliging world where the working copy is there and its
    update fails, the [try] block of a request with textual settings
    still reaches its end. *)
Lemma deployTry_after_failed_update c :
  textual c = true ->
  (forall h, fsAccess env h deployDir = None) ->
  (forall h latestTag,
     exited_zero (fst (runToClose env h "bash" (updateCommand latestTag))) = false) ->
  reaches updateFailed (deployTry c).
Proof.
  intros H Ha Hu. unfold deployTry.
  apply reaches_after; [passes_auto | intros _].
  apply reaches_after; [passes_auto | intros _].
  intros st. rewrite interp_bind.
  destruct (interp_preDerive env c st) as (s1 & c1 & -> & S1 & _).
  rewrite <- (textual_same _ _ S1) in H. revert s1.
  apply reaches_after; [now apply passes_buildEnvFile | intros content].
  apply reaches_after; [passes_auto | intros _].
  apply reaches_after; [passes_auto | intros _].
  apply reaches_after; [apply passes_resolveLatestTag | intros tag].
  apply reaches_before;
    [exact updateFailed_lasting | now apply reaches_provision | intros _].
  apply passes_bind; [passes_auto | intros _].
  apply passes_bind; [passes_auto | intros _].
  apply passes_bind; [apply passes_patchComposeFiles | intros files].
  apply passes_bind; [apply passes_writeEnvFile | intros _].
  apply passes_bind; [now apply passes_writeSupportFiles | intros files'].
  intros st'. rewrite interp_bind.
  destruct (passes_writeModuleEnvFiles c1 H st') as (s2 & c2 & ->). revert s2.
  apply passes_bind; [passes_auto | intros _].
  apply passes_nothrow, nothrow_startServices.
Qed.

End Obliging.

(** ** Where the server writes *)

Definition inside (path : string) : bool := Str.starts_with (deployDir +:+ "/") path.

(** The commands that write, remove or create a path outside the
    deployment directory. *)
Definition strays (X : Type) (c : Cmd X) : bool :=
  match c with
  | WriteFile path _ | Unlink path | Mkdir path => negb (inside path)
  | _ => false
  end.

Definition stray (a : Action) : bool :=
  match a with
  | AWriteFile path _ | AUnlink path | AMkdir path => negb (inside path)
  | _ => false
  end.

Definition strayed (st : State) : list Action := List.filter stray (history st).

Lemma strayed_kept env X (c : Cmd X) st :
  strays X c = false -> strayed (fst (perform env c st)) = strayed st.
Proof.
  unfold strayed.
  destruct c; simpl; intros H; try reflexivity;
    rewrite List.filter_app; simpl; try rewrite H; apply app_nil_r.
Qed.

Lemma avoids_strays_mkdirs dirs :
  forallb inside dirs = true -> avoids strays (mkdirs dirs).
Proof.
  induction dirs as [| dir dirs IH]; simpl; intros H; [constructor |].
  apply andb_prop in H as [Hd H].
  apply avoids_vis; [simpl; now rewrite Hd |].
  intros [[] | msg]; simpl; [auto | constructor].
Qed.

Ltac stays_inside :=
  repeat first
    [ apply avoids_ret
    | apply avoids_throw
    | apply avoids_strays_mkdirs; reflexivity
    | apply avoids_bind; [| intros ?]
    | apply avoids_try_catch; [| intros ?]
    | apply avoids_vis; [reflexivity | intros ?]
    | match goal with
      | |- avoids _ (if ?b then _ else _) => destruct b
      | |- avoids _ (match ?x with _ => _ end) => destruct x
      end ].

Lemma handler_stays_inside e st : avoids strays (handler e st).
Proof.
  destruct e as [[c |] | | | | p d | p d | p code]; simpl;
    try destruct (childOf p (children st)) as [[c' args |] |];
    unfold deploy, cancel; open_handlers; stays_inside.
Qed.

End HandlerFacts.

(** ** Handlers that are suspended while others run *)

Module AmidFacts.
Import Server ProgFacts DeployFacts ProvisionFacts HandlerFacts.

(** With nothing in between, a driven handler is the handler run
    alone. *)
Lemma drive_alone env {A} (p : Prog A) st : drive env p [] st = interp env p st.
Proof.
  revert st. induction p as [a | msg | X c k IH]; intros st; simpl; try reflexivity.
  destruct (perform env c st) as [s x]. destruct (suspends c); apply IH.
Qed.

Lemma stepAmid_alone env e st : stepAmid env e [] st = step env e st.
Proof. unfold stepAmid, step. now rewrite drive_alone. Qed.

Lemma fst_stepAmid env e between st :
  fst (stepAmid env e between st) = fst (drive env (handler e st) between st).
Proof. unfold stepAmid. now destruct (drive env (handler e st) between st) as [s [r | m]]. Qed.

Section Amid.

(** The commands to avoid, and a property of the state that the other
    commands keep. *)
Variable bad : forall X, Cmd X -> bool.
Variable Inv : State -> Prop.

Hypothesis inv_kept :
  forall env X (c : Cmd X) st, bad X c = false -> Inv st -> Inv (fst (perform env c st)).

(** What the other handlers do in between keeps the property. *)
Definition harmless (between : list (State -> State)) : Prop :=
  Forall (fun f : State -> State => forall s, Inv s -> Inv (f s)) between.

Lemma drive_avoids env {A} (p : Prog A) :
  avoids bad p ->
  forall between st, harmless between -> Inv st -> Inv (fst (drive env p between st)).
Proof.
  induction 1 as [a | msg | X c k Hc Hk IH]; intros between st Hb Hs; simpl; try exact Hs.
  pose proof (inv_kept env X c st Hc Hs) as Hp.
  destruct (perform env c st) as [s x]. simpl in Hp.
  destruct (suspends c); [| now apply IH].
  destruct between as [| f later]; [now apply IH |].
  inversion Hb; subst. apply IH; auto.
Qed.

End Amid.

(** A program that ends, on every path without an exception, by
    clearing the tracked process. *)
Inductive settles {A : Type} : Prog A -> Prop :=
| settles_reset (k : unit -> Prog A) :
    (forall u, exists a, k u = Ret a) -> settles (Vis (SetCurrent None) k)
| settles_vis X (c : Cmd X) k : (forall x, settles (k x)) -> settles (Vis c k).

Lemma settles_after {A B} (p : Prog A) (f : A -> Prog B) :
  nothrow p -> (forall a, settles (f a)) -> settles (bind p f).
Proof.
  intros Hp Hf. induction Hp as [a | X c k Hk IH]; simpl; [apply Hf |].
  apply settles_vis. exact IH.
Qed.

Lemma settles_answer {A B} (p : Prog A) (b : B) :
  settles p -> settles (bind p (fun _ => Ret b)).
Proof.
  induction 1 as [k Hk | X c k Hk IH]; simpl.
  - apply settles_reset. intros u. destruct (Hk u) as [a ->]. simpl. eauto.
  - apply settles_vis. exact IH.
Qed.

Lemma drive_settles env {A} (p : Prog A) :
  settles p ->
  forall between st, currentDeploymentProcess (fst (drive env p between st)) = None.
Proof.
  induction 1 as [k Hk | X c k Hk IH]; intros between st.
  - simpl. destruct (Hk tt) as [a ->]. reflexivity.
  - simpl. destruct (perform env c st) as [s x].
    destruct (suspends c); [| apply IH].
    destruct between as [| f later]; apply IH.
Qed.

Lemma settles_onDeployClose c args code : settles (onDeployClose c args code).
Proof.
  unfold onDeployClose.
  apply settles_after; [open_handlers; nothrow_auto | intros cancelled].
  apply settles_after.
  - destruct cancelled; [open_handlers; nothrow_auto |].
    apply nothrow_bind; [open_handlers; nothrow_auto | intros _].
    destruct (exited_zero code); [apply nothrow_postDeploymentFixes | apply nothrow_ret].
  - intros _. apply settles_reset. intros u. eauto.
Qed.

(** The cancellation flag is false. *)
Definition uncancelled (s : State) : Prop := deploymentCancelled s = false.

Lemma uncancelled_kept env X (c : Cmd X) st :
  sets_cancelled X c = false -> uncancelled st -> uncancelled (fst (perform env c st)).
Proof. unfold uncancelled. intros H <-. now apply cancelled_kept. Qed.

(** The handlers other than those of [POST /deploy] and of
    [POST /cancel] leave the flag as it is. *)
Lemma step_keeps_flag env e s :
  redeploys e = false -> is_cancel e = false ->
  deploymentCancelled (fst (step env e s)) = deploymentCancelled s.
Proof.
  intros He Hc. rewrite fst_step.
  exact (interp_avoids sets_cancelled _ deploymentCancelled cancelled_kept env _
           (handler_avoids_reset e s He Hc) s).
Qed.

Lemma drive_deploy_uncancelled env c between st :
  harmless uncancelled between ->
  uncancelled (fst (drive env (handler (PostDeploy (Some c)) st) between st)).
Proof.
  intros Hb. unfold handler, deploy, deployTry.
  cbn [bind try_catch appendLog call drive perform suspends].
  apply (drive_avoids sets_cancelled uncancelled uncancelled_kept); [| exact Hb | reflexivity].
  apply avoids_bind; [| intros r; apply avoids_ret].
  apply avoids_try_catch; [apply deploy_avoids_cancel_after_reset |].
  intros msg. open_handlers. avoids_auto.
Qed.

End AmidFacts.

(** ** The machines of the examples *)

Module SceneFacts.
Import Server Scene HandlerFacts.

Lemma calm_obliges : obliging calm.
Proof.
  repeat split; intros; simpl; eauto.
Defined.

Lemma updateFails_obliges : obliging updateFails.
Proof.
  repeat split; intros; simpl; eauto.
Defined.

End SceneFacts.

(** ** The two failures of provisioning *)

Module ProvisionTheorems.
Import Server ProgFacts DeployFacts ProvisionFacts HandlerFacts.

(** C5. The two failures of provisioning are not treated alike. An
    update of an existing working copy that exits with a code other than
    zero, the working copy still being there, is logged and provisioning
    ends normally, and no clone is run; in general provisioning throws
    only when the clone itself has failed. A clone that fails throws
    [Git clone failed], and the request is then answered with status
    500 and an error message, without any child having been spawned or
    tracked. And the request goes on after a failed update: where the
    working copy is there, its update fails and the rest of the world
    obliges, a request with textual settings is answered with
    [started], the failure of the update is in the log and the update
    is among the calls. *)
Theorem update_failure_continues_clone_failure_aborts (env : Env) (st : State) :
  (forall latestTag exit output,
     fsAccess env (history st) deployDir = None ->
     runToClose env (history st) "bash" (updateCommand latestTag) = (exit, output) ->
     exited_zero exit = false ->
     fsAccess env (history st ++ [ARun "bash" (updateCommand latestTag)]) deployDir = None ->
     exists st',
       interp env (provisionRepository latestTag) st = (st', Ok tt) /\
       history st' = history st ++ [ARun "bash" (updateCommand latestTag)] /\
       exists t1 t2 t3,
         deploymentLogs st' =
           deploymentLogs st ++
           [ "[" +:+ t1 +:+ "] " +:+
               "Repository exists, updating to latest version (" +:+ latestTag +:+ ")...";
             "[" +:+ t2 +:+ "] " +:+
               "Git update failed with code " +:+ show_code exit +:+ ": " +:+ output;
             "[" +:+ t3 +:+ "] " +:+ "Falling back to fresh clone..." ]) /\
  (forall latestTag st' msg,
     interp env (provisionRepository latestTag) st = (st', Err msg) ->
     exists h exit output,
       runToClose env h "git" (cloneCommand latestTag) = (exit, output) /\
       exited_zero exit = false /\
       msg = "Git clone failed: " +:+ output) /\
  (forall config,
     (forall h, fsAccess env h deployDir <> None) ->
     (forall h latestTag,
        exited_zero (fst (runToClose env h "git" (cloneCommand latestTag))) = false) ->
     exists msg,
       snd (step env (PostDeploy (Some config)) st) =
         Some {| code := 500; body := BError msg |} /\
       kept st (fst (step env (PostDeploy (Some config)) st))) /\
  (forall config,
     obliging env ->
     textual config = true ->
     (forall h, fsAccess env h deployDir = None) ->
     (forall h latestTag,
        exited_zero (fst (runToClose env h "bash" (updateCommand latestTag))) = false) ->
     snd (step env (PostDeploy (Some config)) st) = Some (json BStarted) /\
     exists latestTag t exit output,
       In ("[" +:+ t +:+ "] " +:+
           "Git update failed with code " +:+ show_code exit +:+ ": " +:+ output)
          (deploymentLogs (fst (step env (PostDeploy (Some config)) st))) /\
       In (ARun "bash" (updateCommand latestTag))
          (history (fst (step env (PostDeploy (Some config)) st)))).
Proof.
  split; [intros; now apply update_failure_is_not_fatal |].
  split; [intros; eapply only_the_clone_is_fatal; eassumption |].
  split.
  - intros config H1 H2.
    destruct (deployTry_without_clone env config st H1 H2) as (s1 & msg & E & K).
    exists msg. unfold step, handler, deploy.
    rewrite interp_bind, interp_try_catch, E. simpl. split; [reflexivity | exact K].
  - intros config W Hc Ha Hu.
    destruct (deployTry_after_failed_update env W config Hc Ha Hu st) as (s & r & E & Q).
    unfold step, handler, deploy. rewrite interp_bind, interp_try_catch, E.
    apply deployTry_started in E as ->. simpl. split; [reflexivity | exact Q].
Qed.

End ProvisionTheorems.

Module ProvisionWitness.
Import Server Scene ProvisionFacts HandlerFacts SceneFacts ProvisionTheorems.

Lemma provisioning_witness :
  (exists st',
     interp updateFails (provisionRepository "r1") initial = (st', Ok tt) /\
     history st' = history initial ++ [ARun "bash" (updateCommand "r1")] /\
     exists t1 t2 t3,
       deploymentLogs st' =
         deploymentLogs initial ++
         [ "[" +:+ t1 +:+ "] " +:+
             "Repository exists, updating to latest version (" +:+ "r1" +:+ ")...";
           "[" +:+ t2 +:+ "] " +:+
             "Git update failed with code " +:+ show_code (Some 1) +:+ ": " +:+
             "fatal: unable to access the remote";
           "[" +:+ t3 +:+ "] " +:+ "Falling back to fresh clone..." ]) /\
  (exists msg,
     snd (step cloneFails (PostDeploy (Some minimal)) initial) =
       Some {| code := 500; body := BError msg |} /\
     kept initial (fst (step cloneFails (PostDeploy (Some minimal)) initial))) /\
  (obliging updateFails /\ textual minimal = true /\
   snd (step updateFails (PostDeploy (Some minimal)) initial) = Some (json BStarted) /\
   exists latestTag t exit output,
     In ("[" +:+ t +:+ "] " +:+
         "Git update failed with code " +:+ show_code exit +:+ ": " +:+ output)
        (deploymentLogs (fst (step updateFails (PostDeploy (Some minimal)) initial))) /\
     In (ARun "bash" (updateCommand latestTag))
        (history (fst (step updateFails (PostDeploy (Some minimal)) initial)))).
Proof.
  split; [| split].
  - destruct (update_failure_continues_clone_failure_aborts updateFails initial)
      as (H & _ & _ & _).
    apply (H "r1" (Some 1) "fatal: unable to access the remote"); reflexivity.
  - destruct (update_failure_continues_clone_failure_aborts cloneFails initial)
      as (_ & _ & H & _).
    apply (H minimal).
    + intros h. discriminate.
    + intros h latestTag. reflexivity.
  - split; [exact updateFails_obliges |]. split; [reflexivity |].
    destruct (update_failure_continues_clone_failure_aborts updateFails initial)
      as (_ & _ & _ & H).
    apply (H minimal updateFails_obliges); reflexivity.
Defined.

(** The whole request on the machine where the update fails: the
    failure is in the log and the answer is that the deployment has
    started. *)
Example request_survives_update_failure :
  snd (step updateFails (PostDeploy (Some minimal)) initial) = Some (json BStarted) /\
  In "[2025-01-01T00:00:00.6Z] Git update failed with code 1: fatal: unable to access the remote"
     (deploymentLogs (fst (step updateFails (PostDeploy (Some minimal)) initial))) /\
  filter (fun a => match a with ARun _ _ => true | _ => false end = true)
    (history (fst (step updateFails (PostDeploy (Some minimal)) initial))) =
  [ARun "bash" (updateCommand "r1")].
Proof. vm_compute. repeat split. tauto. Qed.

(** The whole request on the machine where the clone fails. *)
Example request_fails_with_the_clone :
  step cloneFails (PostDeploy (Some minimal)) initial =
  ({| deploymentLogs :=
        [ "[2025-01-01T00:00:00.0Z] Received deployment request";
          "[2025-01-01T00:00:00.1Z] Using deployment directory: /tmp/ar-io-node";
          "[2025-01-01T00:00:00.2Z] Repository will be updated if it exists, or cloned if it does not exist";
          "[2025-01-01T00:00:00.3Z] Fetching latest AR.IO node version...";
          "[2025-01-01T00:00:00.4Z] Using tag: r1";
          "[2025-01-01T00:00:00.5Z] Cloning AR.IO node repository (r1)...";
          "[2025-01-01T00:00:00.6Z] Git clone failed with code 128: fatal: could not resolve host";
          "[2025-01-01T00:00:00.7Z] Deployment error: Git clone failed: fatal: could not resolve host" ];
      currentDeploymentProcess := None;
      deploymentCancelled := false;
      children := [];
      history :=
        [ AFetch "https://api.github.com/repos/ar-io/ar-io-node/tags";
          ARun "git" (cloneCommand "r1") ] |},
   Some {| code := 500; body := BError "Git clone failed: fatal: could not resolve host" |}).
Proof. vm_compute. reflexivity. Qed.

End ProvisionWitness.

(** ** The services that are started *)

Module ServiceTheorems.
Import Server ProgFacts DeployFacts ServiceFacts HandlerFacts.

(** C8. The services passed to the start command begin with [core] and
    [redis]; a service of an optional component is among them exactly
    when the flag of that component is true; with every flag false they
    are [core] and [redis] alone; when [POST /deploy] answers that
    the deployment has started, the last call it made spawned [docker]
    with [up -d] followed by exactly these services; and it does answer
    so, with that spawn, whenever the outside world obliges and the
    settings are textual. *)
Theorem service_activation_set (config : Config) :
  (exists optional, servicesToStart config = "core" :: "redis" :: optional) /\
  (forall flag services s,
     In (flag, services) (components config) -> In s services ->
     (In s (servicesToStart config) <-> truthy flag = true)) /\
  ((forall flag services, In (flag, services) (components config) -> truthy flag = false) ->
   servicesToStart config = ["core"; "redis"]) /\
  (forall env st st',
     step env (PostDeploy (Some config)) st = (st', Some (json BStarted)) ->
     exists earlier p args,
       history st' =
         earlier ++ [ASpawn p "docker" (args ++ ["up"; "-d"] ++ servicesToStart config)
                       deployDir]) /\
  (forall env st,
     obliging env ->
     textual config = true ->
     exists st' earlier p args,
       step env (PostDeploy (Some config)) st = (st', Some (json BStarted)) /\
       history st' =
         earlier ++ [ASpawn p "docker" (args ++ ["up"; "-d"] ++ servicesToStart config)
                       deployDir]).
Proof.
  split; [eexists; reflexivity |].
  split; [apply service_iff_flag |].
  split; [| split].
  - intros H. unfold servicesToStart.
    rewrite (H (dashboardConfig config !! "ENABLE_ENVOY") ["envoy"]) by (unfold components; cbn; tauto).
    rewrite (H (nodeConfig config !! "RUN_OBSERVER") ["observer"]) by (unfold components; cbn; tauto).
    rewrite (H (dockerConfig config !! "enableAutoheal") ["autoheal"]) by (unfold components; cbn; tauto).
    rewrite (H (dockerConfig config !! "enableClickhouse")
               ["clickhouse"; "clickhouse-auto-import"]) by (unfold components; cbn; tauto).
    rewrite (H (dockerConfig config !! "enableLitestream") ["litestream"]) by (unfold components; cbn; tauto).
    rewrite (H (dockerConfig config !! "enableBundler")
               ["upload-service"; "fulfillment-service"; "upload-service-pg"; "localstack"])
      by (unfold components; cbn; tauto).
    rewrite (H (dockerConfig config !! "enableAoCu") ["ao-cu"]) by (unfold components; cbn; tauto).
    rewrite (H (dockerConfig config !! "enableGrafana")
               ["prometheus"; "grafana"; "node-exporter"]) by (unfold components; cbn; tauto).
    rewrite (H (dockerConfig config !! "enableDashboard") ["admin-dashboard"])
      by (unfold components; cbn; tauto).
    reflexivity.
  - intros env st st' H.
    destruct (started_spawns _ _ _ _ H) as (before & files & c' & _ & _ & Hh & _).
    eexists; eexists; eexists. exact Hh.
  - intros env st W Hc.
    destruct (passes_deployTry env W config Hc st) as (s & r & E).
    assert (H : step env (PostDeploy (Some config)) st = (s, Some (json BStarted))).
    { unfold step, handler, deploy. rewrite interp_bind, interp_try_catch, E.
      apply deployTry_started in E as ->. reflexivity. }
    destruct (started_spawns _ _ _ _ H) as (before & files & c' & _ & _ & Hh & _).
    exists s. eexists; eexists; eexists. split; [exact H | exact Hh].
Qed.

End ServiceTheorems.

Module ServiceWitness.
Import Server Scene ServiceFacts HandlerFacts SceneFacts ServiceTheorems.

Lemma service_activation_witness :
  servicesToStart withBundler =
    ["core"; "redis"; "upload-service"; "fulfillment-service"; "upload-service-pg";
     "localstack"] /\
  obliging calm /\ textual withBundler = true /\
  exists st' earlier p args,
    step calm (PostDeploy (Some withBundler)) initial = (st', Some (json BStarted)) /\
    history st' =
      earlier ++ [ASpawn p "docker" (args ++ ["up"; "-d"] ++ servicesToStart withBundler)
                    deployDir].
Proof.
  split; [vm_compute; reflexivity |].
  split; [exact calm_obliges |]. split; [reflexivity |].
  destruct (service_activation_set withBundler) as (_ & _ & _ & _ & H).
  apply (H calm initial calm_obliges). reflexivity.
Defined.

(** The start commands of the node without optional services and of
    the node with the bundler. *)
Example start_commands :
  last (history (fst (step calm (PostDeploy (Some minimal)) initial))) =
    Some (ASpawn 0 "docker"
            ["compose"; "-p"; "ar-io-node"; "-f"; "docker-compose.yaml";
             "-f"; "docker-compose.override.yaml"; "up"; "-d"; "core"; "redis"]
            deployDir) /\
  last (history (fst (step calm (PostDeploy (Some withBundler)) initial))) =
    Some (ASpawn 0 "docker"
            ["compose"; "-p"; "ar-io-node"; "-f"; "docker-compose.yaml";
             "-f"; "docker-compose.bundler.yaml";
             "-f"; "docker-compose.override.yaml"; "up"; "-d"; "core"; "redis";
             "upload-service"; "fulfillment-service"; "upload-service-pg"; "localstack"]
            deployDir).
Proof. split; vm_compute; reflexivity. Qed.

End ServiceWitness.

Module DeployTheorems.
Import Server ProgFacts DeployFacts ProvisionFacts HandlerFacts AmidFacts.

(** X1. [POST /deploy] has three answers. Without a configuration it
    answers 400 and touches nothing. With one it answers either that
    the deployment has started, or 500 with the message of the
    exception; in that case the message is the last line of the log,
    no child has been spawned and the tracked process is the one
    before the request. *)
Theorem deploy_has_three_answers (env : Env) (st : State) :
  step env (PostDeploy None) st =
    (st, Some {| code := 400; body := BError "Missing config" |}) /\
  forall c,
    snd (step env (PostDeploy (Some c)) st) = Some (json BStarted) \/
    exists msg earlier t,
      snd (step env (PostDeploy (Some c)) st) =
        Some {| code := 500; body := BError msg |} /\
      deploymentLogs (fst (step env (PostDeploy (Some c)) st)) =
        (deploymentLogs st ++ earlier) ++
        ["[" +:+ t +:+ "] " +:+ "Deployment error: " +:+ msg] /\
      kept st (fst (step env (PostDeploy (Some c)) st)).
Proof.
  split; [reflexivity |]. intros c.
  unfold step, handler, deploy. rewrite interp_bind, interp_try_catch.
  pose proof (quiet_deployTry c env st) as Q.
  pose proof (interp_extends env (deployTry c) st) as X.
  destruct (interp env (deployTry c) st) as [s1 [r | msg]] eqn:E.
  - left. apply deployTry_started in E as ->. reflexivity.
  - right. simpl in X. destruct X as ([earlier Hl] & _ & _).
    exists msg, earlier, (now env (length (deploymentLogs s1))).
    simpl. split; [reflexivity |]. split.
    + rewrite <- Hl. reflexivity.
    + exact (Q _ _ eq_refl).
Qed.

(** X2. A deployment request with a configuration resets the
    cancellation flag at its start, before its first suspension, and
    sets it nowhere else. So the flag is false when the request ends,
    whatever its outcome, provided that no handler that runs while the
    request is suspended turns the flag from false to true, that is,
    that no [POST /cancel] arrives in between. *)
Theorem deploy_clears_cancellation
    (env : Env) (c : Config) (between : list (State -> State)) (st : State) :
  Forall (fun f : State -> State =>
            forall s, deploymentCancelled s = false -> deploymentCancelled (f s) = false)
         between ->
  deploymentCancelled (fst (stepAmid env (PostDeploy (Some c)) between st)) = false.
Proof.
  intros Hb. rewrite fst_stepAmid.
  exact (drive_deploy_uncancelled env c between st Hb).
Qed.

(** X3. A cancellation silences the deployment: from [POST /cancel]
    until the next deployment request with a configuration, whatever
    else happens, the flag stays set, what a deployment child prints
    is not logged, and the exit of such a child logs one line,
    [Deployment was cancelled]. *)
Theorem cancel_silences_deployment_output (env : Env) (es : list Event) (st : State) :
  forallb (fun e => negb (redeploys e)) es = true ->
  let st' := run env es (fst (step env PostCancel st)) in
  deploymentCancelled st' = true /\
  forall p c args,
    childOf p (children st') = Some (DeployChild c args) ->
    (forall d, step env (ChildStdout p d) st' = (st', None)) /\
    (forall d, step env (ChildStderr p d) st' = (st', None)) /\
    (forall code,
       deploymentLogs (fst (step env (ChildClose p code) st')) =
         deploymentLogs st' ++ [logLine env st' "Deployment was cancelled"]).
Proof.
  intros Hes st'.
  assert (Hf : deploymentCancelled st' = true).
  { subst st'. generalize (fst (step env PostCancel st)) (cancel_sets_flag env st).
    induction es as [| e es IH]; intros s Hs; simpl; [exact Hs |].
    simpl in Hes. apply andb_prop in Hes as [He Hes].
    apply IH; [exact Hes |]. apply flag_stays_set; [| exact Hs].
    now apply negb_true_iff in He. }
  split; [exact Hf |]. intros p c args Hp.
  unfold step, handler. rewrite Hp. unfold onDeployData, onDeployClose. simpl.
  rewrite Hf. simpl. repeat split.
Qed.

(** X4. The handler of the exit of a deployment child ends by
    clearing the tracked process, also when the child that exits is not
    the tracked one. Once the handler has run to its end, after its
    wait and its commands and whatever the other handlers have done
    meanwhile, [currentDeploymentProcess] is [null], and a cancellation
    that is handled then finds no deployment running. *)
Theorem close_clears_tracking
    (env : Env) (st : State) (p : pid) (c : Config) (args : list string)
    (code : option nat) (between : list (State -> State)) :
  childOf p (children st) = Some (DeployChild c args) ->
  currentDeploymentProcess (fst (stepAmid env (ChildClose p code) between st)) = None /\
  snd (step env PostCancel (fst (stepAmid env (ChildClose p code) between st))) =
    Some (json (BCancel "no_deployment_running" None)).
Proof.
  intros Hp.
  assert (H : currentDeploymentProcess
                (fst (stepAmid env (ChildClose p code) between st)) = None).
  { rewrite fst_stepAmid. unfold handler. rewrite Hp.
    apply drive_settles, settles_answer, settles_onDeployClose. }
  split; [exact H |].
  unfold step at 1. unfold handler, cancel. simpl. rewrite H. reflexivity.
Qed.

(** X5. Nothing but a cancellation kills: while no [POST /cancel]
    arrives, whatever requests are handled and whatever the children
    do, [kill] is never called. *)
Theorem only_cancel_kills (env : Env) (es : list Event) (st : State) :
  forallb (fun e => negb (is_cancel e)) es = true ->
  exists calls,
    history (run env es st) = history st ++ calls /\
    forallb (fun a => negb (is_kill a)) calls = true.
Proof.
  intros Hes. destruct (run_history env es st) as [calls Hc].
  exists calls. split; [exact Hc |].
  apply (nothing_added is_kill (history st)). rewrite <- Hc. clear Hc.
  revert st Hes. induction es as [| e es IH]; intros st Hes; simpl; [reflexivity |].
  simpl in Hes. apply andb_prop in Hes as [He Hes]. apply negb_true_iff in He.
  rewrite (IH _ Hes), fst_step.
  exact (interp_avoids kills _ killed killed_kept env _ (handler_avoids_kill e st He) st).
Qed.

(** X6. Every line of the log has the shape that [appendLog] gives
    it, an opening bracket, the time, a closing bracket, a space and
    the message: no handler writes to the log in any other way. *)
Theorem log_lines_are_stamped (env : Env) (es : list Event) (st : State) :
  Forall stamped (deploymentLogs st) ->
  Forall stamped (deploymentLogs (run env es st)).
Proof.
  revert st. induction es as [| e es IH]; intros st H; simpl; [exact H |].
  apply IH. rewrite fst_step. now apply interp_stamped.
Qed.

(** X7. When [POST /deploy] answers that the deployment has started,
    the environment file has been written before the stack is started,
    and what was written is what [buildEnvFile] returns for the
    configuration (with the bundler address that the request may have
    derived): the calls of the request hold the removal of the old
    file, the write of the new one, and end with the spawn of
    [docker]. *)
Theorem environment_file_precedes_start
    (env : Env) (c : Config) (st st' : State) :
  step env (PostDeploy (Some c)) st = (st', Some (json BStarted)) ->
  exists c' content h1 h2 p args,
    same_settings c c' /\
    EnvFile.buildEnvFile c' = Ok content /\
    history st' =
      history st ++ h1 ++
      [AUnlink (deployDir +:+ "/.env"); AWriteFile (deployDir +:+ "/.env") content] ++
      h2 ++ [ASpawn p "docker" args deployDir].
Proof.
  intros H. apply step_started in H.
  destruct (deployTry_ok _ _ _ _ _ H)
    as (c1 & content & files & c2 & sa & sb & sc & sd & se &
        S1 & B & Xa & Ea & Xc & Ec & Xe & Ee).
  destruct (interp_startServices env c2 files se) as (st2 & E2 & Hh & _).
  rewrite E2 in Ee. injection Ee as <-.
  apply interp_writeEnvFile in Ea.
  apply interp_extends_step in Ec.
  destruct Xa as (_ & [h1 Ha] & _). destruct Xc as (_ & [h2 Hc] & _).
  destruct Ec as (_ & [h3 Hd] & _). destruct Xe as (_ & [h4 He] & _).
  exists c1, content, h1, (h2 ++ h3 ++ h4). eexists. eexists.
  split; [exact S1 |]. split; [exact B |].
  rewrite Hh, He, Hd, Hc, Ea, Ha. rewrite <- !app_assoc. reflexivity.
Qed.

(** X8. When [POST /deploy] answers that the deployment has started,
    the command it has spawned is [docker compose -p ar-io-node] with
    one [-f] per manifest fragment, the main one first, then one per
    enabled module (the fragment of the admin dashboard only if its
    file has been downloaded), the override fragment last; then one
    [--profile] per advanced service, then [up -d] and the services to
    start. *)
Theorem start_command_line (env : Env) (c : Config) (st st' : State) :
  step env (PostDeploy (Some c)) st = (st', Some (json BStarted)) ->
  exists dashboardPresent earlier p,
    history st' =
      earlier ++
      [ASpawn p "docker"
         (["compose"; "-p"; "ar-io-node"] ++
          flat_map (fun f => ["-f"; f])
            (fragments c dashboardPresent ++ ["docker-compose.override.yaml"]) ++
          flat_map (fun name => ["--profile"; name]) (profiles c) ++
          ["up"; "-d"] ++ servicesToStart c)
         deployDir].
Proof.
  intros H. apply step_started in H.
  destruct (deployTry_files _ _ _ _ _ H) as (c2 & present & se & S & E).
  destruct (interp_startServices env c2
              (fragments c present ++ ["docker-compose.override.yaml"]) se)
    as (s & E' & Hh & _).
  rewrite E' in E. injection E as <-.
  exists present, (history se), (length (children se)).
  rewrite Hh. unfold allArgs, composeArgs, profiles.
  rewrite (servicesToStart_same _ _ S). destruct S as (_ & -> & _).
  now rewrite <- !app_assoc.
Qed.

(** X9. A request with a configuration starts the deployment whenever
    the outside world obliges (the list of tags can be fetched, files
    can be read and written, directories made, and a clone, if one is
    run, exits with code zero) and the three settings that it treats
    as text are not the boolean [true]. Nothing else can fail it: the
    update of the working copy, the download of the dashboard files,
    the derivation of the bundler address and the teardown of the
    previous stack only log their failures. *)
Theorem obliging_world_starts_deployment (env : Env) (c : Config) (st : State) :
  obliging env ->
  textual c = true ->
  snd (step env (PostDeploy (Some c)) st) = Some (json BStarted).
Proof.
  intros W Hc. unfold step, handler, deploy. rewrite interp_bind, interp_try_catch.
  destruct (passes_deployTry env W c Hc st) as (s & r & E).
  rewrite E. apply deployTry_started in E as ->. reflexivity.
Qed.

(** X10. Some steps are best effort: whatever the outside world does,
    the update of an existing working copy, the download of the
    dashboard files, the teardown of the previous stack and the fixes
    after the start end without an exception; their failures are only
    logged. *)
Theorem best_effort_steps_never_throw
    (env : Env) (c : Config) (tag : string) (files args : list string) (st : State) :
  (exists s, interp env (updateRepository tag) st = (s, Ok tt)) /\
  (exists s, interp env (fetchDashboardFiles c) st = (s, Ok tt)) /\
  (exists s, interp env (tearDown c files) st = (s, Ok tt)) /\
  (exists s, interp env (postDeploymentFixes c args) st = (s, Ok tt)).
Proof.
  assert (U : forall p : Prog unit, nothrow p -> exists s, interp env p st = (s, Ok tt)).
  { intros p N. destruct (passes_nothrow env p N st) as (s & [] & E). eauto. }
  repeat split; apply U.
  - open_handlers. nothrow_auto.
  - open_handlers. nothrow_auto.
  - open_handlers. nothrow_auto.
  - apply nothrow_postDeploymentFixes.
Qed.

(** X11. The request needs the list of tags: when it cannot be
    fetched, the request is answered with status 500 and the message of
    the failure, and it has done nothing but the fetch, whether or not
    a working copy is already there. *)
Theorem unreachable_tag_list_fails_request
    (env : Env) (c : Config) (st : State) (msg : string) :
  textual c = true ->
  fetch env (history st) "https://api.github.com/repos/ar-io/ar-io-node/tags" = Err msg ->
  snd (step env (PostDeploy (Some c)) st) = Some {| code := 500; body := BError msg |} /\
  history (fst (step env (PostDeploy (Some c)) st)) =
    history st ++ [AFetch "https://api.github.com/repos/ar-io/ar-io-node/tags"].
Proof.
  intros Hc Hf. unfold step, handler, deploy. rewrite interp_bind, interp_try_catch.
  unfold deployTry. rewrite interp_bind.
  destruct (interp_appendLog env "Received deployment request" st) as (s0 & -> & W0).
  rewrite interp_bind. cbn [interp call perform].
  rewrite interp_bind.
  match goal with |- context [interp env (preDeriveBundlerAddress c) ?s] =>
    destruct (interp_preDerive env c s) as (s1 & c1 & -> & S1 & W1) end.
  rewrite interp_bind.
  rewrite <- (textual_same _ _ S1) in Hc.
  assert (B : exists content, EnvFile.buildEnvFile c1 = Ok content).
  { unfold textual in Hc. apply andb_prop in Hc as [Hc _]. apply andb_prop in Hc as [Hc _].
    unfold EnvFile.buildEnvFile, EnvFile.envLines, EnvFile.addAdditional.
    destruct (nodeConfig c1 !! "ADDITIONAL_ENV") as [[| [] | text] |]; try discriminate Hc;
      simpl; eauto.
    destruct (negb (Str.is_empty text)); eauto. }
  destruct B as [content ->]. cbn [liftResult interp].
  rewrite interp_bind.
  match goal with |- context [interp env (appendLog ?m) ?s] =>
    destruct (interp_appendLog env m s) as (s2 & -> & W2) end.
  rewrite interp_bind.
  match goal with |- context [interp env (appendLog ?m) ?s] =>
    destruct (interp_appendLog env m s) as (s3 & -> & W3) end.
  rewrite interp_bind. unfold resolveLatestTag. rewrite interp_bind.
  match goal with |- context [interp env (appendLog ?m) ?s] =>
    destruct (interp_appendLog env m s) as (s4 & -> & W4) end.
  rewrite interp_bind.
  assert (Hh : history s4 = history st).
  { unfold DeployFacts.world in *. simpl in W1. congruence. }
  cbn [interp attempt perform]. rewrite Hh, Hf. cbn. rewrite Hh. auto.
Qed.

(** X12. Whatever is handled, the server writes, removes and creates
    paths only under the deployment directory: every such path begins
    with [/tmp/ar-io-node/]. *)
Theorem paths_stay_under_deployDir (env : Env) (es : list Event) (st : State) :
  exists calls,
    history (run env es st) = history st ++ calls /\
    forall path,
      (exists content, In (AWriteFile path content) calls) \/
      In (AUnlink path) calls \/ In (AMkdir path) calls ->
      Str.starts_with "/tmp/ar-io-node/" path = true.
Proof.
  destruct (run_history env es st) as [calls Hc].
  exists calls. split; [exact Hc |].
  assert (F : forallb (fun a => negb (stray a)) calls = true).
  { apply (nothing_added stray (history st)). rewrite <- Hc. clear Hc.
    revert st. induction es as [| e es IH]; intros st; simpl; [reflexivity |].
    rewrite IH, fst_step.
    exact (interp_avoids strays _ strayed strayed_kept env _ (handler_stays_inside e st) st). }
  rewrite forallb_forall in F.
  intros path [[content H] | [H | H]]; apply F in H; simpl in H;
    now apply negb_true_iff, negb_false_iff in H.
Qed.

End DeployTheorems.

Module DeployWitness.
Import Server Scene HandlerFacts AmidFacts SceneFacts DeployTheorems.

(** Two deployments on the calm machine, the second while the child
    of the first is alive. *)
Definition deployedTwice : State :=
  fst (step calm (PostDeploy (Some minimal)) deployedOnce).

Lemma cancel_silences_witness :
  forallb (fun e => negb (redeploys e)) [GetLogs; ChildStdout 0 "Pulling"; GetStatus] = true /\
  let st' := run calm [GetLogs; ChildStdout 0 "Pulling"; GetStatus]
               (fst (step calm PostCancel deployedOnce)) in
  deploymentCancelled st' = true /\
  forall p c args,
    childOf p (children st') = Some (DeployChild c args) ->
    (forall d, step calm (ChildStdout p d) st' = (st', None)) /\
    (forall d, step calm (ChildStderr p d) st' = (st', None)) /\
    (forall code,
       deploymentLogs (fst (step calm (ChildClose p code) st')) =
         deploymentLogs st' ++ [logLine calm st' "Deployment was cancelled"]).
Proof.
  split; [reflexivity |].
  apply (cancel_silences_deployment_output calm
           [GetLogs; ChildStdout 0 "Pulling"; GetStatus] deployedOnce).
  reflexivity.
Defined.

(** A third deployment request arrives while the handler of the exit
    of the first child waits. *)
Definition thirdArrives : list (State -> State) :=
  [fun s => fst (step calm (PostDeploy (Some minimal)) s)].

Lemma close_clears_tracking_witness :
  currentDeploymentProcess deployedTwice = Some 1 /\
  exists c args,
    childOf 0 (children deployedTwice) = Some (DeployChild c args) /\
    currentDeploymentProcess
      (fst (stepAmid calm (ChildClose 0 (Some 0)) thirdArrives deployedTwice)) = None /\
    snd (step calm PostCancel
           (fst (stepAmid calm (ChildClose 0 (Some 0)) thirdArrives deployedTwice))) =
      Some (json (BCancel "no_deployment_running" None)).
Proof.
  split; [vm_compute; reflexivity |].
  eexists. eexists. split; [vm_compute; reflexivity |].
  eapply (close_clears_tracking calm deployedTwice 0 _ _ (Some 0) thirdArrives).
  vm_compute. reflexivity.
Defined.

(** While the handler of the exit still waits, the process is
    tracked: a cancellation that arrives then kills it. *)
Example cancel_during_the_wait :
  In (AKill 0 "SIGTERM")
     (history (fst (stepAmid calm (ChildClose 0 (Some 0))
                      [fun s => fst (step calm PostCancel s)] deployedOnce))) /\
  history (fst (step calm PostCancel (fst (step calm (ChildClose 0 (Some 0)) deployedOnce))))
    = history (fst (step calm (ChildClose 0 (Some 0)) deployedOnce)).
Proof. split; vm_compute; tauto. Qed.

(** A request for the log arrives while the deployment request is
    suspended, and then the child of the earlier deployment prints. *)
Definition logsAsked : list (State -> State) :=
  [fun s => fst (step calm GetLogs s);
   fun s => fst (step calm (ChildStderr 0 "Pulling core") s)].

Lemma deploy_clears_cancellation_witness :
  deploymentCancelled (fst (step calm PostCancel deployedOnce)) = true /\
  Forall (fun f : State -> State =>
            forall s, deploymentCancelled s = false -> deploymentCancelled (f s) = false)
         logsAsked /\
  deploymentCancelled
    (fst (stepAmid calm (PostDeploy (Some minimal)) logsAsked
            (fst (step calm PostCancel deployedOnce)))) = false.
Proof.
  split; [vm_compute; reflexivity |].
  assert (H : Forall (fun f : State -> State =>
                        forall s, deploymentCancelled s = false ->
                                  deploymentCancelled (f s) = false) logsAsked).
  { repeat constructor; intros s Hs; rewrite step_keeps_flag; auto. }
  split; [exact H |].
  exact (deploy_clears_cancellation calm minimal logsAsked _ H).
Defined.

(** A cancellation that arrives while the request is suspended does
    not stop it: the deployment is started, and the flag is set. *)
Example cancel_amid_deployment :
  snd (stepAmid calm (PostDeploy (Some minimal))
         [fun s => fst (step calm PostCancel s)] initial) = Some (json BStarted) /\
  deploymentCancelled
    (fst (stepAmid calm (PostDeploy (Some minimal))
            [fun s => fst (step calm PostCancel s)] initial)) = true.
Proof. split; vm_compute; reflexivity. Qed.

Lemma only_cancel_kills_witness :
  forallb (fun e => negb (is_cancel e))
    [PostDeploy (Some minimal); ChildStdout 0 "Pulling"; ChildClose 0 (Some 1)] = true /\
  exists calls,
    history (run calm [PostDeploy (Some minimal); ChildStdout 0 "Pulling";
                       ChildClose 0 (Some 1)] deployedOnce) =
      history deployedOnce ++ calls /\
    forallb (fun a => negb (is_kill a)) calls = true.
Proof.
  split; [reflexivity |].
  apply (only_cancel_kills calm
           [PostDeploy (Some minimal); ChildStdout 0 "Pulling"; ChildClose 0 (Some 1)]
           deployedOnce).
  reflexivity.
Defined.

Lemma log_lines_are_stamped_witness :
  Forall stamped (deploymentLogs initial) /\
  Forall stamped
    (deploymentLogs (run calm [PostDeploy (Some minimal); PostCancel; ChildClose 0 None]
                       initial)).
Proof.
  split; [constructor |].
  apply (log_lines_are_stamped calm [PostDeploy (Some minimal); PostCancel; ChildClose 0 None]
           initial).
  constructor.
Defined.

Lemma environment_file_precedes_start_witness :
  step calm (PostDeploy (Some minimal)) initial = (deployedOnce, Some (json BStarted)) /\
  exists c' content h1 h2 p args,
    DeployFacts.same_settings minimal c' /\
    EnvFile.buildEnvFile c' = Ok content /\
    history deployedOnce =
      history initial ++ h1 ++
      [AUnlink (deployDir +:+ "/.env"); AWriteFile (deployDir +:+ "/.env") content] ++
      h2 ++ [ASpawn p "docker" args deployDir].
Proof.
  split; [vm_compute; reflexivity |].
  apply (environment_file_precedes_start calm minimal initial deployedOnce).
  vm_compute. reflexivity.
Defined.

Lemma start_command_line_witness :
  step calm (PostDeploy (Some minimal)) initial = (deployedOnce, Some (json BStarted)) /\
  exists dashboardPresent earlier p,
    history deployedOnce =
      earlier ++
      [ASpawn p "docker"
         (["compose"; "-p"; "ar-io-node"] ++
          flat_map (fun f => ["-f"; f])
            (fragments minimal dashboardPresent ++ ["docker-compose.override.yaml"]) ++
          flat_map (fun name => ["--profile"; name]) (profiles minimal) ++
          ["up"; "-d"] ++ servicesToStart minimal)
         deployDir].
Proof.
  split; [vm_compute; reflexivity |].
  apply (start_command_line calm minimal initial deployedOnce).
  vm_compute. reflexivity.
Defined.

Lemma obliging_world_witness :
  obliging calm /\ textual withBundler = true /\
  snd (step calm (PostDeploy (Some withBundler)) deployedOnce) = Some (json BStarted).
Proof.
  split; [exact calm_obliges |]. split; [reflexivity |].
  apply (obliging_world_starts_deployment calm withBundler deployedOnce calm_obliges).
  reflexivity.
Defined.

(** The calm machine without its network. *)
Definition offline : Env :=
  {| now := now calm;
     fetch := fun _ _ => Err "fetch failed";
     fsAccess := fsAccess calm;
     fsReadFile := fsReadFile calm;
     fsWriteFile := fsWriteFile calm;
     fsUnlink := fsUnlink calm;
     fsMkdir := fsMkdir calm;
     runToClose := runToClose calm;
     execCmd := execCmd calm;
     killChild := killChild calm;
     jwkToAddress := jwkToAddress calm;
     firstTagName := firstTagName calm |}.

Lemma unreachable_tag_list_witness :
  textual minimal = true /\
  fetch offline (history deployedOnce)
    "https://api.github.com/repos/ar-io/ar-io-node/tags" = Err "fetch failed" /\
  snd (step offline (PostDeploy (Some minimal)) deployedOnce) =
    Some {| code := 500; body := BError "fetch failed" |} /\
  history (fst (step offline (PostDeploy (Some minimal)) deployedOnce)) =
    history deployedOnce ++ [AFetch "https://api.github.com/repos/ar-io/ar-io-node/tags"].
Proof.
  split; [reflexivity |]. split; [reflexivity |].
  apply (unreachable_tag_list_fails_request offline minimal deployedOnce "fetch failed");
    reflexivity.
Defined.

End DeployWitness.

(** ** The shape of the environment file *)

Module EnvShape.
Import EnvFile StrFacts EnvFacts.

(** What [buildEnvFile] pushes: the line of a key, or a free-form
    line. *)
Inductive item :=
| Keyed (key value : string)
| Raw (line : string).

Definition render (i : item) : string :=
  match i with
  | Keyed key value => key +:+ "=" +:+ value
  | Raw line => line
  end.

Definition keyOf (i : item) : list string :=
  match i with
  | Keyed key _ => [key]
  | Raw _ => []
  end.

Definition keys (items : list item) : list string := flat_map keyOf items.

Definition valued (i : item) : Prop :=
  match i with
  | Keyed key value => plain_key key = true /\ value <> ""
  | Raw _ => True
  end.

(** The two local variables of [buildEnvFile] after the pushes
    [items]: the array holds their lines, no key has been pushed
    twice, every key pushed is in [seen], no key holds a line break or
    an equals sign, and no value is empty. *)
Record shaped (a : Acc) (items : list item) : Prop := {
  shaped_lines : lines a = map render items;
  shaped_keys : NoDup (keys items);
  shaped_seen : forall key, In key (keys items) -> key ∈ seen a;
  shaped_values : Forall valued items
}.

Definition keyed (kv : string * string) : item := Keyed (fst kv) (snd kv).

(** The line [KEY=VALUE] of a pair. *)
Definition entry (kv : string * string) : string := fst kv +:+ "=" +:+ snd kv.

Lemma keys_app l1 l2 : keys (l1 ++ l2) = keys l1 ++ keys l2.
Proof. unfold keys. apply flat_map_app. Qed.

Lemma keys_keyed es : keys (map keyed es) = map fst es.
Proof. induction es as [| kv es IH]; simpl; [reflexivity | now rewrite <- IH]. Qed.

Lemma keys_raw l : keys (map Raw l) = [].
Proof. induction l as [| x l IH]; simpl; [reflexivity | exact IH]. Qed.

Lemma render_keyed es : map render (map keyed es) = map entry es.
Proof. rewrite map_map. reflexivity. Qed.

Lemma render_raw l : map render (map Raw l) = l.
Proof. rewrite map_map. apply map_id. Qed.

Lemma template_nonempty v :
  nullish v = false -> is_empty_string v = false -> template v <> "".
Proof. destruct v as [[| [] | s] |]; simpl; try discriminate. now destruct s. Qed.

Lemma shouldIncludeValue_nonempty key v :
  shouldIncludeValue key v = true -> template v <> "".
Proof.
  unfold shouldIncludeValue.
  destruct (nullish v) eqn:N; [discriminate |].
  destruct (is_empty_string v) eqn:E; [discriminate |].
  intros _. now apply template_nonempty.
Qed.

Lemma shaped_push a items key value (a' : Acc) :
  shaped a items ->
  plain_key key = true ->
  has a key = false -> value <> "" ->
  lines a' = lines a ++ [key +:+ "=" +:+ value] ->
  seen a' = {[key]} ∪ seen a ->
  shaped a' (items ++ [Keyed key value]).
Proof.
  intros [Hl Hk Hs Hv] Hp Hh Hval Hl' Hs'.
  unfold has in Hh. apply bool_decide_eq_false in Hh.
  split.
  - rewrite Hl', Hl, map_app. reflexivity.
  - rewrite keys_app. simpl. apply NoDup_app. split; [exact Hk |].
    split; [| apply NoDup_singleton].
    intros k Hin Hk'. apply list_elem_of_In in Hin.
    apply list_elem_of_singleton in Hk'. subst k. auto.
  - intros k Hin. rewrite keys_app in Hin. rewrite Hs'.
    apply in_app_or in Hin as [Hin | Hin].
    + apply elem_of_union_r. auto.
    + simpl in Hin. destruct Hin as [<- | []]. apply elem_of_union_l, elem_of_singleton.
      reflexivity.
  - apply Forall_app. split; [exact Hv | constructor; [now split | constructor]].
Qed.

Lemma plain_in keys key :
  forallb plain_key keys = true -> In key keys -> plain_key key = true.
Proof. intros H. rewrite forallb_forall in H. apply H. Qed.

Section Growth.

(** The pushes made before the statements at hand. *)
Variable items0 : list item.

Definition grown (a : Acc) : Prop := exists es, shaped a (items0 ++ map keyed es).

Definition grows (f : Acc -> Acc) : Prop := forall a, grown a -> grown (f a).

Lemma grows_apply f a : grows f -> grown a -> grown (f a).
Proof. intros H. apply H. Qed.

Lemma grown_push a key value (a' : Acc) :
  grown a ->
  plain_key key = true ->
  has a key = false -> value <> "" ->
  lines a' = lines a ++ [key +:+ "=" +:+ value] ->
  seen a' = {[key]} ∪ seen a ->
  grown a'.
Proof.
  intros [es H] Hp Hh Hv Hl Hs. exists (es ++ [(key, value)]).
  rewrite map_app, app_assoc. simpl. eapply shaped_push; eauto.
Qed.

Lemma addPresent_grows o key : plain_key key = true -> grows (addPresent o key).
Proof.
  intros Hp a H. unfold addPresent.
  destruct (nullish (o !! key)) eqn:N; simpl; [exact H |].
  destruct (is_empty_string (o !! key)) eqn:E; simpl; [exact H |].
  destruct (has a key) eqn:S; simpl; [exact H |].
  eapply grown_push; eauto using template_nonempty.
Qed.

Lemma addPresentChecked_grows o key : plain_key key = true -> grows (addPresentChecked o key).
Proof.
  intros Hp a H. unfold addPresentChecked.
  destruct (nullish (o !! key)) eqn:N; simpl; [exact H |].
  destruct (is_empty_string (o !! key)) eqn:E; simpl; [exact H |].
  destruct (has a key) eqn:S; simpl; [exact H |].
  destruct (shouldIncludeValue key (o !! key)); [| exact H].
  eapply grown_push; eauto using template_nonempty.
Qed.

Lemma addChecked_grows o key : plain_key key = true -> grows (addChecked o key).
Proof.
  intros Hp a H. unfold addChecked.
  destruct (has a key) eqn:S; simpl; [exact H |].
  destruct (shouldIncludeValue key (o !! key)) eqn:V; [| exact H].
  eapply grown_push; eauto using shouldIncludeValue_nonempty.
Qed.

Lemma addToggle_grows flag key : plain_key key = true -> grows (addToggle flag key).
Proof.
  intros Hp a H. unfold addToggle.
  destruct (truthy flag); simpl; [| exact H].
  destruct (has a key) eqn:S; simpl; [exact H |].
  eapply (grown_push a key "true"); eauto; discriminate.
Qed.

Lemma forEach_grows keys f :
  (forall key, In key keys -> grows (f key)) -> grows (forEach keys f).
Proof.
  unfold forEach. intros Hf. induction keys as [| k keys IH]; intros a H; simpl; [exact H |].
  apply IH; [intros key Hk; apply Hf; now right |]. apply Hf; [now left | exact H].
Qed.

Lemma when_grows b f : grows f -> grows (when b f).
Proof. intros Hf a H. unfold when. destruct b; [now apply Hf | exact H]. Qed.

(** The one push that is guarded where it stands. *)
Lemma guarded_push_grown c key v a :
  plain_key key = true ->
  grown a -> grown (when (c && negb (has a key) && shouldIncludeValue key v) (push key v) a).
Proof.
  intros Hp H. unfold when.
  destruct c; simpl; [| exact H].
  destruct (has a key) eqn:S; simpl; [exact H |].
  destruct (shouldIncludeValue key v) eqn:V; [| exact H].
  eapply grown_push; eauto using shouldIncludeValue_nonempty.
Qed.

End Growth.

(** The key at hand is one of a list of the source, or is written out. *)
Ltac plain_known :=
  first [ reflexivity | eapply plain_in; [| eassumption]; reflexivity ].

Ltac shape_step :=
  cbv beta;
  lazymatch goal with
  | |- grown _ (when (_ && negb (has ?a _) && _) (push _ _) ?a) =>
      apply guarded_push_grown; [plain_known |]
  | |- grown _ (?f ?a) => apply grows_apply
  | |- grown _ ?a => is_var a; assumption
  | |- grows _ (when _ _) => apply when_grows
  | |- grows _ (forEach _ _) => apply forEach_grows; intros ?key ?Hin
  | |- grows _ (addPresent _ _) => apply addPresent_grows; plain_known
  | |- grows _ (addPresentChecked _ _) => apply addPresentChecked_grows; plain_known
  | |- grows _ (addChecked _ _) => apply addChecked_grows; plain_known
  | |- grows _ (addToggle _ _) => apply addToggle_grows; plain_known
  | |- grows _ (fun a => _) => intros ?a ?Ha
  end.

Lemma shaped_start : shaped start [].
Proof. split; simpl; [reflexivity | constructor | contradiction | constructor]. Qed.

Lemma valued_keyed es :
  Forall valued (map keyed es) ->
  Forall (fun kv => plain_key (fst kv) = true /\ snd kv <> "") es.
Proof.
  induction es as [| kv es IH]; intros H; [constructor |].
  inversion H; subst. constructor; auto.
Qed.

Lemma beforeAdditional_shaped c : exists es, shaped (beforeAdditional c) (map keyed es).
Proof.
  change (grown [] (beforeAdditional c)).
  unfold beforeAdditional. cbv zeta.
  repeat shape_step.
  exists []. exact shaped_start.
Qed.

Lemma pushRaw_shaped extra a items :
  shaped a items ->
  shaped (fold_left (fun a line => pushRaw line a) extra a) (items ++ map Raw extra).
Proof.
  revert a items. induction extra as [| x extra IH]; intros a items H; simpl.
  - now rewrite app_nil_r.
  - replace (items ++ Raw x :: map Raw extra) with ((items ++ [Raw x]) ++ map Raw extra)
      by now rewrite <- app_assoc.
    apply IH. destruct H as [Hl Hk Hs Hv]. split; simpl.
    + rewrite Hl, map_app. reflexivity.
    + rewrite keys_app. simpl. now rewrite app_nil_r.
    + intros k Hin. rewrite keys_app in Hin. simpl in Hin. rewrite app_nil_r in Hin. auto.
    + apply Forall_app. split; [exact Hv | repeat constructor].
Qed.

Lemma addAdditional_shaped c a a' items :
  shaped a items ->
  addAdditional (nodeConfig c !! "ADDITIONAL_ENV") a = Ok a' ->
  shaped a' (items ++ map Raw (extraLines c)).
Proof.
  intros H. unfold addAdditional, extraLines.
  destruct (nodeConfig c !! "ADDITIONAL_ENV") as [[| [] | text] |]; simpl;
    try discriminate; try (intros [= <-]; now rewrite app_nil_r).
  destruct (Str.is_empty text) eqn:E; simpl; intros [= <-].
  - destruct text; [| discriminate E]. simpl. now rewrite app_nil_r.
  - now apply pushRaw_shaped.
Qed.

Lemma afterAdditional_shaped c a items :
  shaped a items -> exists es, shaped (afterAdditional c a) (items ++ map keyed es).
Proof.
  intros H. change (grown items (afterAdditional c a)).
  assert (Ha : grown items a) by (exists []; simpl; now rewrite app_nil_r).
  clear H. unfold afterAdditional. cbv zeta.
  repeat shape_step.
Qed.

(** The array that [buildEnvFile] joins. *)
Lemma envLines_shape c l :
  envLines c = Ok l ->
  exists es1 es2,
    l = map entry es1 ++ extraLines c ++ map entry es2 /\
    NoDup (map fst (es1 ++ es2)) /\
    Forall (fun kv => plain_key (fst kv) = true /\ snd kv <> "") (es1 ++ es2).
Proof.
  unfold envLines.
  destruct (addAdditional _ _) as [a | msg] eqn:E; [| discriminate].
  intros [= <-].
  destruct (beforeAdditional_shaped c) as [es1 H1].
  pose proof (addAdditional_shaped c _ _ _ H1 E) as H2.
  destruct (afterAdditional_shaped c a _ H2) as [es2 [Hl Hk _ Hv]].
  exists es1, es2. split; [| split].
  - rewrite Hl, !map_app, !render_keyed, render_raw, <- app_assoc. reflexivity.
  - rewrite !keys_app, !keys_keyed, keys_raw, app_nil_r in Hk. now rewrite map_app.
  - apply Forall_app. rewrite !Forall_app in Hv. destruct Hv as [[V1 _] V2].
    split; now apply valued_keyed.
Qed.

(** No statement of [buildEnvFile] removes a line. *)
Definition keeps (line : string) (f : Acc -> Acc) : Prop :=
  forall a, In line (lines a) -> In line (lines (f a)).

Section Keeping.

Variable line : string.

Lemma keeps_apply f a : keeps line f -> In line (lines a) -> In line (lines (f a)).
Proof. intros H. apply H. Qed.

Lemma push_keeps key v : keeps line (push key v).
Proof. intros a H. simpl. apply in_or_app. now left. Qed.

Lemma addPresent_keeps o key : keeps line (addPresent o key).
Proof. intros a H. unfold addPresent. destruct (_ && _); [now apply push_keeps | exact H]. Qed.

Lemma addPresentChecked_keeps o key : keeps line (addPresentChecked o key).
Proof.
  intros a H. unfold addPresentChecked. destruct (_ && _); [now apply push_keeps | exact H].
Qed.

Lemma addChecked_keeps o key : keeps line (addChecked o key).
Proof. intros a H. unfold addChecked. destruct (_ && _); [now apply push_keeps | exact H]. Qed.

Lemma addToggle_keeps flag key : keeps line (addToggle flag key).
Proof.
  intros a H. unfold addToggle. destruct (_ && _); [| exact H].
  simpl. apply in_or_app. now left.
Qed.

Lemma forEach_keeps keys f : (forall key, keeps line (f key)) -> keeps line (forEach keys f).
Proof.
  unfold forEach. intros Hf. induction keys as [| k keys IH]; intros a H; simpl; [exact H |].
  apply IH. now apply Hf.
Qed.

Lemma when_keeps b f : keeps line f -> keeps line (when b f).
Proof. intros Hf a H. unfold when. destruct b; [now apply Hf | exact H]. Qed.

Lemma addAdditional_keeps v a a' :
  addAdditional v a = Ok a' -> In line (lines a) -> In line (lines a').
Proof.
  unfold addAdditional. destruct (truthy v); [| now intros [= <-]].
  destruct v as [[| b | text] |]; try discriminate. intros [= <-].
  generalize (additionalLines text). intros extra. revert a.
  induction extra as [| x extra IH]; intros a H; simpl; [exact H |].
  apply IH. simpl. apply in_or_app. now left.
Qed.

End Keeping.

Ltac keep_step :=
  cbv beta;
  lazymatch goal with
  | |- In _ (lines (?f ?a)) => apply keeps_apply
  | |- In _ (lines ?a) => is_var a; assumption
  | |- keeps _ (when _ _) => apply when_keeps
  | |- keeps _ (forEach _ _) => apply forEach_keeps; intros ?key
  | |- keeps _ (addPresent _ _) => apply addPresent_keeps
  | |- keeps _ (addPresentChecked _ _) => apply addPresentChecked_keeps
  | |- keeps _ (addChecked _ _) => apply addChecked_keeps
  | |- keeps _ (addToggle _ _) => apply addToggle_keeps
  | |- keeps _ (push _ _) => apply push_keeps
  | |- keeps _ (fun a => _) => intros ?a ?Ha
  end.

(** The first loop pushes every core setting that is set. *)
Lemma core_loop_pushes o key keys a :
  In key keys ->
  has a key = false ->
  nullish (o !! key) = false -> is_empty_string (o !! key) = false ->
  In (key +:+ "=" +:+ template (o !! key)) (lines (forEach keys (addPresent o) a)).
Proof.
  intros Hin Hs Hn He. unfold forEach. revert a Hs.
  induction keys as [| k keys IH]; intros a Hs; [contradiction |]. simpl.
  destruct (String.eqb_spec k key) as [-> | Hne].
  - apply (forEach_keeps _ keys (addPresent o) (fun k => addPresent_keeps _ o k)).
    unfold addPresent. rewrite Hn, He, Hs. simpl. apply in_or_app. right. now left.
  - destruct Hin as [-> | Hin]; [contradiction |]. apply IH; [exact Hin |].
    unfold addPresent. destruct (_ && _); [| exact Hs].
    unfold has in *. apply bool_decide_eq_false in Hs. apply bool_decide_eq_false.
    simpl. intros H. apply elem_of_union in H as [H | H]; [| contradiction].
    apply elem_of_singleton in H. congruence.
Qed.

Lemma envLines_core c l key :
  envLines c = Ok l ->
  In key coreNodeConfigs ->
  nullish (nodeConfig c !! key) = false ->
  is_empty_string (nodeConfig c !! key) = false ->
  In (key +:+ "=" +:+ template (nodeConfig c !! key)) l.
Proof.
  intros H Hk Hn He. unfold envLines in H.
  destruct (addAdditional _ _) as [a | msg] eqn:E; [| discriminate].
  injection H as <-.
  assert (H0 : In (key +:+ "=" +:+ template (nodeConfig c !! key))
                  (lines (beforeAdditional c))).
  { unfold beforeAdditional. cbv zeta.
    do 5 (apply keeps_apply; [repeat keep_step |]).
    apply core_loop_pushes; auto. }
  apply (addAdditional_keeps _ _ _ _ E) in H0. clear E.
  unfold afterAdditional. cbv zeta. repeat keep_step.
Qed.

End EnvShape.

Module EnvShapeTheorems.
Import EnvFile StrFacts EnvFacts EnvShape Scene EnvScene.

(** X13. The environment file of a well-formed configuration
    ([ADDITIONAL_ENV] absent or a string, no line break in another
    string value). The file is built, and its lines are the lines
    [KEY=VALUE] of some keys, then the non-blank lines of
    [ADDITIONAL_ENV] as they are and in their order, then the lines of
    further keys. Among the lines of keys no key comes twice; no key
    holds a line break or an equals sign, so that the key of such a line
    is what stands before its first equals sign; and no value is empty
    or holds a line break. *)
Theorem environment_file_shape (c : Config) :
  well_formed c = true ->
  exists text es1 es2,
    buildEnvFile c = Ok text /\
    text = Str.join_nl (map entry es1 ++ extraLines c ++ map entry es2) /\
    (map entry es1 ++ extraLines c ++ map entry es2 <> [] ->
     Str.split_nl text = map entry es1 ++ extraLines c ++ map entry es2) /\
    NoDup (map fst (es1 ++ es2)) /\
    Forall (fun kv => plain_key (fst kv) = true /\ snd kv <> "" /\
                      Str.single_line (snd kv) = true)
           (es1 ++ es2).
Proof.
  intros W. destruct (envLines_total c W) as [l E].
  destruct (envLines_shape c l E) as (es1 & es2 & Hl & Hk & Hv).
  assert (S : Forall (fun a => Str.single_line a = true) l).
  { pose proof (envLines_origin c l E) as O.
    rewrite List.Forall_forall in O |- *. intros x Hx.
    eapply origin_single_line; eauto. }
  exists (Str.join_nl l), es1, es2. unfold buildEnvFile. rewrite E. subst l.
  split; [reflexivity |]. split; [reflexivity |].
  split; [intros Hne; now apply split_join_nl |].
  split; [exact Hk |].
  rewrite List.Forall_forall in Hv, S |- *. intros kv Hin.
  destruct (Hv kv Hin) as [P V]. split; [exact P |]. split; [exact V |].
  assert (Hline : Str.single_line (entry kv) = true).
  { apply S. apply in_app_or in Hin as [Hin | Hin].
    - apply in_or_app. left. now apply in_map.
    - apply in_or_app. right. apply in_or_app. right. now apply in_map. }
  unfold entry in Hline. rewrite !single_line_app in Hline.
  apply andb_prop in Hline as [_ Hline]. now apply andb_prop in Hline as [_ Hline].
Qed.

Lemma environment_file_shape_witness :
  well_formed withGrafanaLine = true /\
  exists text es1 es2,
    buildEnvFile withGrafanaLine = Ok text /\
    text = Str.join_nl (map entry es1 ++ extraLines withGrafanaLine ++ map entry es2) /\
    (map entry es1 ++ extraLines withGrafanaLine ++ map entry es2 <> [] ->
     Str.split_nl text = map entry es1 ++ extraLines withGrafanaLine ++ map entry es2) /\
    NoDup (map fst (es1 ++ es2)) /\
    Forall (fun kv => plain_key (fst kv) = true /\ snd kv <> "" /\
                      Str.single_line (snd kv) = true)
           (es1 ++ es2).
Proof.
  split; [vm_compute; reflexivity |].
  apply (environment_file_shape withGrafanaLine). vm_compute. reflexivity.
Defined.

(** X14. Every core setting of the node that is set, that is neither
    [null] nor absent nor the empty string, has its line in the
    environment file with the value it has in [nodeConfig], whatever
    services are enabled and whatever the other settings are. *)
Theorem core_settings_are_emitted (c : Config) (text key : string) :
  buildEnvFile c = Ok text ->
  In key coreNodeConfigs ->
  nullish (nodeConfig c !! key) = false ->
  is_empty_string (nodeConfig c !! key) = false ->
  exists l,
    text = Str.join_nl l /\
    In (key +:+ "=" +:+ template (nodeConfig c !! key)) l.
Proof.
  unfold buildEnvFile. destruct (envLines c) as [l | msg] eqn:E; [| discriminate].
  intros [= <-] Hk Hn He. exists l. split; [reflexivity |].
  now apply envLines_core.
Qed.

Lemma core_settings_witness :
  exists text,
    buildEnvFile withBundler = Ok text /\
    In "GRAPHQL_HOST" coreNodeConfigs /\
    nullish (nodeConfig withBundler !! "GRAPHQL_HOST") = false /\
    is_empty_string (nodeConfig withBundler !! "GRAPHQL_HOST") = false /\
    exists l,
      text = Str.join_nl l /\
      In ("GRAPHQL_HOST" +:+ "=" +:+ template (nodeConfig withBundler !! "GRAPHQL_HOST")) l.
Proof.
  eexists. split; [vm_compute; reflexivity |].
  split; [vm_compute; tauto |]. split; [reflexivity |]. split; [reflexivity |].
  apply (core_settings_are_emitted withBundler _ "GRAPHQL_HOST").
  - vm_compute. reflexivity.
  - vm_compute. tauto.
  - reflexivity.
  - reflexivity.
Defined.

End EnvShapeTheorems.

(** ** What the port-mapping rewrite does to a binding *)

Module BindingFacts.
Import Regex Patcher StrFacts RegexFacts PatcherFacts.

(** A character that is no digit, no quote and not the letter [p]. *)
Definition plain_char (a : ascii) : bool :=
  negb (Str.is_digit a) && negb (Str.is_quote a) && negb (Ascii.eqb a "p").

Fixpoint plain (s : string) : bool :=
  match s with
  | String a s' => plain_char a && plain s'
  | EmptyString => true
  end.

(** An optional quote: nothing, a double quote or a single quote. *)
Definition quoteOpt (q : string) : Prop :=
  q = "" \/ q = String Str.dquote "" \/ q = String Str.squote "".

(** The replacement does not look at the text before the match, so
    neither does the scan. *)
Lemma before_irrelevant r repl :
  (forall m matched before after c, substitute repl m matched before after c = repl) ->
  forall s n b1 b2, replace_from r repl b1 n s = replace_from r repl b2 n s.
Proof.
  intros Hr. induction s as [| a s IH]; intros n b1 b2.
  - destruct n; simpl; [| reflexivity].
    destruct (exec r EmptyString) as [[rest c] |]; [| reflexivity].
    now rewrite !Hr.
  - destruct n as [| n]; simpl; [| apply IH].
    destruct (exec r (String a s)) as [[rest c] |].
    + rewrite !Hr. destruct (_ - _); f_equal; [f_equal |]; apply IH.
    + f_equal. apply IH.
Qed.

Lemma replace_from_skip r repl w s before :
  exists before',
    replace_from r repl before (String.length w) (w +:+ s) = replace_from r repl before' 0 s.
Proof.
  revert before. induction w as [| a w IH]; intros before.
  - simpl. eauto.
  - rewrite append_cons. cbn [String.length replace_from]. apply IH.
Qed.

(** A text none of whose tails the expression matches is left as it
    is. *)
Lemma replace_from_unmatched r repl (Q : string -> bool) :
  (forall a s, Q (String a s) = true -> Q s = true) ->
  (forall s, Q s = true -> exec r s = None) ->
  forall s before, Q s = true -> replace_from r repl before 0 s = s.
Proof.
  intros Hq Hr. induction s as [| a s IH]; intros before Hs; simpl.
  - now rewrite (Hr _ Hs).
  - rewrite (Hr _ Hs). f_equal. apply IH. eapply Hq. exact Hs.
Qed.

Lemma has_char_app c u v : Str.has_char c (u +:+ v) = Str.has_char c u || Str.has_char c v.
Proof.
  induction u as [| a u IH]; [reflexivity |].
  rewrite append_cons. simpl. now rewrite IH, orb_assoc.
Qed.

Lemma portsBlock_starts port s :
  exec (portsBlock port) s <> None -> Str.has_char "p" s = true.
Proof.
  destruct (exec (portsBlock port) s) as [[rest c] |] eqn:E; [| congruence].
  intros _. apply exec_matches in E as (w & -> & M).
  unfold portsBlock, seqs in M. inversion M as [| | ? ? w1 w2 M1 M2 | | | | | |]; subst.
  inversion M1; subst. reflexivity.
Qed.

(** The expressions for [ports:] blocks leave a text without the
    letter [p] as it is. *)
Lemma portsBlock_idle_without_p port repl s :
  Str.has_char "p" s = false -> replace_all (portsBlock port) repl s = s.
Proof.
  intros H. unfold replace_all.
  apply (replace_from_unmatched _ _ (fun s => negb (Str.has_char "p" s))).
  - intros a t Ht. simpl in Ht. apply negb_true_iff in Ht.
    apply orb_false_iff in Ht as [_ Ht]. now rewrite Ht.
  - intros t Ht. destruct (exec (portsBlock port) t) eqn:E; [| reflexivity].
    rewrite (portsBlock_starts port) in Ht; [discriminate | congruence].
  - now rewrite H.
Qed.

Lemma binding_misses port a s :
  Str.is_digit a = false -> Str.is_quote a = false ->
  exec (binding port) (String a s) = None.
Proof.
  intros Hd Hq. unfold exec, binding, seqs, quote, digit. cbn [run].
  now rewrite Hq, Hd.
Qed.

Lemma plain_char_spec a :
  plain_char a = true ->
  Str.is_digit a = false /\ Str.is_quote a = false /\ Ascii.eqb a "p" = false.
Proof.
  unfold plain_char. intros H. apply andb_prop in H as [H H3]. apply andb_prop in H as [H1 H2].
  now rewrite !negb_true_iff in *.
Qed.

(** The scan for bindings copies plain text. *)
Lemma scan_plain port repl pre s before :
  plain pre = true ->
  exists before',
    replace_from (binding port) repl before 0 (pre +:+ s) =
    pre +:+ replace_from (binding port) repl before' 0 s.
Proof.
  revert before. induction pre as [| a pre IH]; intros before H; [simpl; eauto |].
  simpl in H. apply andb_prop in H as [Ha H].
  apply plain_char_spec in Ha as (Hd & Hq & _).
  rewrite append_cons. cbn [replace_from]. rewrite (binding_misses _ _ _ Hd Hq).
  destruct (IH (String a before) H) as [b' ->]. exists b'. reflexivity.
Qed.

Lemma digit_not_colon a : Str.is_digit a = true -> Ascii.eqb ":" a = false.
Proof. destruct a as [[] [] [] [] [] [] [] []]; try discriminate; reflexivity. Qed.

Lemma digit_not_p a : Str.is_digit a = true -> Ascii.eqb "p" a = false.
Proof. destruct a as [[] [] [] [] [] [] [] []]; try discriminate; reflexivity. Qed.

(** Greedy [\d*]: all the digits are read when what follows them is
    accepted. *)
Lemma iterate_digits k h rest c x :
  all_digit h = true ->
  (forall k', run digit k' rest c = None) ->
  k rest c = Some x ->
  forall fuel, String.length h <= fuel ->
    iterate (run digit) k fuel (h +:+ rest) c = Some x.
Proof.
  intros Hh Hrest Hk. induction h as [| d h IH]; intros fuel Hf.
  - rewrite append_nil. destruct fuel; cbn [iterate]; [exact Hk |]. now rewrite Hrest.
  - simpl in Hh. apply andb_prop in Hh as [Hd Hh].
    destruct fuel as [| fuel]; [simpl in Hf; lia |].
    rewrite append_cons. cbn [iterate]. unfold digit at 1. cbn [run]. rewrite Hd.
    replace (Nat.ltb _ _) with true
      by (symmetry; apply Nat.ltb_lt; simpl; lia).
    rewrite IH; [reflexivity | exact Hh | simpl in Hf; lia].
Qed.

Lemma quote_step (q : string) (s : string) (k : cont) c :
  quoteOpt q -> q <> "" -> run quote k (q +:+ s) c = k s c.
Proof. intros [-> | [-> | ->]] H; [contradiction | reflexivity | reflexivity]. Qed.

Lemma plain_head_not_quote post k c :
  plain post = true -> run quote k post c = None.
Proof.
  destruct post as [| a post]; [reflexivity |]. simpl. intros H.
  apply andb_prop in H as [Ha _]. apply plain_char_spec in Ha as (_ & Hq & _).
  unfold quote. cbn [run]. now rewrite Hq.
Qed.

Lemma tail_reads q2 post c :
  quoteOpt q2 -> plain post = true ->
  run (Opt quote) (fun s' c' => Some (s', c')) (q2 +:+ post) c = Some (post, c).
Proof.
  intros Hq2 Hp. cbn [run]. destruct (String.eqb_spec q2 "") as [-> | Hq].
  - rewrite append_nil. now rewrite plain_head_not_quote.
  - now rewrite quote_step.
Qed.

Lemma core_reads lit d h q2 post c :
  Str.is_digit d = true -> all_digit h = true ->
  (forall k' rest, run digit k' (lit +:+ rest) c = None) ->
  quoteOpt q2 -> plain post = true ->
  run (Seq (Plus digit) (Seq (Lit lit) (Opt quote))) (fun s' c' => Some (s', c'))
    (String d (h +:+ lit +:+ q2 +:+ post)) c = Some (post, c).
Proof.
  intros Hd Hh Hl Hq2 Hp.
  change (run (Seq (Plus digit) (Seq (Lit lit) (Opt quote))) (fun s' c' => Some (s', c'))
            (String d (h +:+ lit +:+ q2 +:+ post)) c)
    with (if Str.is_digit d
          then iterate (run digit)
                 (run (Seq (Lit lit) (Opt quote)) (fun s' c' => Some (s', c')))
                 (String.length (h +:+ lit +:+ q2 +:+ post)) (h +:+ lit +:+ q2 +:+ post) c
          else None).
  rewrite Hd. apply iterate_digits; [exact Hh | intros k'; apply Hl | |].
  - change (run (Seq (Lit lit) (Opt quote)) (fun s' c' => Some (s', c'))
              (lit +:+ q2 +:+ post) c)
      with (match strip lit (lit +:+ q2 +:+ post) with
            | Some s' => run (Opt quote) (fun s' c' => Some (s', c')) s' c
            | None => None
            end).
    rewrite strip_append. now apply tail_reads.
  - rewrite length_app. lia.
Qed.

(** The expression of a binding reads a whole binding: the optional
    quote, all the digits, the colon and the port, and the optional
    quote. *)
Lemma binding_reads_whole port q1 h q2 post :
  quoteOpt q1 -> quoteOpt q2 ->
  all_digit h = true -> h <> "" ->
  plain post = true ->
  exec (binding port) (q1 +:+ h +:+ (":" +:+ port) +:+ q2 +:+ post) = Some (post, []).
Proof.
  intros Hq1 Hq2 Hh Hne Hp.
  destruct h as [| d h]; [contradiction |].
  simpl in Hh. apply andb_prop in Hh as [Hd Hh].
  pose proof (core_reads (":" +:+ port) d h q2 post [] Hd Hh (fun _ _ => eq_refl) Hq2 Hp)
    as Core.
  unfold exec, binding.
  change (seqs [Opt quote; Plus digit; Lit (":" +:+ port); Opt quote])
    with (Seq (Opt quote) (Seq (Plus digit) (Seq (Lit (":" +:+ port)) (Opt quote)))).
  set (inner := Seq (Plus digit) (Seq (Lit (":" +:+ port)) (Opt quote))) in *.
  change (run (Seq (Opt quote) inner) (fun s' c' => Some (s', c'))
            (q1 +:+ String d h +:+ (":" +:+ port) +:+ q2 +:+ post) [])
    with (match run quote (run inner (fun s' c' => Some (s', c')))
                  (q1 +:+ String d h +:+ (":" +:+ port) +:+ q2 +:+ post) [] with
          | Some x => Some x
          | None => run inner (fun s' c' => Some (s', c'))
                      (q1 +:+ String d h +:+ (":" +:+ port) +:+ q2 +:+ post) []
          end).
  destruct (String.eqb_spec q1 "") as [-> | Hq].
  - rewrite append_nil, append_cons.
    change (run quote (run inner (fun s' c' => Some (s', c')))
              (String d (h +:+ (":" +:+ port) +:+ q2 +:+ post)) [])
      with (if Str.is_quote d
            then run inner (fun s' c' => Some (s', c'))
                   (h +:+ (":" +:+ port) +:+ q2 +:+ post) []
            else None).
    rewrite (digit_not_quote _ Hd). exact Core.
  - rewrite quote_step by assumption. rewrite append_cons. now rewrite Core.
Qed.

Lemma append_nil_r (s : string) : s +:+ "" = s.
Proof. induction s as [| a s IH]; [reflexivity |]. rewrite append_cons. now rewrite IH. Qed.

(** At a match the scan writes the replacement and goes on after the
    match. *)
Lemma replace_from_hit r repl before w rest c :
  (forall m matched b a c', substitute repl m matched b a c' = repl) ->
  exec r (w +:+ rest) = Some (rest, c) -> w <> "" ->
  exists before',
    replace_from r repl before 0 (w +:+ rest) = repl +:+ replace_from r repl before' 0 rest.
Proof.
  intros Hs He Hw. destruct w as [| a w]; [contradiction |].
  rewrite append_cons in *. cbn [replace_from]. rewrite He, Hs.
  replace (String.length (String a (w +:+ rest)) - String.length rest)
    with (S (String.length w)) by (simpl; rewrite length_app; lia).
  cbv iota. destruct (replace_from_skip r repl w rest (String a before)) as [b' ->]. eauto.
Qed.

Lemma binding_leaves_plain port repl before post :
  plain post = true -> replace_from (binding port) repl before 0 post = post.
Proof.
  intros H. destruct (scan_plain port repl post "" before H) as [b' E].
  rewrite append_nil_r in E. rewrite E. cbn [replace_from].
  change (exec (binding port) "") with (@None (string * caps)). apply append_nil_r.
Qed.

(** One pass over a single binding in plain text. *)
Lemma binding_pass name port pre q1 h q2 post :
  In (name, port) table ->
  plain pre = true -> quoteOpt q1 -> all_digit h = true -> h <> "" -> quoteOpt q2 ->
  plain post = true ->
  replace_all (binding port) (substituted name port)
    (pre +:+ q1 +:+ h +:+ (":" +:+ port) +:+ q2 +:+ post) =
  pre +:+ substituted name port +:+ post.
Proof.
  intros Ht Hpre Hq1 Hh Hne Hq2 Hpost. unfold replace_all.
  destruct (scan_plain port (substituted name port) pre
              (q1 +:+ h +:+ (":" +:+ port) +:+ q2 +:+ post) "" Hpre) as [b1 ->].
  f_equal.
  pose proof (binding_reads_whole port q1 h q2 post Hq1 Hq2 Hh Hne Hpost) as E.
  assert (Hw : q1 +:+ h +:+ (":" +:+ port) +:+ q2 <> "").
  { destruct h as [| d h]; [contradiction |].
    destruct Hq1 as [-> | [-> | ->]]; discriminate. }
  replace (q1 +:+ h +:+ (":" +:+ port) +:+ q2 +:+ post)
    with ((q1 +:+ h +:+ (":" +:+ port) +:+ q2) +:+ post) in *
    by now rewrite !append_assoc.
  destruct (replace_from_hit _ (substituted name port) b1 _ _ _
              (fun m matched b a c => substituted_fixed name port m matched b a c Ht) E Hw)
    as [b2 ->].
  now rewrite binding_leaves_plain.
Qed.

Lemma dirty_skip_plain port pre s :
  plain pre = true -> dirty port (pre +:+ s) = dirty port s.
Proof.
  induction pre as [| a pre IH]; [reflexivity |]. simpl plain. intros H.
  apply andb_prop in H as [Ha H]. apply plain_char_spec in Ha as (Hd & _).
  rewrite append_cons, dirty_cons. unfold hit. rewrite Hd. simpl. auto.
Qed.

Lemma dirty_skip_quote port q s : quoteOpt q -> dirty port (q +:+ s) = dirty port s.
Proof. intros [-> | [-> | ->]]; reflexivity. Qed.

Lemma dirty_skip_digits port h s :
  all_digit h = true ->
  Str.starts_with (":" +:+ port) s = false ->
  dirty port (h +:+ s) = dirty port s.
Proof.
  intros Hh Hs. induction h as [| d h IH]; [reflexivity |].
  simpl in Hh. apply andb_prop in Hh as [Hd Hh].
  rewrite append_cons, dirty_cons, (IH Hh). unfold hit. rewrite Hd.
  destruct h as [| e h].
  - rewrite append_nil, Hs. reflexivity.
  - simpl in Hh. apply andb_prop in Hh as [He _].
    change (Str.starts_with (":" +:+ port) (String e h +:+ s))
      with (Ascii.eqb ":" e && Str.starts_with port (h +:+ s)).
    rewrite (digit_not_colon _ He). reflexivity.
Qed.

Lemma plain_dirty port post : plain post = true -> dirty port post = false.
Proof.
  intros H. rewrite <- (append_nil_r post). now rewrite dirty_skip_plain.
Qed.

Lemma digit_differs y b : Str.is_digit y = true -> Str.is_digit b = false -> Ascii.eqb y b = false.
Proof. intros Hy Hb. destruct (Ascii.eqb_spec y b); [congruence | reflexivity]. Qed.

Lemma plain_no_port port post :
  In port ports -> plain post = true -> Str.starts_with (":" +:+ port) post = false.
Proof.
  intros Hp H.
  assert (P : exists y rest, port = String y rest /\ Str.is_digit y = true).
  { simpl in Hp. repeat (destruct Hp as [<- | Hp]; [eexists; eexists; split; reflexivity |]).
    contradiction. }
  destruct P as (y & rest & -> & Hy).
  change (":" +:+ String y rest) with (String ":" (String y rest)).
  destruct post as [| a [| b post]]; try reflexivity.
  - rewrite starts_with_cons. simpl. apply andb_false_r.
  - simpl in H. apply andb_prop in H as [_ H]. apply andb_prop in H as [Hb _].
    apply plain_char_spec in Hb as (Hb & _).
    rewrite !starts_with_cons, (digit_differs _ _ Hy Hb). simpl. apply andb_false_r.
Qed.

Lemma no_port_after_quote port q post :
  In port ports -> quoteOpt q -> plain post = true ->
  Str.starts_with (":" +:+ port) (q +:+ post) = false.
Proof.
  intros Hp [-> | [-> | ->]] H; [now apply plain_no_port | reflexivity | reflexivity].
Qed.

(** A binding of one port holds no binding of another. *)
Lemma other_port_clean name port other pre q1 h q2 post :
  In (name, port) table -> In other ports -> other <> port ->
  plain pre = true -> quoteOpt q1 -> all_digit h = true -> quoteOpt q2 ->
  plain post = true ->
  dirty other (pre +:+ q1 +:+ h +:+ (":" +:+ port) +:+ q2 +:+ post) = false.
Proof.
  intros Ht Ho Hne Hpre Hq1 Hh Hq2 Hpost.
  rewrite dirty_skip_plain, dirty_skip_quote by assumption.
  assert (Hcolon : Str.starts_with (":" +:+ other) ((":" +:+ port) +:+ q2 +:+ post) = false).
  { simpl in Ht, Ho.
    repeat (destruct Ht as [Ht | Ht]; [injection Ht as <- <- |]); try contradiction;
      repeat (destruct Ho as [<- | Ho]); try contradiction; try reflexivity;
      now contradiction Hne. }
  rewrite (dirty_skip_digits _ _ _ Hh Hcolon).
  assert (Hport : all_digit port = true)
    by (simpl in Ht;
        repeat (destruct Ht as [Ht | Ht]; [injection Ht as <- <-; reflexivity |]);
        contradiction).
  change ((":" +:+ port) +:+ q2 +:+ post) with (String ":" (port +:+ q2 +:+ post)).
  rewrite dirty_cons. change (hit other (String ":" (port +:+ q2 +:+ post))) with false.
  rewrite orb_false_l.
  rewrite (dirty_skip_digits _ _ _ Hport (no_port_after_quote _ _ _ Ho Hq2 Hpost)).
  rewrite dirty_skip_quote by assumption. now apply plain_dirty.
Qed.

Lemma rewritten_clean name port other pre post :
  In (name, port) table -> In other ports ->
  plain pre = true -> plain post = true ->
  dirty other (pre +:+ substituted name port +:+ post) = false.
Proof.
  intros Ht Ho Hpre Hpost.
  rewrite dirty_skip_plain, substituted_clean by assumption. now apply plain_dirty.
Qed.

Lemma binding_has_no_p port pre q1 h q2 post :
  In port ports ->
  plain pre = true -> quoteOpt q1 -> all_digit h = true -> quoteOpt q2 ->
  plain post = true ->
  Str.has_char "p" (pre +:+ q1 +:+ h +:+ (":" +:+ port) +:+ q2 +:+ post) = false.
Proof.
  intros Hp Hpre Hq1 Hh Hq2 Hpost.
  assert (P : forall s, plain s = true -> Str.has_char "p" s = false).
  { induction s as [| a s IH]; [reflexivity |].
    change (plain (String a s)) with (plain_char a && plain s).
    change (Str.has_char "p" (String a s)) with (Ascii.eqb "p" a || Str.has_char "p" s).
    intros H. apply andb_prop in H as [Ha H]. apply plain_char_spec in Ha as (_ & _ & Ha).
    rewrite Ascii.eqb_sym, Ha. simpl. auto. }
  assert (D : forall s, all_digit s = true -> Str.has_char "p" s = false).
  { induction s as [| a s IH]; [reflexivity |].
    change (all_digit (String a s)) with (Str.is_digit a && all_digit s).
    change (Str.has_char "p" (String a s)) with (Ascii.eqb "p" a || Str.has_char "p" s).
    intros H. apply andb_prop in H as [Ha H]. rewrite (digit_not_p _ Ha). simpl. auto. }
  assert (Q : forall q, quoteOpt q -> Str.has_char "p" q = false)
    by (intros q [-> | [-> | ->]]; reflexivity).
  rewrite !has_char_app, (P _ Hpre), (P _ Hpost), (D _ Hh), (Q _ Hq1), (Q _ Hq2).
  simpl in Hp. repeat (destruct Hp as [<- | Hp]; [reflexivity |]). contradiction.
Qed.

End BindingFacts.

Module PatcherExtras.
Import Regex Patcher StrFacts RegexFacts PatcherFacts BindingFacts.

(** X15. A text in which no digit is followed by a colon and one of
    the six container ports is returned by [fixPortMappings] as it
    is. *)
Theorem text_without_bindings_is_untouched (composeContent : string) :
  clean composeContent -> fixPortMappings composeContent = composeContent.
Proof. apply fixPortMappings_idle. Qed.

Lemma text_without_bindings_witness :
  clean "services:
  prometheus:
    ports:
      - 9090:9090
" /\
  fixPortMappings "services:
  prometheus:
    ports:
      - 9090:9090
" = "services:
  prometheus:
    ports:
      - 9090:9090
".
Proof.
  assert (C : clean "services:
  prometheus:
    ports:
      - 9090:9090
").
  { intros port H. simpl in H.
    repeat (destruct H as [<- | H]; [vm_compute; reflexivity |]). contradiction. }
  split; [exact C |].
  apply (text_without_bindings_is_untouched _ C).
Defined.

(** X16. In what [fixPortMappings] returns, no digit is followed by
    a colon and one of the six container ports: every binding of
    these ports to a literal host port has been rewritten. *)
Theorem no_literal_binding_survives
    (composeContent name port before after : string) (d : ascii) :
  In (name, port) table ->
  Str.is_digit d = true ->
  fixPortMappings composeContent <> before +:+ String d ((":" +:+ port) +:+ after).
Proof.
  intros Ht Hd E.
  pose proof (fixPortMappings_cleans composeContent port (table_ports _ _ Ht)) as C.
  rewrite E in C.
  rewrite dirty_app_r in C; [discriminate |].
  apply hit_dirty. unfold hit. rewrite Hd. apply starts_with_app.
Qed.

Lemma no_literal_binding_witness :
  In ("CORE_PORT", "4000") table /\ Str.is_digit "8" = true /\
  fixPortMappings "      - 8080:4000" <> "      - 808" +:+ String "8" ((":" +:+ "4000") +:+ "").
Proof.
  split; [vm_compute; tauto |]. split; [reflexivity |].
  apply (no_literal_binding_survives "      - 8080:4000" "CORE_PORT" "4000" "      - 808" "" "8").
  - vm_compute. tauto.
  - reflexivity.
Defined.

Ltac settle :=
  first [ assumption | discriminate | simpl; tauto ].

(** X17. A binding of one of the six container ports, whatever its
    host port and with or without quotes, standing in text without
    digits, quotes or the letter [p], is rewritten into the binding
    with the variable of that port, in double quotes, and the text
    around it is kept. *)
Theorem single_binding_is_rewritten (name port pre q1 h q2 post : string) :
  In (name, port) table ->
  plain pre = true -> quoteOpt q1 -> all_digit h = true -> h <> "" -> quoteOpt q2 ->
  plain post = true ->
  fixPortMappings (pre +:+ q1 +:+ h +:+ (":" +:+ port) +:+ q2 +:+ post) =
  pre +:+ substituted name port +:+ post.
Proof.
  intros Ht Hpre Hq1 Hh Hne Hq2 Hpost.
  pose proof (binding_has_no_p port pre q1 h q2 post (table_ports _ _ Ht)
                Hpre Hq1 Hh Hq2 Hpost) as P.
  pose proof (binding_pass name port pre q1 h q2 post Ht Hpre Hq1 Hh Hne Hq2 Hpost) as Own.
  pose proof (fun other Ho Hn =>
                other_port_clean name port other pre q1 h q2 post Ht Ho Hn
                  Hpre Hq1 Hh Hq2 Hpost) as Before.
  pose proof (fun other Ho =>
                rewritten_clean name port other pre post Ht Ho Hpre Hpost) as After.
  set (t := pre +:+ q1 +:+ h +:+ (":" +:+ port) +:+ q2 +:+ post) in *.
  set (t' := pre +:+ substituted name port +:+ post) in *.
  unfold fixPortMappings. cbv zeta.
  rewrite !(portsBlock_idle_without_p _ _ t P).
  simpl in Ht.
  repeat (destruct Ht as [Ht | Ht]; [injection Ht as <- <- |]); try contradiction;
    repeat first
      [ rewrite Own
      | match goal with
        | |- context [replace_all (binding ?y) ?r t] =>
            rewrite (binding_idle y r t) by (apply Before; settle)
        | |- context [replace_all (binding ?y) ?r t'] =>
            rewrite (binding_idle y r t') by (apply After; settle)
        end ];
    reflexivity.
Qed.

Lemma single_binding_witness :
  In ("ENVOY_PORT", "3000") table /\
  plain "      - " = true /\ quoteOpt (String Str.squote "") /\
  all_digit "1984" = true /\ "1984" <> "" /\ quoteOpt (String Str.squote "") /\
  plain "
" = true /\
  fixPortMappings ("      - " +:+ String Str.squote "" +:+ "1984" +:+ (":" +:+ "3000") +:+
                   String Str.squote "" +:+ "
") =
  "      - " +:+ substituted "ENVOY_PORT" "3000" +:+ "
".
Proof.
  assert (Q : quoteOpt (String Str.squote "")) by (right; right; reflexivity).
  split; [vm_compute; tauto |]. split; [reflexivity |]. split; [exact Q |].
  split; [reflexivity |]. split; [discriminate |]. split; [exact Q |].
  split; [reflexivity |].
  apply (single_binding_is_rewritten "ENVOY_PORT" "3000" "      - " (String Str.squote "")
           "1984" (String Str.squote "") "
").
  - vm_compute. tauto.
  - reflexivity.
  - exact Q.
  - reflexivity.
  - discriminate.
  - exact Q.
  - reflexivity.
Defined.

End PatcherExtras.

(** ** The wizard: the configuration that is sent *)

Module Wizard.

(** An object literal property [key: v]: when [v] is [undefined] the
    property is lost in [JSON.stringify], which is how the
    configuration reaches the server. *)
Definition property (key : string) (v : option jsval) (o : obj) : obj :=
  match v with
  | Some x => <[key := x]> o
  | None => delete key o
  end.

(** [getDeploymentConfig()] of [useWizard], from the two state
    objects [nodeConfig] and [dashboardConfig]. *)
Definition getDeploymentConfig (nodeConfig dashboardConfig : obj) : Config :=
  {| nodeConfig :=
       property "ADMIN_API_KEY"
         (js_or (nodeConfig !! "ADMIN_API_KEY") (dashboardConfig !! "ADMIN_API_KEY"))
         nodeConfig;
     dashboardConfig := dashboardConfig;
     dockerConfig :=
       property "enableAutoheal" (js_or (nodeConfig !! "RUN_AUTOHEAL") (Some (JBool false)))
       (property "enableLitestream"
          (js_or (dashboardConfig !! "ENABLE_LITESTREAM") (Some (JBool false)))
       (property "enableClickhouse"
          (js_or (dashboardConfig !! "ENABLE_CLICKHOUSE") (Some (JBool false)))
       (property "enableDashboard" (dashboardConfig !! "ENABLE_DASHBOARD")
       (property "enableGrafana" (dashboardConfig !! "ENABLE_GRAFANA")
       (property "enableAoCu" (dashboardConfig !! "ENABLE_AO_CU")
       (property "enableBundler" (dashboardConfig !! "ENABLE_BUNDLER")
       (property "useEnvoy" (dashboardConfig !! "ENABLE_ENVOY")
       (<["restartPolicy" := JStr "unless-stopped"]>
       (<["dataVolume" := JStr "ar-io-data"]>
       (<["networkName" := JStr "ar-io-network"]> ∅)))))))))) |}.

End Wizard.

Module WizardFacts.
Import Wizard EnvFile EnvFacts Server.

Lemma property_same key v o : property key v o !! key = v.
Proof.
  unfold property. destruct v; [apply lookup_insert_eq | apply lookup_delete_eq].
Qed.

Lemma property_other key key' v o : key <> key' -> property key v o !! key' = o !! key'.
Proof.
  intros H. unfold property. destruct v; [now apply lookup_insert_ne | now apply lookup_delete_ne].
Qed.

Lemma truthy_or_false v : truthy (js_or v (Some (JBool false))) = truthy v.
Proof. rewrite truthy_js_or. apply orb_false_r. Qed.

Ltac look :=
  repeat first
    [ rewrite property_same
    | rewrite property_other by discriminate
    | rewrite lookup_insert_ne by discriminate ].

(** The flags of [dockerConfig] as the wizard sets them. *)
Lemma wizard_flags node dash :
  let docker := dockerConfig (getDeploymentConfig node dash) in
  truthy (docker !! "useEnvoy") = truthy (dash !! "ENABLE_ENVOY") /\
  truthy (docker !! "enableBundler") = truthy (dash !! "ENABLE_BUNDLER") /\
  truthy (docker !! "enableAoCu") = truthy (dash !! "ENABLE_AO_CU") /\
  truthy (docker !! "enableGrafana") = truthy (dash !! "ENABLE_GRAFANA") /\
  truthy (docker !! "enableDashboard") = truthy (dash !! "ENABLE_DASHBOARD") /\
  truthy (docker !! "enableClickhouse") = truthy (dash !! "ENABLE_CLICKHOUSE") /\
  truthy (docker !! "enableLitestream") = truthy (dash !! "ENABLE_LITESTREAM") /\
  truthy (docker !! "enableAutoheal") = truthy (node !! "RUN_AUTOHEAL").
Proof.
  simpl. repeat split; look; try reflexivity; apply truthy_or_false.
Qed.

(** Keys that the flags do not enable are set in the file by
    free-form lines only. *)
Lemma keys_not_enabled c (ks : list string) :
  well_formed c = true ->
  (forall key, In key ks ->
     Str.has_char "="%char key = false /\ key <> "" /\
     includes (enabledKeys (gatesOf c)) key = false) ->
  exists text,
    buildEnvFile c = Ok text /\
    forall key line,
      In key ks ->
      In line (Str.split_nl text) ->
      Str.starts_with (key +:+ "=") line = true ->
      In line (extraLines c).
Proof.
  intros W Hks. destruct (text_lines c W) as (l & B & O & L).
  exists (Str.join_nl l). split; [exact B |].
  intros key line Hkey Hline Hstart.
  destruct (Hks key Hkey) as (Hplain & Hne & Hoff).
  apply StrFacts.starts_with_strip in Hstart as [rest ->].
  rewrite StrFacts.append_assoc in Hline |- *.
  destruct (L _ Hline) as [Hl | He].
  2: { apply append_empty_l in He. contradiction. }
  rewrite List.Forall_forall in O.
  destruct (O _ Hl) as [Hx | (key' & v & E & Hk & _ & _)]; [exact Hx |].
  exfalso. destruct (enabled_plain _ _ Hk) as [_ Hkey'].
  destruct (StrFacts.key_of_entry key key' rest (template v) Hplain Hkey' E) as [<- _].
  eapply includes_In_false; eauto.
Qed.

(** The switch of the wizard for each optional service. *)
Definition switch (s : Service) : string :=
  match s with
  | Bundler => "ENABLE_BUNDLER"
  | AoCu => "ENABLE_AO_CU"
  | Grafana => "ENABLE_GRAFANA"
  | Dashboard => "ENABLE_DASHBOARD"
  | Clickhouse => "ENABLE_CLICKHOUSE"
  | Litestream => "ENABLE_LITESTREAM"
  end.

Lemma switch_off_disables node dash s :
  truthy (dash !! switch s) = false ->
  disabled (getDeploymentConfig node dash) s = true.
Proof.
  destruct (wizard_flags node dash) as (_ & F1 & F2 & F3 & F4 & F5 & F6 & _).
  unfold disabled, off, gatesOf.
  cbn [g_bundler g_aocu g_grafana g_dashboard g_clickhouse g_litestream
       g_dashClickhouse g_dashLitestream].
  cbn [dashboardConfig getDeploymentConfig] in *.
  destruct s; simpl switch; intros H;
    rewrite ?F1, ?F2, ?F3, ?F4, ?F5, ?F6, ?H; reflexivity.
Qed.

Lemma serviceKeys_fine s key :
  In key (serviceKeys s) -> Str.has_char "="%char key = false /\ key <> "".
Proof.
  intros H.
  assert (P : forallb (fun k => negb (Str.has_char "="%char k) && negb (Str.is_empty k))
                (serviceKeys s) = true)
    by (destruct s; vm_compute; reflexivity).
  rewrite forallb_forall in P. specialize (P key H).
  apply andb_prop in P as [P1 P2]. apply negb_true_iff in P1.
  split; [exact P1 |]. intros ->. discriminate P2.
Qed.

Lemma ssl_not_enabled g :
  g_ssl g = false ->
  forallb (fun key => negb (includes (enabledKeys g) key)) sslConfigs = true.
Proof.
  destruct g as [b1 b2 b3 b4 b5 b6 b7 b8 b9 b10 b11]. simpl. intros ->.
  destruct b1, b2, b3, b4, b5, b6, b7, b8, b10, b11; vm_compute; reflexivity.
Qed.

End WizardFacts.

Module WizardTheorems.
Import Wizard WizardFacts EnvFile EnvFacts Server.

(** X18. What the switches of the wizard start. For the
    configuration that the wizard sends, the services to start are the
    node and the cache, then Envoy, the observer, Autoheal, ClickHouse
    with its importer, Litestream, the four services of the bundler,
    the compute unit, the three monitoring services and the admin
    dashboard, each if its switch is on; the switch of Autoheal is
    [RUN_AUTOHEAL] of the node settings, and [ENABLE_AUTOHEAL] of the
    dashboard settings plays no part. *)
Theorem wizard_switches_select_services (node dash : obj) :
  servicesToStart (getDeploymentConfig node dash) =
    ["core"; "redis"] ++
    (if truthy (dash !! "ENABLE_ENVOY") then ["envoy"] else []) ++
    (if truthy (node !! "RUN_OBSERVER") then ["observer"] else []) ++
    (if truthy (node !! "RUN_AUTOHEAL") then ["autoheal"] else []) ++
    (if truthy (dash !! "ENABLE_CLICKHOUSE")
     then ["clickhouse"; "clickhouse-auto-import"] else []) ++
    (if truthy (dash !! "ENABLE_LITESTREAM") then ["litestream"] else []) ++
    (if truthy (dash !! "ENABLE_BUNDLER")
     then ["upload-service"; "fulfillment-service"; "upload-service-pg"; "localstack"]
     else []) ++
    (if truthy (dash !! "ENABLE_AO_CU") then ["ao-cu"] else []) ++
    (if truthy (dash !! "ENABLE_GRAFANA")
     then ["prometheus"; "grafana"; "node-exporter"] else []) ++
    (if truthy (dash !! "ENABLE_DASHBOARD") then ["admin-dashboard"] else []).
Proof.
  destruct (wizard_flags node dash) as (_ & F1 & F2 & F3 & F4 & F5 & F6 & F7).
  unfold servicesToStart. cbv zeta.
  rewrite F1, F2, F3, F4, F5, F6, F7.
  cbn [nodeConfig dashboardConfig getDeploymentConfig].
  now rewrite property_other by discriminate.
Qed.

(** X19. For the configuration that the wizard sends, the switches
    decide what the environment file holds: while the switch of an
    optional service is off, no key of that service is set in the file
    by the generator; a line that sets one is a free-form line of
    [ADDITIONAL_ENV]. *)
Theorem wizard_switch_off_keeps_keys_out (node dash : obj) :
  well_formed (getDeploymentConfig node dash) = true ->
  exists text,
    buildEnvFile (getDeploymentConfig node dash) = Ok text /\
    forall s key line,
      truthy (dash !! switch s) = false ->
      In key (serviceKeys s) ->
      In line (Str.split_nl text) ->
      Str.starts_with (key +:+ "=") line = true ->
      In line (extraLines (getDeploymentConfig node dash)).
Proof.
  intros W. set (c := getDeploymentConfig node dash) in *.
  destruct (text_lines c W) as (l & B & _).
  exists (Str.join_nl l). split; [exact B |].
  intros s key line Hs Hkey Hline Hstart.
  pose proof (off_not_enabled _ _ (switch_off_disables node dash s Hs)) as F.
  rewrite forallb_forall in F.
  destruct (keys_not_enabled c (serviceKeys s) W) as (text & B' & H).
  { intros k Hk. destruct (serviceKeys_fine s k Hk) as [P1 P2].
    split; [exact P1 |]. split; [exact P2 |]. now apply negb_true_iff, F. }
  rewrite B in B'. injection B' as <-. eauto.
Qed.

(** X20. The configuration that the wizard sends has no
    [enableSsl] in [dockerConfig], which is what the generator asks
    for. So, for settings that make a well-formed configuration
    ([ADDITIONAL_ENV] absent or a string, no line break in another
    string value), and whatever [ENABLE_SSL] and the two paths are, the
    generator does not set them: a line of the environment file that
    begins with one of the three keys and an equals sign is a line of
    [ADDITIONAL_ENV]. *)
Theorem wizard_never_emits_ssl_settings (node dash : obj) :
  well_formed (getDeploymentConfig node dash) = true ->
  exists text,
    buildEnvFile (getDeploymentConfig node dash) = Ok text /\
    forall key line,
      In key ["ENABLE_SSL"; "SSL_CERT_PATH"; "SSL_KEY_PATH"] ->
      In line (Str.split_nl text) ->
      Str.starts_with (key +:+ "=") line = true ->
      In line (extraLines (getDeploymentConfig node dash)).
Proof.
  intros W. apply (keys_not_enabled _ sslConfigs W).
  intros key Hk.
  assert (G : g_ssl (gatesOf (getDeploymentConfig node dash)) = false).
  { unfold gatesOf. cbn [g_ssl dockerConfig getDeploymentConfig]. look.
    rewrite lookup_empty. reflexivity. }
  pose proof (ssl_not_enabled _ G) as F. rewrite forallb_forall in F.
  specialize (F key Hk). apply negb_true_iff in F.
  split; [| split; [| exact F]];
    simpl in Hk; repeat (destruct Hk as [<- | Hk]; [first [reflexivity | discriminate] |]);
    contradiction.
Qed.

End WizardTheorems.

Module WizardWitness.
Import Wizard WizardFacts WizardTheorems EnvFile EnvFacts Server.

(** The settings of a wizard with the switches of SSL and of the
    metrics dashboard on, and a port for the latter. *)
Definition nodeSettings : obj :=
  list_to_map
    [ ("AR_IO_WALLET", JStr "wallet-address"); ("ADMIN_API_KEY", JStr "");
      ("RUN_OBSERVER", JBool false); ("RUN_AUTOHEAL", JBool true);
      ("ADDITIONAL_ENV", JStr "SSL_CERT_PATH=/etc/ssl/cert.pem") ].

Definition dashboardSettings : obj :=
  list_to_map
    [ ("ADMIN_API_KEY", JStr "secret"); ("ENABLE_ENVOY", JBool true);
      ("ENVOY_PORT", JStr "3000"); ("ENABLE_GRAFANA", JBool false);
      ("GRAFANA_PORT", JStr "1024"); ("ENABLE_SSL", JBool true);
      ("SSL_CERT_PATH", JStr "/etc/ssl/cert.pem");
      ("SSL_KEY_PATH", JStr "/etc/ssl/key.pem") ].

Lemma wizard_switch_off_witness :
  well_formed (getDeploymentConfig nodeSettings dashboardSettings) = true /\
  exists text,
    buildEnvFile (getDeploymentConfig nodeSettings dashboardSettings) = Ok text /\
    forall s key line,
      truthy (dashboardSettings !! switch s) = false ->
      In key (serviceKeys s) ->
      In line (Str.split_nl text) ->
      Str.starts_with (key +:+ "=") line = true ->
      In line (extraLines (getDeploymentConfig nodeSettings dashboardSettings)).
Proof.
  split; [vm_compute; reflexivity |].
  apply (wizard_switch_off_keeps_keys_out nodeSettings dashboardSettings).
  vm_compute. reflexivity.
Defined.

Lemma wizard_ssl_witness :
  well_formed (getDeploymentConfig nodeSettings dashboardSettings) = true /\
  exists text,
    buildEnvFile (getDeploymentConfig nodeSettings dashboardSettings) = Ok text /\
    forall key line,
      In key ["ENABLE_SSL"; "SSL_CERT_PATH"; "SSL_KEY_PATH"] ->
      In line (Str.split_nl text) ->
      Str.starts_with (key +:+ "=") line = true ->
      In line (extraLines (getDeploymentConfig nodeSettings dashboardSettings)).
Proof.
  split; [vm_compute; reflexivity |].
  apply (wizard_never_emits_ssl_settings nodeSettings dashboardSettings).
  vm_compute. reflexivity.
Defined.

(** The file of these settings: the key of the wizard falls back to
    the one of the dashboard settings, Autoheal follows [RUN_AUTOHEAL],
    and of the SSL settings only the free-form line is there. *)
Example wizard_file :
  buildEnvFile (getDeploymentConfig nodeSettings dashboardSettings) =
    Ok "AR_IO_WALLET=wallet-address
ADMIN_API_KEY=secret
RUN_OBSERVER=false
RUN_AUTOHEAL=true
ENVOY_PORT=3000
SSL_CERT_PATH=/etc/ssl/cert.pem
ENABLE_AUTOHEAL=true".
Proof. vm_compute. reflexivity. Qed.

End WizardWitness.

(** ** The preview of the environment file in the review step *)

Module Preview.
Import EnvFile.

(** The object literal [defaultValues] of the review step: the one of
    the server and three more keys. *)
Definition denyList : list (string * string) :=
  [ ("AWS_ACCESS_KEY_ID", "test");
    ("AWS_SECRET_ACCESS_KEY", "test");
    ("AWS_ENDPOINT", "http://localstack:4566");
    ("ADMIN_USERNAME", "admin");
    ("ADMIN_PASSWORD", "");
    ("SSL_CERT_PATH", "");
    ("SSL_KEY_PATH", "");
    ("BUNDLER_ARWEAVE_WALLET", "");
    ("CU_WALLET", "");
    ("OBSERVER_WALLET", "") ].

Definition defaultValues : obj :=
  list_to_map (map (fun kv => (fst kv, JStr (snd kv))) denyList).

Definition shouldIncludeValue (key : string) (value : option jsval) : bool :=
  if nullish value || is_empty_string value then false
  else negb (bool_decide (defaultValues !! key = value)).

Definition coreNodeConfigs : list string :=
  [ "AR_IO_WALLET"; "OBSERVER_WALLET"; "ADMIN_API_KEY"; "GRAPHQL_HOST"; "GRAPHQL_PORT";
    "ARNS_ROOT_HOST"; "START_HEIGHT"; "STOP_HEIGHT"; "TRUSTED_ARWEAVE_URL";
    "TRUSTED_NODE_URL";
    "TRUSTED_GATEWAY_URL"; "TRUSTED_ARNS_GATEWAY_URL"; "INSTANCE_ID"; "LOG_FORMAT";
    "LOG_FILTER";
    "WEBHOOK_TARGET_SERVERS"; "WEBHOOK_INDEX_FILTER"; "WEBHOOK_BLOCK_FILTER";
    "SKIP_CACHE"; "FILTER_CHANGE_REPROCESS"; "SANDBOX_PROTOCOL";
    "SIMULATED_REQUEST_FAILURE_RATE";
    "START_WRITERS"; "RUN_OBSERVER"; "ENABLE_MEMPOOL_WATCHER";
    "MEMPOOL_POLLING_INTERVAL_MS";
    "NODE_MAX_OLD_SPACE_SIZE";
    "CORE_PORT";
    "CHAIN_CACHE_TYPE"; "REDIS_CACHE_URL"; "REDIS_USE_TLS"; "REDIS_CACHE_TTL_SECONDS" ].

Definition nodeBundlerConfigs : list string := ["BACKFILL_BUNDLE_RECORDS"].

Definition bundlerConfigs : list string :=
  [ "BUNDLER_ARWEAVE_WALLET"; "GATEWAY_URL"; "UPLOADER_URL"; "APP_NAME";
    "ANS104_INDEX_FILTER"; "ANS104_UNBUNDLE_FILTER";
    "AWS_S3_CONTIGUOUS_DATA_BUCKET"; "AWS_S3_CONTIGUOUS_DATA_PREFIX"; "AWS_ACCESS_KEY_ID";
    "AWS_SECRET_ACCESS_KEY"; "AWS_REGION"; "AWS_ENDPOINT"; "ALLOW_LISTED_ADDRESSES" ].

Definition dashboardOnlyConfigs : list string :=
  ["DASHBOARD_PORT"; "ADMIN_USERNAME"; "ADMIN_PASSWORD"].

(** The callback of every loop:
    [if (o[key] != null && o[key] !== '' && !seen.has(key)
         && shouldIncludeValue(key, o[key])) push]. *)
Definition add (o : obj) (key : string) (a : Acc) : Acc :=
  if negb (nullish (o !! key)) && negb (is_empty_string (o !! key))
     && negb (has a key) && shouldIncludeValue key (o !! key)
  then push key (o !! key) a else a.

(** [dashboardConfig.ENABLE_BUNDLER || dashboardConfig.ENABLE_AO_CU || ...]. *)
Definition anyServiceEnabled (dash : obj) : option jsval :=
  js_or (dash !! "ENABLE_BUNDLER")
  (js_or (dash !! "ENABLE_AO_CU")
  (js_or (dash !! "ENABLE_GRAFANA")
  (js_or (dash !! "ENABLE_DASHBOARD")
  (js_or (dash !! "ENABLE_CLICKHOUSE")
  (js_or (dash !! "ENABLE_LITESTREAM")
         (dash !! "ENABLE_AUTOHEAL")))))).

(** The first line: [`# AR.IO .env generated on ${new Date().toISOString()}`]. *)
Definition header (now : string) : string := "# AR.IO .env generated on " +:+ now.

(** The statements of [generateEnvFile] before the additional lines. *)
Definition keyedLines (now : string) (c : Config) : Acc :=
  let node := nodeConfig c in
  let dash := dashboardConfig c in
  let a := pushRaw (header now) start in
  let a := forEach coreNodeConfigs (add node) a in
  let a := when (truthy (dash !! "ENABLE_BUNDLER"))
             (forEach nodeBundlerConfigs (add node)) a in
  let a := when (truthy (dash !! "ENABLE_ENVOY"))
             (forEach envoyConfigs (add dash)) a in
  let a := when (truthy (anyServiceEnabled dash))
             (forEach redisServiceConfigs (add dash)) a in
  let a := when (truthy (dash !! "ENABLE_CLICKHOUSE"))
             (forEach clickhouseServiceConfigs (add dash)) a in
  let a := when (truthy (dash !! "ENABLE_LITESTREAM"))
             (forEach litestreamConfigs (add dash)) a in
  let a := when (truthy (dash !! "ENABLE_BUNDLER"))
             (forEach bundlerConfigs (add dash)) a in
  let a := when (truthy (dash !! "ENABLE_AO_CU"))
             (forEach aoCuConfigs (add dash)) a in
  let a := when (truthy (dash !! "ENABLE_GRAFANA"))
             (forEach grafanaConfigs (add dash)) a in
  let a := when (truthy (dash !! "ENABLE_DASHBOARD"))
             (forEach dashboardOnlyConfigs (add dash)) a in
  let a := when (truthy (dash !! "ENABLE_SSL"))
             (forEach sslConfigs (add dash)) a in
  a.

(** The additional lines; a truthy value that is not a string has no
    method [split]. *)
Definition addAdditional (v : option jsval) (a : Acc) : result Acc :=
  if truthy v then
    match v with
    | Some (JStr text) => Ok (fold_left (fun a line => pushRaw line a) (additionalLines text) a)
    | _ => Err "config.nodeConfig.ADDITIONAL_ENV.split is not a function"
    end
  else Ok a.

(** [generateEnvFile()] of the review step, at the time [now]. *)
Definition generateEnvFile (now : string) (c : Config) : result string :=
  match addAdditional (nodeConfig c !! "ADDITIONAL_ENV") (keyedLines now c) with
  | Ok a => Ok (Str.join_nl (lines a))
  | Err e => Err e
  end.

End Preview.

Module PreviewFacts.
Import EnvFile StrFacts EnvFacts EnvShape Preview.

(** A pair the preview may show: its value is not empty, holds no
    line break, and the pair is not an entry of [defaultValues]. *)
Definition fair (kv : string * string) : Prop :=
  snd kv <> "" /\ Str.single_line (snd kv) = true /\ ~ In kv Preview.denyList.

Lemma shown_is_fair key v :
  Str.single_line (template v) = true ->
  Preview.shouldIncludeValue key v = true -> fair (key, template v).
Proof.
  intros L. unfold Preview.shouldIncludeValue.
  destruct (nullish v) eqn:N; [discriminate |].
  destruct (is_empty_string v) eqn:E; simpl; [discriminate |].
  intros H. apply negb_true_iff, bool_decide_eq_false in H.
  split; [now apply template_nonempty |]. split; [exact L |]. clear L.
  simpl. intros Hin. apply H. clear H.
  unfold Preview.denyList in Hin. simpl in Hin.
  destruct v as [[| [] | s] |]; simpl in *; try discriminate;
    repeat (destruct Hin as [Hin | Hin]; [try discriminate Hin |]); try contradiction.
  all: injection Hin as <- <-; reflexivity.
Qed.

(** The header, then keyed lines of fair pairs. *)
Definition previewed (now : string) (a : Acc) : Prop :=
  exists es, shaped a ([Raw (header now)] ++ map keyed es) /\ Forall fair es.

Definition previews (now : string) (f : Acc -> Acc) : Prop :=
  forall a, previewed now a -> previewed now (f a).

Lemma header_previewed now : previewed now (pushRaw (header now) start).
Proof.
  exists []. split; [| constructor]. split; simpl.
  - reflexivity.
  - constructor.
  - intros key [].
  - repeat constructor.
Qed.

Lemma add_previews now o key :
  plain_key key = true ->
  Str.single_line (template (o !! key)) = true ->
  previews now (add o key).
Proof.
  intros Hp Hs a [es [H F]]. unfold add.
  destruct (nullish (o !! key)) eqn:N; simpl; [now exists es |].
  destruct (is_empty_string (o !! key)) eqn:E; simpl; [now exists es |].
  destruct (has a key) eqn:S; simpl; [now exists es |].
  destruct (Preview.shouldIncludeValue key (o !! key)) eqn:V; [| now exists es].
  exists (es ++ [(key, template (o !! key))]). split.
  - rewrite map_app, app_assoc.
    change (map keyed [(key, template (o !! key))]) with [Keyed key (template (o !! key))].
    eapply shaped_push; eauto using template_nonempty.
  - apply Forall_app. split; [exact F |]. constructor; [| constructor].
    now apply shown_is_fair.
Qed.

Lemma forEach_previews now keys f :
  (forall key, In key keys -> previews now (f key)) -> previews now (forEach keys f).
Proof.
  unfold forEach. intros Hf. induction keys as [| k keys IH]; intros a H; simpl; [exact H |].
  apply IH; [intros key Hk; apply Hf; now right |]. apply Hf; [now left | exact H].
Qed.

Lemma when_previews now c f : previews now f -> previews now (when c f).
Proof. intros Hf a H. unfold when. destruct c; [now apply Hf | exact H]. Qed.

Lemma previews_apply now f a : previews now f -> previewed now a -> previewed now (f a).
Proof. intros H. apply H. Qed.

(** The values of a well-formed configuration hold no line break. *)
Lemma dash_value_single c key :
  well_formed c = true -> Str.single_line (template (dashboardConfig c !! key)) = true.
Proof.
  unfold well_formed. intros W. apply andb_prop in W as [_ W].
  now apply template_single_line.
Qed.

Lemma node_value_single c key :
  well_formed c = true -> key <> "ADDITIONAL_ENV" ->
  Str.single_line (template (nodeConfig c !! key)) = true.
Proof.
  unfold well_formed. intros W Hne. apply andb_prop in W as [W _].
  apply andb_prop in W as [_ W].
  rewrite <- (lookup_delete_ne (nodeConfig c) "ADDITIONAL_ENV" key) by congruence.
  now apply template_single_line.
Qed.

Lemma other_in keys key :
  forallb (fun k => negb (String.eqb k "ADDITIONAL_ENV")) keys = true ->
  In key keys -> key <> "ADDITIONAL_ENV".
Proof.
  intros H Hin. rewrite forallb_forall in H. specialize (H key Hin).
  apply negb_true_iff, String.eqb_neq in H. exact H.
Qed.

Ltac preview_step :=
  cbv beta;
  lazymatch goal with
  | |- previewed _ (pushRaw _ start) => apply header_previewed
  | |- previewed _ (?f ?a) => apply previews_apply
  | |- previews _ (when _ _) => apply when_previews
  | |- previews _ (forEach _ _) => apply forEach_previews; intros ?key ?Hin
  | |- previews _ (add (nodeConfig _) _) =>
      apply add_previews;
      [ plain_known
      | apply node_value_single;
        [assumption | eapply other_in; [| eassumption]; reflexivity] ]
  | |- previews _ (add (dashboardConfig _) _) =>
      apply add_previews; [plain_known | apply dash_value_single; assumption]
  end.

Lemma keyedLines_previewed now c :
  well_formed c = true -> previewed now (keyedLines now c).
Proof. intros W. unfold keyedLines. cbv zeta. repeat preview_step. Qed.

Lemma preview_additional_shaped c a a' items :
  shaped a items ->
  Preview.addAdditional (nodeConfig c !! "ADDITIONAL_ENV") a = Ok a' ->
  shaped a' (items ++ map Raw (extraLines c)).
Proof.
  intros H. unfold Preview.addAdditional, extraLines.
  destruct (nodeConfig c !! "ADDITIONAL_ENV") as [[| [] | text] |]; simpl;
    try discriminate; try (intros [= <-]; now rewrite app_nil_r).
  destruct (Str.is_empty text) eqn:E; simpl; intros [= <-].
  - destruct text; [| discriminate E]. simpl. now rewrite app_nil_r.
  - now apply pushRaw_shaped.
Qed.

Lemma preview_additional_total c a :
  well_formed c = true ->
  exists a', Preview.addAdditional (nodeConfig c !! "ADDITIONAL_ENV") a = Ok a'.
Proof.
  unfold well_formed, Preview.addAdditional. intros W.
  apply andb_prop in W as [W _]. apply andb_prop in W as [W _].
  destruct (nodeConfig c !! "ADDITIONAL_ENV") as [[| [] | text] |]; simpl;
    try discriminate W; eauto.
  destruct (negb (Str.is_empty text)); eauto.
Qed.

Lemma plain_single key : plain_key key = true -> Str.single_line key = true.
Proof. unfold plain_key. intros H. now apply andb_prop in H as [H _]. Qed.

End PreviewFacts.

Module PreviewTheorems.
Import EnvFile StrFacts EnvFacts EnvShape Preview PreviewFacts.

(** X21.  The preview of the review step for a well-formed
    configuration ([ADDITIONAL_ENV] absent or a string, no line break
    in another string value) at a time written without a line break.
    The preview is produced, and its lines are the header line with
    the time of the call, then lines [KEY=VALUE], then the non-blank
    lines of [ADDITIONAL_ENV] as they were typed, which come last.
    Among the lines of keys no key comes twice; no key holds a line
    break or an equals sign; no value is empty or holds a line break;
    and no pair is one of the table of placeholder values. *)
Theorem preview_shape (now : string) (c : Config) :
  well_formed c = true ->
  Str.single_line now = true ->
  exists text es,
    generateEnvFile now c = Ok text /\
    text = Str.join_nl ([header now] ++ map entry es ++ extraLines c) /\
    Str.split_nl text = [header now] ++ map entry es ++ extraLines c /\
    NoDup (map fst es) /\
    Forall (fun kv => plain_key (fst kv) = true /\ snd kv <> "" /\
                      Str.single_line (snd kv) = true /\ ~ In kv Preview.denyList) es.
Proof.
  intros W Hn.
  destruct (preview_additional_total c (keyedLines now c) W) as [a E].
  destruct (keyedLines_previewed now c W) as [es [H F]].
  pose proof (preview_additional_shaped c _ _ _ H E) as [Hl Hk _ Hv].
  assert (P : Forall (fun kv => plain_key (fst kv) = true /\ snd kv <> "") es).
  { rewrite !Forall_app in Hv. destruct Hv as [[_ Hv] _]. now apply valued_keyed. }
  assert (L : lines a = [header now] ++ map entry es ++ extraLines c).
  { rewrite Hl, !map_app, render_keyed, render_raw, <- app_assoc. reflexivity. }
  exists (Str.join_nl (lines a)), es. unfold generateEnvFile. rewrite E, L.
  split; [reflexivity |]. split; [reflexivity |].
  split; [| split].
  - apply split_join_nl; [discriminate |].
    apply Forall_app. split; [| apply Forall_app; split].
    + constructor; [| constructor]. unfold header. rewrite single_line_app. exact Hn.
    + rewrite List.Forall_forall in P, F |- *. intros line Hin.
      apply in_map_iff in Hin as (kv & <- & Hin).
      destruct (P kv Hin) as [Pk _]. destruct (F kv Hin) as (_ & Fs & _).
      unfold entry. rewrite !single_line_app, (plain_single _ Pk), Fs. reflexivity.
    + apply extraLines_single.
  - rewrite !keys_app, keys_keyed, keys_raw, app_nil_r in Hk. exact Hk.
  - rewrite List.Forall_forall in P, F |- *. intros kv Hin.
    destruct (P kv Hin) as [Pk Pv]. destruct (F kv Hin) as (_ & Fs & Fd). auto.
Qed.

End PreviewTheorems.

Module PreviewWitness.
Import EnvFile EnvFacts EnvShape Preview PreviewFacts PreviewTheorems.

(** A wallet, the placeholder name of the administrator with the
    dashboard switched on, and one free-form line. *)
Definition reviewed : Config :=
  {| nodeConfig :=
       list_to_map
         [ ("AR_IO_WALLET", JStr "wallet-address"); ("RUN_OBSERVER", JBool true);
           ("ADDITIONAL_ENV", JStr "ADMIN_USERNAME=admin") ];
     dashboardConfig :=
       list_to_map
         [ ("ENABLE_DASHBOARD", JBool true); ("DASHBOARD_PORT", JStr "3001");
           ("ADMIN_USERNAME", JStr "admin"); ("ADMIN_PASSWORD", JStr "") ];
     dockerConfig := ∅ |}.

Lemma preview_shape_witness :
  well_formed reviewed = true /\
  Str.single_line "2025-01-01T00:00:00.000Z" = true /\
  exists text es,
    generateEnvFile "2025-01-01T00:00:00.000Z" reviewed = Ok text /\
    text = Str.join_nl ([header "2025-01-01T00:00:00.000Z"] ++ map entry es
                        ++ extraLines reviewed) /\
    Str.split_nl text = [header "2025-01-01T00:00:00.000Z"] ++ map entry es
                        ++ extraLines reviewed /\
    NoDup (map fst es) /\
    Forall (fun kv => plain_key (fst kv) = true /\ snd kv <> "" /\
                      Str.single_line (snd kv) = true /\ ~ In kv Preview.denyList) es.
Proof.
  split; [vm_compute; reflexivity |]. split; [reflexivity |].
  apply (preview_shape "2025-01-01T00:00:00.000Z" reviewed); vm_compute; reflexivity.
Defined.

(** The placeholder name is left out of the keyed lines and shown as
    the free-form line. *)
Example preview_text :
  generateEnvFile "2025-01-01T00:00:00.000Z" reviewed
    = Ok (Str.join_nl
            [ "# AR.IO .env generated on 2025-01-01T00:00:00.000Z";
              "AR_IO_WALLET=wallet-address";
              "RUN_OBSERVER=true";
              "DASHBOARD_PORT=3001";
              "ADMIN_USERNAME=admin" ]).
Proof. vm_compute. reflexivity. Qed.

End PreviewWitness.

(** ** The progress display of the deployment step *)

Module Client.
Import Server.

(** [s.includes(needle)]. *)
Fixpoint includes (needle s : string) : bool :=
  Str.starts_with needle s ||
  match s with
  | String _ s' => includes needle s'
  | EmptyString => false
  end.

(** [toLowerCase] on a code unit below 256: the letters [A-Z] and the
    capital letters of the Latin-1 supplement (192 to 222 without the
    multiplication sign, 215). *)
Definition lower (c : ascii) : ascii :=
  let n := nat_of_ascii c in
  if (Nat.leb 65 n && Nat.leb n 90)
     || (Nat.leb 192 n && Nat.leb n 222 && negb (Nat.eqb n 215))
  then ascii_of_nat (n + 32) else c.

Fixpoint toLowerCase (s : string) : string :=
  match s with
  | EmptyString => EmptyString
  | String c s' => String (lower c) (toLowerCase s')
  end.

(** [parseCurrentStep(logs)]. *)
Definition parseCurrentStep (logs : list string) : nat :=
  if existsb (fun l => includes "Pulling" l) logs then 2
  else if existsb (fun l => includes "Starting" l) logs then 3
  else if existsb (fun l => includes "dashboard" (toLowerCase l)) logs then 4
  else if existsb (fun l => includes "health" (toLowerCase l)) logs then 5
  else 1.

(** [res.ok]. *)
Definition res_ok (res : Response) : bool :=
  Nat.leb 200 (code res) && Nat.leb (code res) 299.

(** [fetchLogs()] on the answer of [GET /logs]:
    [if (!res.ok) return []; return data.logs || []]. *)
Definition fetchLogs (res : Response) : list string :=
  if res_ok res then
    match body res with
    | BLogs logs => logs
    | _ => []
    end
  else [].

End Client.

Module ClientFacts.
Import Server ProgFacts HandlerFacts Client.

Lemma includes_prefix needle s : includes needle (needle +:+ s) = true.
Proof.
  destruct (needle +:+ s) eqn:E; cbn [includes]; rewrite <- E, StrFacts.starts_with_app;
    reflexivity.
Qed.

Lemma includes_after needle pre s :
  includes needle s = true -> includes needle (pre +:+ s) = true.
Proof.
  intros H. induction pre as [| c pre IH]; [exact H |].
  change (String c pre +:+ s) with (String c (pre +:+ s)).
  cbn [includes]. rewrite IH. apply orb_true_r.
Qed.

(** Every run of the program that ends well has logged a message with
    the property [P]. *)
Fixpoint announces (P : string -> Prop) {A} (p : Prog A) : Prop :=
  match p with
  | Ret _ => False
  | Throw _ => True
  | @Vis _ X c k =>
      match c with
      | AppendLog msg => P msg
      | _ => False
      end \/ forall x : X, announces P (k x)
  end.

Lemma announces_bind_l P {A B} (p : Prog A) (f : A -> Prog B) :
  announces P p -> announces P (bind p f).
Proof.
  induction p as [a | msg | X c k IH]; simpl; [contradiction | trivial |].
  intros [H | H]; [now left | right; intros x; apply IH, H].
Qed.

Lemma announces_bind_r P {A B} (p : Prog A) (f : A -> Prog B) :
  (forall a, announces P (f a)) -> announces P (bind p f).
Proof.
  intros H. induction p as [a | msg | X c k IH]; simpl; [apply H | trivial |].
  right. intros x. apply IH.
Qed.

Lemma announces_appendLog (P : string -> Prop) msg : P msg -> announces P (appendLog msg).
Proof. intros H. simpl. now left. Qed.

Lemma interp_announces env P {A} (p : Prog A) st st' a :
  announces P p ->
  interp env p st = (st', Ok a) ->
  exists s msg, P msg /\ In (logLine env s msg) (deploymentLogs st').
Proof.
  revert st. induction p as [b | msg | X c k IH]; intros st; simpl.
  - contradiction.
  - discriminate.
  - intros [H | H] E.
    + destruct c; try contradiction.
      exists st, msg. split; [exact H |].
      simpl in E. apply interp_extends_step in E. destruct E as ([l Hl] & _).
      rewrite Hl. simpl. apply in_or_app. left. apply in_or_app. right. now left.
    + destruct (perform env c st) as [s x]. eapply IH; eauto.
Qed.

Definition opens (word : string) (msg : string) : Prop := exists rest, msg = word +:+ rest.

Lemma startServices_announces config composeFiles :
  announces (opens "Starting") (startServices config composeFiles).
Proof.
  unfold startServices.
  do 5 (apply announces_bind_r; intros ?).
  apply announces_bind_l, announces_appendLog.
  eexists. reflexivity.
Qed.

Lemma deployTry_announces config : announces (opens "Starting") (deployTry config).
Proof.
  unfold deployTry.
  do 15 (apply announces_bind_r; intros ?).
  apply startServices_announces.
Qed.

Lemma existsb_In {A} (f : A -> bool) x l : In x l -> f x = true -> existsb f l = true.
Proof. intros H E. apply existsb_exists. eauto. Qed.

Lemma parseCurrentStep_starting logs :
  existsb (fun l => includes "Starting" l) logs = true ->
  parseCurrentStep logs = 2 \/ parseCurrentStep logs = 3.
Proof.
  intros H. unfold parseCurrentStep. rewrite H.
  destruct (existsb (fun l => includes "Pulling" l) logs); [left | right]; reflexivity.
Qed.

Lemma existsb_app_l {A} (f : A -> bool) l l' :
  existsb f l = true -> existsb f (l ++ l') = true.
Proof. intros H. rewrite existsb_app, H. reflexivity. Qed.

End ClientFacts.

Module ClientTheorems.
Import Server ProgFacts HandlerFacts Client ClientFacts.

(** X22.  Once [POST /deploy] has answered that the deployment has
    started, the step that the deployment page computes from the
    answer of [GET /logs] is 2 or 3, whatever happens afterwards
    (output and exit of children, cancellations, further requests):
    the line [Starting all services] stays in the log, so the indices
    4 and 5 of [parseCurrentStep], and 1, are out of reach. *)
Theorem started_deployment_shows_step_2_or_3
    (env : Env) (c : Config) (st st' : State) (es : list Event) :
  step env (PostDeploy (Some c)) st = (st', Some (json BStarted)) ->
  exists res,
    snd (step env GetLogs (run env es st')) = Some res /\
    (parseCurrentStep (fetchLogs res) = 2 \/ parseCurrentStep (fetchLogs res) = 3).
Proof.
  intros H. apply step_started in H.
  destruct (interp_announces env _ _ _ _ _ (deployTry_announces c) H)
    as (s & msg & [rest ->] & Hin).
  exists (getLogs (run env es st')). split; [reflexivity |].
  apply parseCurrentStep_starting.
  unfold fetchLogs, getLogs. simpl.
  destruct (run_extends env es st') as ([later ->] & _).
  apply existsb_app_l. eapply existsb_In; [exact Hin |].
  unfold logLine. do 3 apply includes_after. apply includes_prefix.
Qed.

End ClientTheorems.

Module ClientWitness.
Import Server ProgFacts HandlerFacts Scene Client ClientFacts ClientTheorems.

(** What follows the start: the child prints a line, the user cancels,
    and the child exits. *)
Definition aftermath : list Event :=
  [ChildStdout 0 " Container ar-io-node-core-1  Started"; PostCancel; ChildClose 0 None].

Lemma started_deployment_step_witness :
  step calm (PostDeploy (Some minimal)) initial = (deployedOnce, Some (json BStarted)) /\
  exists res,
    snd (step calm GetLogs (run calm aftermath deployedOnce)) = Some res /\
    (parseCurrentStep (fetchLogs res) = 2 \/ parseCurrentStep (fetchLogs res) = 3).
Proof.
  split; [vm_compute; reflexivity |].
  apply (started_deployment_shows_step_2_or_3 calm minimal initial deployedOnce aftermath).
  vm_compute. reflexivity.
Defined.

(** Before any deployment the log is empty and the step is 1; after
    the start it is 3. *)
Example step_of_empty_log :
  option_map (fun res => parseCurrentStep (fetchLogs res)) (snd (step calm GetLogs initial))
    = Some 1 /\
  option_map (fun res => parseCurrentStep (fetchLogs res))
    (snd (step calm GetLogs (run calm aftermath deployedOnce))) = Some 3.
Proof. split; vm_compute; reflexivity. Qed.

End ClientWitness.

(** ** The cancel button of the deployment step *)

Module Page.
Import Server Client.

(** The state of [DeploymentStepComponent] that [handleCancel] reads
    and sets, and the interval of the polling. *)
Record Page := {
  isCancelling : bool;
  deploymentComplete : bool;
  deploymentCancelled : bool;
  deploymentError : option string;
  pollingInterval : option nat
}.

(** The member [error] of a body, with [error || fallback]. *)
Definition errorOr (fallback : string) (b : Body) : string :=
  match b with
  | BError e => if Str.is_empty e then fallback else e
  | _ => fallback
  end.

(** [cancelDeployment()] on the outcome of [fetch]: the answer, or the
    message with which [fetch] rejects. *)
Definition cancelDeployment (answer : result Response) : result Body :=
  match answer with
  | Err msg => Err msg
  | Ok res =>
      if res_ok res then Ok (body res)
      else Err (errorOr "Failed to cancel deployment" (body res))
  end.

(** The member [status] of a body. *)
Definition statusOf (b : Body) : option string :=
  match b with
  | BCancel status _ => Some status
  | BStarted => Some "started"
  | _ => None
  end.

Definition is_status (name : string) (b : Body) : bool :=
  match statusOf b with
  | Some s => String.eqb s name
  | None => false
  end.

(** [handleCancel()], with the state after its [finally]. *)
Definition handleCancel (answer : result Response) (p : Page) : Page :=
  if isCancelling p || deploymentComplete p || deploymentCancelled p then p
  else
    match cancelDeployment answer with
    | Ok result =>
        if is_status "cancelled" result || is_status "no_deployment_running" result then
          {| isCancelling := false;
             deploymentComplete := deploymentComplete p;
             deploymentCancelled := true;
             deploymentError := Some "Deployment cancelled by user";
             pollingInterval := None |}
        else
          {| isCancelling := false;
             deploymentComplete := deploymentComplete p;
             deploymentCancelled := deploymentCancelled p;
             deploymentError := Some "Failed to cancel deployment";
             pollingInterval := None |}
    | Err _ =>
        {| isCancelling := false;
           deploymentComplete := deploymentComplete p;
           deploymentCancelled := true;
           deploymentError := Some "Deployment cancelled by user";
           pollingInterval := None |}
    end.

(** The outcome of [fetch] that a server in the state [st] gives: its
    answer to [POST /cancel], or a rejection when the call does not
    reach it. *)
Definition answered (env : Env) (st : State) (answer : result Response) : Prop :=
  match answer with
  | Ok res => snd (step env PostCancel st) = Some res
  | Err _ => True
  end.

End Page.

Module PageFacts.
Import Server ProgFacts Client Page.

(** [POST /cancel] answers 200 with one of its two statuses, whatever
    the state and whatever [kill] does. *)
Lemma cancel_answer env st :
  exists status warning,
    snd (step env PostCancel st) = Some (json (BCancel status warning)) /\
    (status = "cancelled" \/ status = "no_deployment_running").
Proof.
  unfold step, handler, cancel. simpl.
  destruct (currentDeploymentProcess st) as [cp |]; simpl.
  - destruct (killChild env (history st) cp "SIGTERM"); simpl;
      exists "cancelled", None; split; auto.
  - exists "no_deployment_running", None. split; auto.
Qed.

End PageFacts.

Module PageTheorems.
Import Server ProgFacts Client Page PageFacts.

(** X23.  The cancel button always ends in the cancelled state. When
    the page is neither cancelling, complete nor cancelled, then
    whatever the state of the server, and also when the call does not
    reach it, [handleCancel] leaves the page cancelled with the message
    [Deployment cancelled by user], the polling stopped and
    [isCancelling] false: the server answers [POST /cancel] with one of
    the two statuses that the page accepts, so the message
    [Failed to cancel deployment] is never shown. *)
Theorem cancel_button_ends_cancelled
    (env : Env) (st : State) (p : Page) (answer : result Response) :
  isCancelling p = false -> deploymentComplete p = false -> deploymentCancelled p = false ->
  answered env st answer ->
  handleCancel answer p =
    {| isCancelling := false;
       deploymentComplete := false;
       deploymentCancelled := true;
       deploymentError := Some "Deployment cancelled by user";
       pollingInterval := None |}.
Proof.
  intros H1 H2 H3 Ha. unfold handleCancel. rewrite H1, H2, H3. simpl.
  destruct answer as [res | msg]; [| reflexivity].
  destruct (cancel_answer env st) as (status & warning & E & Hs).
  unfold answered in Ha. rewrite E in Ha. injection Ha as <-. simpl.
  destruct Hs as [-> | ->]; reflexivity.
Qed.

End PageTheorems.

Module PageWitness.
Import Server ProgFacts Scene Client Page PageFacts PageTheorems.

(** The page while the deployment runs and is polled. *)
Definition polling : Page :=
  {| isCancelling := false; deploymentComplete := false; deploymentCancelled := false;
     deploymentError := None; pollingInterval := Some 1 |}.

Lemma cancel_button_witness :
  isCancelling polling = false /\ deploymentComplete polling = false /\
  deploymentCancelled polling = false /\
  answered calm deployedOnce (Ok (json (BCancel "cancelled" None))) /\
  handleCancel (Ok (json (BCancel "cancelled" None))) polling =
    {| isCancelling := false;
       deploymentComplete := false;
       deploymentCancelled := true;
       deploymentError := Some "Deployment cancelled by user";
       pollingInterval := None |}.
Proof.
  split; [reflexivity |]. split; [reflexivity |]. split; [reflexivity |].
  split; [vm_compute; reflexivity |].
  apply (cancel_button_ends_cancelled calm deployedOnce polling
           (Ok (json (BCancel "cancelled" None)))); vm_compute; reflexivity.
Defined.

(** An answer that the server never gives would show the failure. *)
Example other_status_shows_failure :
  deploymentError (handleCancel (Ok (json BStarted)) polling)
    = Some "Failed to cancel deployment".
Proof. reflexivity. Qed.

End PageWitness.
